(** * jsonschema: a shallow embedding of the validation and coercion engine

    The development follows [jsonschema/__init__.py]: the runtime values the
    engine inspects, the [ValidationError] record, the scalar and combinator
    variants (classes deriving from [Type]) and the two recursive walkers
    [_validate] and [_parse], composed by [clean].  The schema and the
    demonstrations of [usage.py] are in the module [Usage].

    Modelling conventions.
    - Python objects are the closed universe [obj]: [None], booleans,
      unbounded integers, binary64 floats, finite [decimal.Decimal]s, text,
      lists, tuples, dicts with text keys (as decoded JSON has them), and
      the [date] / [datetime] objects produced by parsing.  Dicts are
      association lists in insertion order; a Python dict never holds a key
      twice.  Object identity ([is]) is only modelled for the singletons
      [None], [True] and [False].
    - Text is [string]; a character is a code point below 256.
    - Raising is explicit: a computation returns [Ok v], raises a
      [ValidationError] ([Invalid e]) or raises another exception
      ([Raise x]: [TypeError], [ValueError], ...), which no handler of the
      engine intercepts except where the source says [except Exception].
    - A condition predicate is a function from the parsed value to an
      outcome: a returned value or a raised exception with its [args].
    - A [strict] flag is kept as its truth value; the compiled pattern of a
      [RegexString] is the attribute [match], a function on text.
    - The built-ins the engine calls ([float], [str], [repr], [==], [<],
      [re.match] on the engine's own patterns, [strptime] on its formats)
      are functions of this file, written after their documented
      behaviour. *)

From Stdlib Require Import Bool List String Ascii ZArith QArith Lia.
From Stdlib Require Import DecimalString SpecFloat.
Import ListNotations.

#[local] Open Scope list_scope.
#[local] Open Scope string_scope.
#[local] Open Scope Z_scope.

(** ** Text helpers *)

Module Text.

Definition chars (s : string) : list ascii := list_ascii_of_string s.
Definition of_chars (l : list ascii) : string := string_of_list_ascii l.

Definition code (c : ascii) : Z := Z.of_nat (nat_of_ascii c).

(** [\d] on code points below 256 *)
Definition is_digit (c : ascii) : bool := (48 <=? code c) && (code c <=? 57).

Definition digit_val (c : ascii) : Z := code c - 48.

(** [', '.join(parts)] *)
Fixpoint join (sep : string) (parts : list string) : string :=
  match parts with
  | [] => ""
  | [p] => p
  | p :: rest => p ++ sep ++ join sep rest
  end.

(** [str(n)] for an integer *)
Definition of_Z (z : Z) : string := NilZero.string_of_int (Z.to_int z).

(** [str(n)] for a count or an index *)
Definition of_nat (n : nat) : string := of_Z (Z.of_nat n).

Fixpoint repeat0 (n : nat) : string :=
  match n with O => "" | S k => "0" ++ repeat0 k end.

(** [str(n).zfill(w)] for a non-negative [n] *)
Definition zfill (w : nat) (z : Z) : string :=
  let s := of_Z z in repeat0 (w - String.length s) ++ s.

(** value of a run of decimal digits, most significant first *)
Definition digits_val (l : list ascii) : Z :=
  fold_left (fun acc c => 10 * acc + digit_val c) l 0.

Definition all_digits (l : list ascii) : bool := forallb is_digit l.

Definition hex_digit (n : Z) : ascii :=
  ascii_of_nat (Z.to_nat (if n <? 10 then 48 + n else 87 + n)).

End Text.

(** ** Numbers: binary64 floats and decimals with their exact values *)

Module Num.

Definition prec : Z := 53.
Definition emax : Z := 1024.

(** A finite [decimal.Decimal]: sign, coefficient, exponent. *)
Record decimal := Dec { dec_neg : bool; dec_coeff : N; dec_exp : Z }.

(** The exact value of a number, or the reason it has none. *)
Inductive exact := Fin (q : Q) | Inf (neg : bool) | NaN.

Definition scale (base : Z) (m : Z) (e : Z) : Q :=
  match e with
  | Z0 => m # 1
  | Zpos p => (m * Z.pow_pos base p) # 1
  | Zneg p => m # (Z.to_pos (Z.pow_pos base p))
  end.

Definition of_int (z : Z) : exact := Fin (z # 1).

Definition of_float (f : spec_float) : exact :=
  match f with
  | S754_zero _ => Fin 0
  | S754_infinity s => Inf s
  | S754_nan => NaN
  | S754_finite s m e => Fin (scale 2 (if s then Zneg m else Zpos m) e)
  end.

Definition of_decimal (d : decimal) : exact :=
  let c := Z.of_N (dec_coeff d) in
  Fin (scale 10 (if dec_neg d then - c else c) (dec_exp d)).

(** Comparison of exact values; [None] when a NaN is involved. *)
Definition compare (a b : exact) : option comparison :=
  match a, b with
  | NaN, _ | _, NaN => None
  | Fin p, Fin q => Some (Qcompare p q)
  | Inf s, Inf t => Some (match s, t with
                          | true, false => Lt | false, true => Gt | _, _ => Eq end)
  | Inf s, Fin _ => Some (if s then Lt else Gt)
  | Fin _, Inf t => Some (if t then Gt else Lt)
  end.

Definition eqb (a b : exact) : bool :=
  match compare a b with Some Eq => true | _ => false end.
Definition ltb (a b : exact) : bool :=
  match compare a b with Some Lt => true | _ => false end.
Definition gtb (a b : exact) : bool :=
  match compare a b with Some Gt => true | _ => false end.

(** Round a non-negative rational [n/d] to the nearest binary64, ties to
    even, as a correctly rounded conversion does. *)
Definition round_pos (neg : bool) (n : positive) (d : positive) : spec_float :=
  let s := 1200 + Z.pos (digits2_pos d) in
  let num := Z.pos n * 2 ^ s in
  let m := num / Z.pos d in
  let r := num mod Z.pos d in
  let loc := if r =? 0 then loc_Exact
             else loc_Inexact (Z.compare (2 * r) (Z.pos d)) in
  binary_round_aux prec emax neg m (- s) loc.

Definition round (q : Q) : spec_float :=
  match Qnum q with
  | Z0 => S754_zero false
  | Zpos n => round_pos false n (Qden q)
  | Zneg n => round_pos true n (Qden q)
  end.

(** [float(n)] for an integer: [OverflowError] when out of range. *)
Definition float_of_int (z : Z) : option spec_float :=
  match round (z # 1) with
  | S754_infinity _ => None
  | f => Some f
  end.

(** [x.is_integer()] *)
Definition is_integer (f : spec_float) : bool :=
  match of_float f with
  | Fin q => Z.rem (Qnum q) (Z.pos (Qden q)) =? 0
  | _ => false
  end.

(** [int(x)] for a finite float: truncation towards zero. *)
Definition int_of_float (f : spec_float) : Z :=
  match of_float f with
  | Fin q => Z.quot (Qnum q) (Z.pos (Qden q))
  | _ => 0
  end.

End Num.

(** ** Runtime values *)

Record date := Date_ { year : Z; month : Z; day : Z }.

Record datetime :=
  Datetime_ { dt_date : date; hour : Z; minute : Z; second : Z; microsecond : Z }.

#[warnings="-register-all"]
Inductive obj :=
| VNone
| VBool (b : bool)
| VInt (z : Z)
| VFloat (f : spec_float)
| VDecimal (d : Num.decimal)
| VStr (s : string)
| VList (items : list obj)
| VTuple (items : list obj)
| VDict (entries : list (string * obj))
| VDate (d : date)
| VDatetime (d : datetime).

(** ** The Python built-ins the engine calls *)

Module Py.

(** Exceptions other than [ValidationError]. *)
Inductive exn :=
| TypeError | ValueError | OverflowError | AttributeError | IndexError
| InvalidOperation.

(** The integer an [int] instance stands for ([True] is [1]). *)
Definition int_value (v : obj) : Z :=
  match v with
  | VBool b => if b then 1 else 0
  | VInt z => z
  | _ => 0
  end.

(** The exact value of a number; [None] for what is not a number. *)
Definition number (v : obj) : option Num.exact :=
  match v with
  | VBool _ | VInt _ => Some (Num.of_int (int_value v))
  | VFloat f => Some (Num.of_float f)
  | VDecimal d => Some (Num.of_decimal d)
  | _ => None
  end.

(** [d.get(k)] / [k in d] on the entries of a dict *)
Fixpoint lookup {A : Type} (k : string) (entries : list (string * A)) : option A :=
  match entries with
  | [] => None
  | (k', v) :: rest => if String.eqb k k' then Some v else lookup k rest
  end.

Definition has_key {A : Type} (k : string) (entries : list (string * A)) : bool :=
  match lookup k entries with Some _ => true | None => false end.

Definition date_eqb (a b : date) : bool :=
  (year a =? year b) && (month a =? month b) && (day a =? day b).

Definition datetime_eqb (a b : datetime) : bool :=
  date_eqb (dt_date a) (dt_date b) && (hour a =? hour b) && (minute a =? minute b)
  && (second a =? second b) && (microsecond a =? microsecond b).

(** [a == b].  Numbers compare by exact value across [bool], [int],
    [float] and [Decimal]; sequences elementwise and only with their own
    kind; dicts as mappings, regardless of order. *)
Fixpoint eq (a b : obj) {struct a} : bool :=
  match a, b with
  | VNone, VNone => true
  | VStr s, VStr t => String.eqb s t
  | VList l, VList m =>
      (fix go (l m : list obj) {struct l} : bool :=
         match l, m with
         | [], [] => true
         | x :: l', y :: m' => eq x y && go l' m'
         | _, _ => false
         end) l m
  | VTuple l, VTuple m =>
      (fix go (l m : list obj) {struct l} : bool :=
         match l, m with
         | [], [] => true
         | x :: l', y :: m' => eq x y && go l' m'
         | _, _ => false
         end) l m
  | VDict d, VDict e =>
      (Nat.eqb (List.length d) (List.length e))
      && (fix go (d : list (string * obj)) {struct d} : bool :=
            match d with
            | [] => true
            | (k, x) :: d' =>
                match lookup k e with
                | Some y => eq x y && go d'
                | None => false
                end
            end) d
  | VDate d, VDate e => date_eqb d e
  | VDatetime d, VDatetime e => datetime_eqb d e
  | _, _ =>
      match number a, number b with
      | Some x, Some y => Num.eqb x y
      | _, _ => false
      end
  end.

(** [v in items] for a tuple of candidates *)
Definition contains (items : list obj) (v : obj) : bool :=
  existsb (fun c => eq v c) items.

(** [a < b] and [a > b] for a number [a], as the engine compares a parsed
    number with a bound: the order of the exact values; [TypeError] when the
    bound is no number; a [Decimal] refuses the comparison with a NaN
    ([decimal.InvalidOperation]), while the other numbers answer [False]. *)
Definition ordered (a b : obj) : option exn :=
  match number a, number b with
  | Some x, Some y =>
      match a, b, x, y with
      | VDecimal _, _, _, Num.NaN | _, VDecimal _, Num.NaN, _ => Some InvalidOperation
      | _, _, _, _ => None
      end
  | _, _ => Some TypeError
  end.

Definition lt (a b : obj) : exn + bool :=
  match ordered a b, number a, number b with
  | None, Some x, Some y => inr (Num.ltb x y)
  | Some e, _, _ => inl e
  | _, _, _ => inl TypeError
  end.

Definition gt (a b : obj) : exn + bool :=
  match ordered a b, number a, number b with
  | None, Some x, Some y => inr (Num.gtb x y)
  | Some e, _, _ => inl e
  | _, _, _ => inl TypeError
  end.

(** Truth value of an object, as [if not passes] tests it. *)
Definition truthy (v : obj) : bool :=
  match v with
  | VNone => false
  | VBool b => b
  | VStr s => negb (String.eqb s "")
  | VList l | VTuple l => match l with [] => false | _ => true end
  | VDict d => match d with [] => false | _ => true end
  | VDate _ | VDatetime _ => true
  | _ => match number v with
         | Some x => negb (Num.eqb x (Num.of_int 0))
         | None => true
         end
  end.

End Py.

(** ** Formatting: [repr] and [str] *)

Module Fmt.

(** Number of decimal digits of a positive integer. *)
Definition ndigits (z : Z) : Z := Z.of_nat (String.length (Text.of_Z z)).

Definition pow10 (k : Z) : Q := Num.scale 10 1 k.

Definition floorQ (q : Q) : Z := Qnum q / Z.pos (Qden q).

(** The decimal point position [k] of a positive rational [x]:
    [10^(k-1) <= x < 10^k]. *)
Definition decpt_of (x : Q) : Z :=
  let k := if Qle_bool 1 x then ndigits (floorQ x)
           else 1 - ndigits (floorQ (Qinv x)) in
  if Qle_bool (pow10 k) x then k + 1 else k.

(** The candidates with [n] significant digits next to [x], and which of
    them convert back to [f]; the nearer one is preferred. *)
Definition candidate (f : spec_float) (x : Q) (k : Z) (n : Z) : option Z :=
  let scaled := Qmult x (pow10 (n - k)) in
  let lo := floorQ scaled in
  let hi := lo + 1 in
  let back c := Num.eqb (Num.of_float (Num.round (Qmult (c # 1) (pow10 (k - n)))))
                        (Num.of_float f) in
  let lo_ok := back lo in
  let hi_ok := back hi in
  match lo_ok, hi_ok with
  | false, false => None
  | true, false => Some lo
  | false, true => Some hi
  | true, true =>
      match Qcompare (Qmult (2 # 1) scaled) ((lo + hi) # 1) with
      | Lt => Some lo
      | Gt => Some hi
      | Eq => Some (if Z.even lo then lo else hi)
      end
  end.

Fixpoint shortest (f : spec_float) (x : Q) (k : Z) (n : Z) (fuel : nat) : Z * Z :=
  match fuel with
  | O => (floorQ (Qmult x (pow10 (n - k))), n)
  | S fuel' =>
      match candidate f x k n with
      | Some c => (c, n)
      | None => shortest f x k (n + 1) fuel'
      end
  end.

Fixpoint strip_zeros_rev (l : list ascii) : list ascii :=
  match l with
  | c :: rest => if Ascii.eqb c "0" then strip_zeros_rev rest else l
  | [] => []
  end.

Definition strip_trailing_zeros (s : string) : string :=
  match rev (strip_zeros_rev (rev (Text.chars s))) with
  | [] => "0"
  | l => Text.of_chars l
  end.

Definition take (n : Z) (s : string) : string := String.substring 0 (Z.to_nat n) s.
Definition drop (n : Z) (s : string) : string :=
  String.substring (Z.to_nat n) (String.length s - Z.to_nat n) s.

(** The digits and decimal point position of the shortest decimal that
    converts back to the positive float of exact value [x]. *)
Definition short_digits (f : spec_float) (x : Q) : string * Z :=
  let k := decpt_of x in
  let '(c, n) := shortest f x k 1 17 in
  let ds := Text.of_Z c in
  (strip_trailing_zeros ds, k - n + Z.of_nat (String.length ds)).

(** [repr(x)] for a float: shortest round-trip digits, exponent form when the
    decimal point falls outside [-4 < decpt <= 16]. *)
Definition float_repr (f : spec_float) : string :=
  match f with
  | S754_nan => "nan"
  | S754_infinity s => if s then "-inf" else "inf"
  | S754_zero s => if s then "-0.0" else "0.0"
  | S754_finite s m e =>
      let '(ds, decpt) := short_digits (S754_finite false m e) (Num.scale 2 (Zpos m) e) in
      let len := Z.of_nat (String.length ds) in
      let body :=
        if (decpt <=? -4) || (16 <? decpt) then
          let ex := decpt - 1 in
          take 1 ds ++ (if 1 <? len then "." ++ drop 1 ds else "")
          ++ "e" ++ (if ex <? 0 then "-" else "+") ++ Text.zfill 2 (Z.abs ex)
        else if decpt <=? 0 then
          "0." ++ Text.repeat0 (Z.to_nat (- decpt)) ++ ds
        else if len <=? decpt then
          ds ++ Text.repeat0 (Z.to_nat (decpt - len)) ++ ".0"
        else take decpt ds ++ "." ++ drop decpt ds in
      (if s then "-" else "") ++ body
  end.

(** [str(d)] for a finite [Decimal] (scientific string of the
    specification, capitals on). *)
Definition decimal_str (d : Num.decimal) : string :=
  let digits := Text.of_Z (Z.of_N (Num.dec_coeff d)) in
  let len := Z.of_nat (String.length digits) in
  let ex := Num.dec_exp d in
  let leftdigits := ex + len in
  let dotplace := if (ex <=? 0) && (-6 <? leftdigits) then leftdigits else 1 in
  let intpart :=
    if dotplace <=? 0 then "0"
    else if len <=? dotplace then digits ++ Text.repeat0 (Z.to_nat (dotplace - len))
    else take dotplace digits in
  let fracpart :=
    if dotplace <=? 0 then "." ++ Text.repeat0 (Z.to_nat (- dotplace)) ++ digits
    else if len <=? dotplace then ""
    else "." ++ drop dotplace digits in
  let expo :=
    if leftdigits =? dotplace then ""
    else let x := leftdigits - dotplace in
         "E" ++ (if x <? 0 then "-" else "+") ++ Text.of_Z (Z.abs x) in
  (if Num.dec_neg d then "-" else "") ++ intpart ++ fracpart ++ expo.

(** [repr(s)] for text: single quotes unless the text holds a single quote
    and no double quote; backslash escapes for the quote, the backslash and
    what is not printable. *)
Definition printable (c : ascii) : bool :=
  let n := Text.code c in
  ((32 <=? n) && (n <? 127)) || ((161 <=? n) && negb (n =? 173)).

Definition escape_char (quote : ascii) (c : ascii) : string :=
  let n := Text.code c in
  if Ascii.eqb c quote || Ascii.eqb c "\" then String "\" (String c "")
  else if n =? 9 then "\t"
  else if n =? 10 then "\n"
  else if n =? 13 then "\r"
  else if printable c then String c ""
  else "\x" ++ String (Text.hex_digit (n / 16)) (String (Text.hex_digit (n mod 16)) "").

Definition str_repr (s : string) : string :=
  let cs := Text.chars s in
  let has c := existsb (Ascii.eqb c) cs in
  let quote : ascii := if has "'"%char && negb (has "034"%char) then "034"%char else "'"%char in
  String quote (concat "" (map (escape_char quote) cs)) ++ String quote "".

Definition date_str (d : date) : string :=
  Text.zfill 4 (year d) ++ "-" ++ Text.zfill 2 (month d) ++ "-" ++ Text.zfill 2 (day d).

Definition date_repr (d : date) : string :=
  "datetime.date(" ++ Text.of_Z (year d) ++ ", " ++ Text.of_Z (month d)
  ++ ", " ++ Text.of_Z (day d) ++ ")".

Definition datetime_str (d : datetime) : string :=
  date_str (dt_date d) ++ " " ++ Text.zfill 2 (hour d) ++ ":" ++ Text.zfill 2 (minute d)
  ++ ":" ++ Text.zfill 2 (second d)
  ++ (if microsecond d =? 0 then "" else "." ++ Text.zfill 6 (microsecond d)).

Definition datetime_repr (d : datetime) : string :=
  let dd := dt_date d in
  "datetime.datetime(" ++ Text.of_Z (year dd) ++ ", " ++ Text.of_Z (month dd)
  ++ ", " ++ Text.of_Z (day dd) ++ ", " ++ Text.of_Z (hour d) ++ ", " ++ Text.of_Z (minute d)
  ++ (if (microsecond d =? 0) && (second d =? 0) then ""
      else ", " ++ Text.of_Z (second d)
           ++ (if microsecond d =? 0 then "" else ", " ++ Text.of_Z (microsecond d)))
  ++ ")".

(** [repr(v)] *)
Fixpoint repr (v : obj) : string :=
  match v with
  | VNone => "None"
  | VBool b => if b then "True" else "False"
  | VInt z => Text.of_Z z
  | VFloat f => float_repr f
  | VDecimal d => "Decimal('" ++ decimal_str d ++ "')"
  | VStr s => str_repr s
  | VList l => "[" ++ Text.join ", " (map repr l) ++ "]"
  | VTuple l =>
      match l with
      | [x] => "(" ++ repr x ++ ",)"
      | _ => "(" ++ Text.join ", " (map repr l) ++ ")"
      end
  | VDict d =>
      "{" ++ Text.join ", " (map (fun kv => str_repr (fst kv) ++ ": " ++ repr (snd kv)) d) ++ "}"
  | VDate d => date_repr d
  | VDatetime d => datetime_repr d
  end.

(** [str(v)], which is also what an f-string field [{v}] shows. *)
Definition str (v : obj) : string :=
  match v with
  | VStr s => s
  | VDecimal d => decimal_str d
  | VDate d => date_str d
  | VDatetime d => datetime_str d
  | _ => repr v
  end.

End Fmt.

(** ** [float(text)] *)

Module FloatText.

(** Whitespace that [float] strips from both ends. *)
Definition is_space (c : ascii) : bool :=
  let n := Text.code c in
  ((9 <=? n) && (n <=? 13)) || (n =? 32) || (n =? 133) || (n =? 160).

Fixpoint lstrip (l : list ascii) : list ascii :=
  match l with
  | c :: rest => if is_space c then lstrip rest else l
  | [] => []
  end.

Definition strip (l : list ascii) : list ascii := rev (lstrip (rev (lstrip l))).

(** Underscores may only sit between two digits; they are dropped. *)
Fixpoint drop_underscores (prev_digit : bool) (l : list ascii) : option (list ascii) :=
  match l with
  | [] => Some []
  | c :: rest =>
      if Ascii.eqb c "_" then
        match rest with
        | d :: _ => if prev_digit && Text.is_digit d then drop_underscores false rest else None
        | [] => None
        end
      else option_map (cons c) (drop_underscores (Text.is_digit c) rest)
  end.

Definition lower (c : ascii) : ascii :=
  let n := Text.code c in
  if (65 <=? n) && (n <=? 90) then ascii_of_nat (Z.to_nat (n + 32)) else c.

Fixpoint span_digits (l : list ascii) : list ascii * list ascii :=
  match l with
  | c :: rest =>
      if Text.is_digit c then let '(ds, r) := span_digits rest in (c :: ds, r) else ([], l)
  | [] => ([], [])
  end.

Definition split_sign (l : list ascii) : bool * list ascii :=
  match l with
  | c :: rest => if Ascii.eqb c "-" then (true, rest)
                 else if Ascii.eqb c "+" then (false, rest) else (false, l)
  | [] => (false, [])
  end.

(** The exponent part: empty, or [e] / [E], an optional sign and digits. *)
Definition exponent (l : list ascii) : option Z :=
  match l with
  | [] => Some 0
  | c :: rest =>
      if Ascii.eqb (lower c) "e" then
        let '(neg, r) := split_sign rest in
        let '(ds, r') := span_digits r in
        match ds, r' with
        | _ :: _, [] => Some (if neg then - Text.digits_val ds else Text.digits_val ds)
        | _, _ => None
        end
      else None
  end.

(** A decimal literal without its sign: digits, an optional point and
    digits, an optional exponent; at least one digit in the mantissa. *)
Definition magnitude (l : list ascii) : option Q :=
  let '(ip, r) := span_digits l in
  let '(fp, r') :=
    match r with
    | c :: rest => if Ascii.eqb c "." then span_digits rest else ([], r)
    | [] => ([], [])
    end in
  match (ip ++ fp)%list with
  | [] => None
  | ds =>
      match exponent r' with
      | Some x => Some (Num.scale 10 (Text.digits_val ds) (x - Z.of_nat (List.length fp)))
      | None => None
      end
  end.

(** [float(s)]: [None] stands for [ValueError]. *)
Definition parse (s : string) : option spec_float :=
  let '(neg, body) := split_sign (strip (Text.chars s)) in
  let word := Text.of_chars (map lower body) in
  if String.eqb word "inf" || String.eqb word "infinity" then Some (S754_infinity neg)
  else if String.eqb word "nan" then Some S754_nan
  else
    match drop_underscores false body with
    | None => None
    | Some l =>
        match magnitude l with
        | None => None
        | Some q =>
            Some (match Qnum q with
                  | Zpos n => Num.round_pos neg n (Qden q)
                  | _ => S754_zero neg
                  end)
        end
    end.

End FloatText.

(** ** Regular expressions, as far as the engine's own patterns need them *)

Module Re.

Inductive re :=
| Void
| Eps
| Digit                       (* \d *)
| Chr (c : ascii)
| Seq (a b : re)
| Alt (a b : re)
| Star (a : re).

Definition Plus (a : re) : re := Seq a (Star a).
Definition Opt (a : re) : re := Alt a Eps.

Fixpoint Rep (n : nat) (a : re) : re :=
  match n with O => Eps | S k => Seq a (Rep k a) end.

Fixpoint nullable (r : re) : bool :=
  match r with
  | Void | Digit | Chr _ => false
  | Eps | Star _ => true
  | Seq a b => nullable a && nullable b
  | Alt a b => nullable a || nullable b
  end.

Fixpoint deriv (c : ascii) (r : re) : re :=
  match r with
  | Void | Eps => Void
  | Digit => if Text.is_digit c then Eps else Void
  | Chr d => if Ascii.eqb c d then Eps else Void
  | Seq a b => if nullable a then Alt (Seq (deriv c a) b) (deriv c b)
               else Seq (deriv c a) b
  | Alt a b => Alt (deriv c a) (deriv c b)
  | Star a => Seq (deriv c a) (Star a)
  end.

Definition full (r : re) (l : list ascii) : bool := nullable (fold_left (fun r c => deriv c r) l r).

(** [re.compile('^' r '$').match(s) is not None]: the whole text matches, a
    single final newline apart, which [$] lets through. *)
Definition matches (r : re) (s : string) : bool :=
  let l := Text.chars s in
  full r l ||
  match rev l with
  | c :: before => Ascii.eqb c "010" && full r (rev before)
  | [] => false
  end.

End Re.

(** ** [datetime.datetime.strptime] for the formats the engine uses *)

Module Strptime.

Inductive item :=
| Lit (c : ascii)
| Y | m | d | H | M | S | f.

Record fields := Fields { fY : Z; fm : Z; fd : Z; fH : Z; fM : Z; fS : Z; ff : Z }.

Definition no_fields : fields := Fields 1900 1 1 0 0 0 0.

Definition dig (c : ascii) (lo hi : Z) : bool :=
  Text.is_digit c && (lo <=? Text.digit_val c) && (Text.digit_val c <=? hi).

Definition two (a b : ascii) : Z := 10 * Text.digit_val a + Text.digit_val b.

(** Each directive consumes what its regular expression group matches, the
    alternatives in their order.  In the formats below a directive is
    followed by a literal that is no digit or by the end of the format, so
    no later part can make the matcher come back on the choice. *)
Definition directive (i : item) (l : list ascii) (acc : fields)
  : option (fields * list ascii) :=
  let upd (k : Z -> fields) (r : option (Z * list ascii)) :=
    match r with Some (v, rest) => Some (k v, rest) | None => None end in
  let num2 (first : list (Z * Z * Z * Z)) (single : option (Z * Z)) :=
    (* two-character alternatives [a-b][c-d] in order, then one digit *)
    let fix attempt (alts : list (Z * Z * Z * Z)) :=
      match alts with
      | (a, b, c, e) :: more =>
          match l with
          | x :: y :: rest => if dig x a b && dig y c e then Some (two x y, rest) else attempt more
          | _ => attempt more
          end
      | [] =>
          match single, l with
          | Some (a, b), x :: rest => if dig x a b then Some (Text.digit_val x, rest) else None
          | _, _ => None
          end
      end in
    attempt first in
  match i with
  | Lit c =>
      match l with
      | x :: rest => if Ascii.eqb (FloatText.lower x) (FloatText.lower c)
                     then Some (acc, rest) else None
      | [] => None
      end
  | Y =>
      match l with
      | a :: b :: c :: e :: rest =>
          if Text.all_digits [a; b; c; e]
          then Some (Fields (Text.digits_val [a; b; c; e]) (fm acc) (fd acc) (fH acc)
                            (fM acc) (fS acc) (ff acc), rest)
          else None
      | _ => None
      end
  | m => upd (fun v => Fields (fY acc) v (fd acc) (fH acc) (fM acc) (fS acc) (ff acc))
             (num2 [(1, 1, 0, 2); (0, 0, 1, 9)] (Some (1, 9)))
  | d =>
      match num2 [(3, 3, 0, 1); (1, 2, 0, 9); (0, 0, 1, 9)] (Some (1, 9)) with
      | Some (v, rest) =>
          Some (Fields (fY acc) (fm acc) v (fH acc) (fM acc) (fS acc) (ff acc), rest)
      | None =>
          match l with
          | x :: y :: rest =>
              if Ascii.eqb x " " && dig y 1 9
              then Some (Fields (fY acc) (fm acc) (Text.digit_val y) (fH acc) (fM acc)
                                (fS acc) (ff acc), rest)
              else None
          | _ => None
          end
      end
  | H => upd (fun v => Fields (fY acc) (fm acc) (fd acc) v (fM acc) (fS acc) (ff acc))
             (num2 [(2, 2, 0, 3); (0, 1, 0, 9)] (Some (0, 9)))
  | M => upd (fun v => Fields (fY acc) (fm acc) (fd acc) (fH acc) v (fS acc) (ff acc))
             (num2 [(0, 5, 0, 9)] (Some (0, 9)))
  | S => upd (fun v => Fields (fY acc) (fm acc) (fd acc) (fH acc) (fM acc) v (ff acc))
             (num2 [(6, 6, 0, 1); (0, 5, 0, 9)] (Some (0, 9)))
  | f =>
      let '(ds, rest) := FloatText.span_digits l in
      let taken := firstn 6 ds in
      match taken with
      | [] => None
      | _ =>
          let pad := repeat "0"%char (6 - List.length taken) in
          Some (Fields (fY acc) (fm acc) (fd acc) (fH acc) (fM acc) (fS acc)
                       (Text.digits_val (taken ++ pad)%list),
                (skipn 6 ds ++ rest)%list)
      end
  end.

Fixpoint run (fmt : list item) (l : list ascii) (acc : fields) : option fields :=
  match fmt with
  | [] => match l with [] => Some acc | _ => None end   (* unconverted data remains *)
  | i :: more =>
      match directive i l acc with
      | Some (acc', rest) => run more rest acc'
      | None => None
      end
  end.

Definition is_leap (y : Z) : bool :=
  (y mod 4 =? 0) && (negb (y mod 100 =? 0) || (y mod 400 =? 0)).

Definition days_in_month (y mth : Z) : Z :=
  if mth =? 2 then (if is_leap y then 29 else 28)
  else if (mth =? 4) || (mth =? 6) || (mth =? 9) || (mth =? 11) then 30 else 31.

(** The constructor [datetime(...)] rejects what is out of range. *)
Definition build (x : fields) : option datetime :=
  if (1 <=? fY x) && (fY x <=? 9999) && (1 <=? fm x) && (fm x <=? 12)
     && (1 <=? fd x) && (fd x <=? days_in_month (fY x) (fm x))
     && (fH x <=? 23) && (fM x <=? 59) && (fS x <=? 59)
  then Some (Datetime_ (Date_ (fY x) (fm x) (fd x)) (fH x) (fM x) (fS x) (ff x))
  else None.

(** [strptime(s, fmt)]: [None] stands for [ValueError]. *)
Definition strptime (s : string) (fmt : list item) : option datetime :=
  match run fmt (Text.chars s) no_fields with
  | Some x => build x
  | None => None
  end.

End Strptime.

(** ** Raising and catching *)

Module Error.

Record ValidationError := mkValidationError {
  value : obj;
  message : obj;
  trace : string
}.

End Error.
Export Error.

Inductive result (A : Type) :=
| Ok (a : A)
| Invalid (e : ValidationError)
| Raise (x : Py.exn).

Arguments Ok {A} a.
Arguments Invalid {A} e.
Arguments Raise {A} x.

Definition bind {A B : Type} (c : result A) (k : A -> result B) : result B :=
  match c with
  | Ok a => k a
  | Invalid e => Invalid e
  | Raise x => Raise x
  end.

Notation "x <- c ;; k" := (bind c (fun x => k))
  (at level 61, c at next level, right associativity).
Notation "c ;;; k" := (bind c (fun _ => k))
  (at level 61, right associativity).

(** [try: c  except ValidationError as e: handler(e)] *)
Definition except_ValidationError {A : Type} (c : result A)
  (handler : ValidationError -> result A) : result A :=
  match c with
  | Invalid e => handler e
  | r => r
  end.

(** [e.trace = f(e.trace)] *)
Definition retrace (f : string -> string) (e : ValidationError) : ValidationError :=
  mkValidationError (value e) (message e) (f (trace e)).

(** [except ValidationError as e: e.trace = f'{current_trace}{e.trace}'; raise e] *)
Definition prefixed {A : Type} (current_trace : string) (c : result A) : result A :=
  except_ValidationError c (fun e => Invalid (retrace (append current_trace) e)).

Definition is_ok {A : Type} (c : result A) : bool :=
  match c with Ok _ => true | _ => false end.

(** ** The loops of the walkers

    Each loop takes the body of the source's loop as a function, which keeps
    the recursive walkers below structural in the schema. *)

Section Loops.

Context {S A : Type}.

(** [for i, e in enumerate(variant): body(i, e)], collecting what the body
    returns; the first raise ends the loop. *)
Fixpoint for_enumerate (body : nat -> obj -> result A) (i : nat) (variant : list obj)
  : result (list A) :=
  match variant with
  | [] => Ok []
  | e :: rest =>
      a <- body i e ;;
      r <- for_enumerate body (Datatypes.S i) rest ;;
      Ok (a :: r)
  end.

(** [if k in schema: body(schema[k])] *)
Fixpoint at_key (body : S -> result unit) (k : string) (schema : list (string * S))
  : result unit :=
  match schema with
  | [] => Ok tt
  | (k', sub) :: rest => if String.eqb k k' then body sub else at_key body k rest
  end.

(** [for k, v in variant.items(): body(k, v)] *)
Fixpoint for_items (body : string -> obj -> result unit) (variant : list (string * obj))
  : result unit :=
  match variant with
  | [] => Ok tt
  | (k, v) :: rest => body k v ;;; for_items body rest
  end.

(** [for i, subschema in enumerate(schema): body(i, variant[i], subschema)];
    [variant[i]] raises [IndexError] past the end. *)
Fixpoint for_schema_slots (body : nat -> obj -> S -> result unit) (i : nat)
  (schema : list S) (variant : list obj) : result unit :=
  match schema with
  | [] => Ok tt
  | sub :: rest =>
      match variant with
      | [] => Raise Py.IndexError
      | e :: more => body i e sub ;;; for_schema_slots body (Datatypes.S i) rest more
      end
  end.

(** [tuple(body(i, e, schema[i]) for i, e in enumerate(variant))];
    [schema[i]] raises [IndexError] past the end. *)
Fixpoint for_variant_slots (body : nat -> obj -> S -> result A) (i : nat)
  (schema : list S) (variant : list obj) {struct schema} : result (list A) :=
  match variant with
  | [] => Ok []
  | e :: more =>
      match schema with
      | [] => Raise Py.IndexError
      | sub :: rest =>
          a <- body i e sub ;;
          r <- for_variant_slots body (Datatypes.S i) rest more ;;
          Ok (a :: r)
      end
  end.

(** [{k: body(k, subschema) for k, subschema in schema.items()}] *)
Fixpoint for_fields (body : string -> S -> result A) (schema : list (string * S))
  : result (list (string * A)) :=
  match schema with
  | [] => Ok []
  | (k, sub) :: rest =>
      a <- body k sub ;;
      r <- for_fields body rest ;;
      Ok ((k, a) :: r)
  end.

(** The loop of [Any.parse]: the first alternative that does not raise a
    [ValidationError] ends it; the errors of the others are kept in order. *)
Fixpoint first_of (attempt : S -> result A) (otherwise : list ValidationError -> result A)
  (errors : list ValidationError) (types : list S) : result A :=
  match types with
  | [] => otherwise errors
  | t :: rest =>
      except_ValidationError (attempt t)
        (fun e => first_of attempt otherwise (errors ++ [e])%list rest)
  end.

End Loops.

(** ** The engine *)

Module jsonschema.

Definition TRACE_SEP : string := " --> ".

(** The double quote character, as text. *)
Definition dquote : string := String.String "034" "".

(** The trace segments of the walkers, separator included:
    [Object(key:{repr(k)}){TRACE_SEP}] and the like. *)
Definition Object_key (k : string) : string :=
  "Object(key:" ++ Fmt.str_repr k ++ ")" ++ TRACE_SEP.

Definition List_index (i : nat) : string :=
  "List(index:" ++ Text.of_nat i ++ ")" ++ TRACE_SEP.

Definition Tuple_index (i : nat) : string :=
  "Tuple(index:" ++ Text.of_nat i ++ ")" ++ TRACE_SEP.

#[global] Arguments Object_key : simpl never.
#[global] Arguments List_index : simpl never.
#[global] Arguments Tuple_index : simpl never.

(** What a condition predicate does on the parsed value: it returns an
    object, or raises an exception with the given [args]. *)
Inductive outcome :=
| Returns (passes : obj)
| Raises (args : list obj).

Definition predicate : Type := obj -> outcome.

(** A schema is an instance of a class deriving from [Type], a dict, a list
    or a tuple of schemas; [SOther] is any other object.  The classes are the
    constructors of [Type_], with the attributes their [__init__] sets. *)
#[warnings="-register-all"]
Inductive schema :=
| SType (t : Type_)
| SDict (fields : list (string * schema))
| SList (items : list schema)
| STuple (items : list schema)
| SOther
with Type_ :=
| Variant (condition : predicate)
| String (strict : bool) (condition : predicate)
| RegexString (regex : string) (match_ : string -> bool) (condition : predicate)
| Number (min max : obj) (strict : bool) (condition : predicate)
| Null
| Date (condition : predicate)
| Datetime (condition : predicate)
| Boolean (strict : bool)
| Optional (othertype : schema)
| Any (first : schema) (others : list schema)
| Constant (constant : obj).

(** [Type.__init__]: [condition if condition is not None else (lambda x: True)] *)
Definition init_condition (condition : option predicate) : predicate :=
  match condition with
  | Some c => c
  | None => fun _ => Returns (VBool true)
  end.

(** The classes, and the parameters of each class's [__init__] besides
    [self]: all of them can be passed by keyword; [othertype], [first] and
    [constant] have no default. *)
Inductive class :=
| CType | CString | CRegexString | CNumber | CNull | CDate | CDatetime
| CBoolean | COptional | CAny | CConstant.

Definition init_params (c : class) : list string :=
  match c with
  | CType => ["condition"]
  | CString => ["strict"; "condition"]
  | CRegexString => ["regex"; "condition"]
  | CNumber => ["min"; "max"; "strict"; "condition"]
  | CNull => []
  | CDate => ["condition"]
  | CDatetime => ["condition"]
  | CBoolean => ["strict"]
  | COptional => ["othertype"]
  | CAny => ["first"]
  | CConstant => ["constant"]
  end.

Definition required_params (c : class) : list string :=
  match c with
  | COptional => ["othertype"]
  | CAny => ["first"]
  | CConstant => ["constant"]
  | _ => []
  end.

(** Binding the keywords of a call [C(k1=..., k2=...)] to the parameters of
    [C.__init__]: a keyword that is no parameter, or a parameter without
    default that is not given, is a [TypeError]. *)
Definition bind_keywords (c : class) (keywords : list string) : result unit :=
  if forallb (fun k => existsb (String.eqb k) (init_params c)) keywords
     && forallb (fun p => existsb (String.eqb p) keywords) (required_params c)
  then Ok tt else Raise Py.TypeError.

Definition class_of (t : Type_) : class :=
  match t with
  | Variant _ => CType
  | String _ _ => CString
  | RegexString _ _ _ => CRegexString
  | Number _ _ _ _ => CNumber
  | Null => CNull
  | Date _ => CDate
  | Datetime _ => CDatetime
  | Boolean _ => CBoolean
  | Optional _ => COptional
  | Any _ _ => CAny
  | Constant _ => CConstant
  end.

(** [type(self).__name__] *)
Definition class_name (c : class) : string :=
  match c with
  | CType => "Type"
  | CString => "String"
  | CRegexString => "RegexString"
  | CNumber => "Number"
  | CNull => "Null"
  | CDate => "Date"
  | CDatetime => "Datetime"
  | CBoolean => "Boolean"
  | COptional => "Optional"
  | CAny => "Any"
  | CConstant => "Constant"
  end.

(** [getattr(self, 'condition', None)]: only [Type.__init__] sets the
    attribute, and [Null], [Boolean], [Optional], [Any] and [Constant] do not
    call it. *)
Definition getattr_condition (t : Type_) : option predicate :=
  match t with
  | Variant c | String _ c | RegexString _ _ c | Number _ _ _ c | Date c | Datetime c => Some c
  | Null | Boolean _ | Optional _ | Any _ _ | Constant _ => None
  end.

(** [Type.invalid] *)
Definition invalid (self : Type_) (value : obj) (message : obj) : ValidationError :=
  mkValidationError value message (class_name (class_of self)).

(** [Optional.invalid] *)
Definition Optional_invalid (value message : obj) (error : string) : ValidationError :=
  mkValidationError value message ("Optional(" ++ error ++ ")").

(** [Any.invalid] *)
Definition Any_invalid (value : obj) (message : obj) (errors : list ValidationError)
  : ValidationError :=
  let traces := Text.join ", " (map trace errors) in
  mkValidationError value message ("Any(" ++ traces ++ ")").

(** [Constant.invalid] *)
Definition Constant_invalid (constant value : obj) (message : obj) : ValidationError :=
  mkValidationError value message ("Constant(" ++ Fmt.repr constant ++ ")").

(** *** Patterns *)

(** [Number.match]: [^\d+(\.\d+)?$] *)
Definition Number_match : string -> bool :=
  Re.matches (Re.Seq (Re.Plus Re.Digit) (Re.Opt (Re.Seq (Re.Chr ".") (Re.Plus Re.Digit)))).

Definition Date_pattern : string := "^\d{4}-\d{2}-\d{2}$".

Definition Date_match : string -> bool :=
  Re.matches (Re.Seq (Re.Rep 4 Re.Digit) (Re.Seq (Re.Chr "-") (Re.Seq (Re.Rep 2 Re.Digit)
             (Re.Seq (Re.Chr "-") (Re.Rep 2 Re.Digit))))).

Definition Datetime_pattern : string := "^\d{4}-\d{2}-\d{2}T\d{2}:\d{2}:\d{2}(\.\d*)?Z?$".

Definition Datetime_match : string -> bool :=
  Re.matches
    (Re.Seq (Re.Rep 4 Re.Digit) (Re.Seq (Re.Chr "-") (Re.Seq (Re.Rep 2 Re.Digit)
    (Re.Seq (Re.Chr "-") (Re.Seq (Re.Rep 2 Re.Digit) (Re.Seq (Re.Chr "T")
    (Re.Seq (Re.Rep 2 Re.Digit) (Re.Seq (Re.Chr ":") (Re.Seq (Re.Rep 2 Re.Digit)
    (Re.Seq (Re.Chr ":") (Re.Seq (Re.Rep 2 Re.Digit)
    (Re.Seq (Re.Opt (Re.Seq (Re.Chr ".") (Re.Star Re.Digit)))
            (Re.Opt (Re.Chr "Z")))))))))))))).

(** *** [validate] of the classes that do not recurse *)

Definition String_validate (self : Type_) (strict : bool) (value : obj) : result unit :=
  if strict && negb (match value with VStr _ => true | _ => false end)
  then Invalid (invalid self value (VStr "is not a string"))
  else Ok tt.

(** [self.match(value)] raises on what is not text, which the handler turns
    into the same error as a failed match. *)
Definition RegexString_validate (self : Type_) (regex : string) (match_ : string -> bool)
  (value : obj) : result unit :=
  match value with
  | VStr s =>
      if match_ s then Ok tt
      else Invalid (invalid self value (VStr ("doesn't match pattern " ++ regex)))
  | _ => Invalid (invalid self value (VStr ("doesn't match pattern " ++ regex)))
  end.

Definition Number_validate (self : Type_) (strict : bool) (value : obj) : result unit :=
  match value with
  | VBool _ | VInt _ | VFloat _ | VDecimal _ => Ok tt
  | _ =>
      if strict then Invalid (invalid self value (VStr "is not a number"))
      else
        match value with
        | VStr s =>
            if Number_match s then Ok tt
            else Invalid (invalid self value (VStr "is not a validly formatted number"))
        | _ => Invalid (invalid self value (VStr "is not a number"))
        end
  end.

Definition Null_validate (self : Type_) (value : obj) : result unit :=
  match value with
  | VNone => Ok tt
  | _ => Invalid (invalid self value (VStr "is not null"))
  end.

Definition admissible_true : list obj :=
  [VStr "yes"; VStr "True"; VStr "true"; VStr "t"; VStr "1"; VInt 1].

Definition admissible_false : list obj :=
  [VStr "no"; VStr "False"; VStr "false"; VStr "f"; VStr "0"; VInt 0; VNone].

(** [value is True or value is False] *)
Definition is_literal_bool (value : obj) : bool :=
  match value with VBool _ => true | _ => false end.

Definition Boolean_validate (self : Type_) (strict : bool) (value : obj) : result unit :=
  if is_literal_bool value then Ok tt
  else if strict then Invalid (invalid self value (VStr "is not boolean"))
  else if negb (Py.contains admissible_true value) && negb (Py.contains admissible_false value)
  then Invalid (invalid self value (VStr "can't be interpreted as boolean"))
  else Ok tt.

Definition Constant_validate (constant : obj) (value : obj) : result unit :=
  if negb (Py.eq value constant)
  then Invalid (Constant_invalid constant value
                  (VStr ("is not equals to " ++ Fmt.repr constant)))
  else Ok tt.

(** *** [parse] of the classes that do not recurse *)

Definition String_parse (value : obj) : result obj := Ok (VStr (Fmt.str value)).

(** [float(value)] *)
Definition float (value : obj) : result spec_float :=
  match value with
  | VBool _ | VInt _ =>
      match Num.float_of_int (Py.int_value value) with
      | Some x => Ok x
      | None => Raise Py.OverflowError
      end
  | VFloat x => Ok x
  | VStr s =>
      match FloatText.parse s with
      | Some x => Ok x
      | None => Raise Py.ValueError
      end
  | _ => Raise Py.TypeError
  end.

Definition Number_parse (value : obj) : result obj :=
  match value with
  | VDecimal _ => Ok value
  | _ =>
      parsed <- float value ;;
      Ok (if negb (Num.is_integer parsed) then VFloat parsed
          else VInt (Num.int_of_float parsed))
  end.

Definition Date_format : list Strptime.item :=
  [Strptime.Y; Strptime.Lit "-"; Strptime.m; Strptime.Lit "-"; Strptime.d].

Definition Date_parse (self : Type_) (value : obj) : result obj :=
  match value with
  | VStr s =>
      match Strptime.strptime s Date_format with
      | Some parsed => Ok (VDate (dt_date parsed))
      | None => Invalid (invalid self value (VStr "is an invalid date"))
      end
  | _ => Raise Py.TypeError
  end.

Definition Datetime_patterns : list (list Strptime.item) :=
  let seconds :=
    [Strptime.Y; Strptime.Lit "-"; Strptime.m; Strptime.Lit "-"; Strptime.d;
     Strptime.Lit "T"; Strptime.H; Strptime.Lit ":"; Strptime.M; Strptime.Lit ":";
     Strptime.S] in
  [ seconds;
    (seconds ++ [Strptime.Lit "."; Strptime.f])%list;
    (seconds ++ [Strptime.Lit "."; Strptime.f; Strptime.Lit "Z"])%list ].

(** [_attempt_parse] *)
Definition _attempt_parse (value : string) (p : list Strptime.item) : option datetime :=
  Strptime.strptime value p.

Definition Datetime_parse (self : Type_) (value : obj) : result obj :=
  match value with
  | VStr s =>
      match find (fun parsed => match parsed with Some _ => true | None => false end)
                 (map (_attempt_parse s) Datetime_patterns) with
      | Some (Some parsed) => Ok (VDatetime parsed)
      | _ => Invalid (invalid self value (VStr "is an invalid datetime"))
      end
  | _ => Raise Py.TypeError
  end.

Definition Boolean_parse (value : obj) : result obj :=
  if is_literal_bool value then Ok value
  else if Py.contains admissible_false value then Ok (VBool false)
  else Ok (VBool true).

(** [for k in schema: if k not in variant and not isinstance(schema[k], Optional)]:
    the first key that makes the test true. *)
Definition is_Optional (s : schema) : bool :=
  match s with SType (Optional _) => true | _ => false end.

Definition missing_key (schema : list (string * schema)) (variant : list (string * obj))
  : option string :=
  find (fun k => negb (Py.has_key k variant)
                 && negb (match Py.lookup k schema with
                          | Some sub => is_Optional sub
                          | None => false
                          end))
       (map fst schema).

(** [isinstance(variant, (list, tuple))], with the elements *)
Definition list_or_tuple (variant : obj) : option (list obj) :=
  match variant with
  | VList l | VTuple l => Some l
  | _ => None
  end.

(** *** The validate pass *)

Fixpoint _validate (variant : obj) (schema : schema) (current_trace : string)
  {struct schema} : result unit :=
  match schema with
  | SType t => prefixed current_trace (validate t variant)
  | SDict fields =>
      match variant with
      | VDict entries =>
          match missing_key fields entries with
          | Some k =>
              Invalid (mkValidationError variant
                         (VStr ("doesn't have key " ++ dquote ++ k ++ dquote))
                         (current_trace ++ "Object"))
          | None =>
              for_items
                (fun k v =>
                   at_key (fun sub =>
                             _validate v sub
                               (current_trace ++ Object_key k))
                          k fields)
                entries
          end
      | _ => Invalid (mkValidationError variant (VStr "is not an object")
                        (current_trace ++ "Object"))
      end
  | SList items =>
      if (1 <? List.length items)%nat then Raise Py.TypeError
      else
        match list_or_tuple variant with
        | None => Invalid (mkValidationError variant (VStr "is not a list or tuple")
                             (current_trace ++ "List"))
        | Some elements =>
            match items with
            | [] => Ok tt
            | sub :: _ =>
                for_enumerate
                  (fun i e =>
                     _validate e sub
                       (current_trace ++ List_index i))
                  0%nat elements ;;;
                Ok tt
            end
        end
  | STuple items =>
      match list_or_tuple variant with
      | None => Invalid (mkValidationError variant (VStr "is not a list or tuple")
                           (current_trace ++ "Tuple"))
      | Some elements =>
          if negb (List.length items =? List.length elements)%nat then
            let which := if (List.length elements <? List.length items)%nat
                         then "few" else "many" in
            Invalid (mkValidationError variant
                       (VStr ("has too " ++ which ++ " elements (it requires "
                              ++ Text.of_nat (List.length items) ++ ")"))
                       (current_trace ++ "Tuple"))
          else
            for_schema_slots
              (fun i e sub =>
                 _validate e sub
                   (current_trace ++ Tuple_index i))
              0%nat items elements
      end
  | SOther => Raise Py.TypeError
  end

with validate (self : Type_) (value : obj) {struct self} : result unit :=
  match self with
  | Variant _ => Ok tt
  | String strict _ => String_validate self strict value
  | RegexString regex match_ _ => RegexString_validate self regex match_ value
  | Number _ _ strict _ => Number_validate self strict value
  | Null => Null_validate self value
  | Date _ => RegexString_validate self Date_pattern Date_match value
  | Datetime _ => RegexString_validate self Datetime_pattern Datetime_match value
  | Boolean strict => Boolean_validate self strict value
  | Optional othertype =>
      match value with
      | VNone => Ok tt
      | _ =>
          except_ValidationError (_validate value othertype "")
            (fun e => Invalid (Optional_invalid (Error.value e) (message e) (trace e)))
      end
  | Any _ _ => Ok tt
  | Constant constant => Constant_validate constant value
  end.

(** *** The parse pass *)

(** [enumerate(variant)] iterates over the elements of a list or tuple, the
    characters of a text, the keys of a dict; other objects are not
    iterable. *)
Definition enumerate (variant : obj) : result (list obj) :=
  match variant with
  | VList l | VTuple l => Ok l
  | VStr s => Ok (map (fun c => VStr (String.String c "")) (Text.chars s))
  | VDict d => Ok (map (fun kv => VStr (fst kv)) d)
  | _ => Raise Py.TypeError
  end.

(** [variant.get(k)]: only a dict has the method. *)
Definition get (variant : obj) (k : string) : result obj :=
  match variant with
  | VDict d => Ok (match Py.lookup k d with Some v => v | None => VNone end)
  | _ => Raise Py.AttributeError
  end.

Definition criterion : obj := VStr "doesn't meet the validation criterion".

(** [Type.get_parsed_value], given what [self.parse(value)] did. *)
Definition Type_get_parsed_value (self : Type_) (value : obj) (parse_ : result obj)
  : result obj :=
  parsed <- parse_ ;;
  match getattr_condition self with
  | Some condition =>
      match condition parsed with
      | Raises args =>
          Invalid (invalid self value (match args with a :: _ => a | [] => criterion end))
      | Returns passes =>
          if negb (Py.truthy passes) then Invalid (invalid self value criterion)
          else Ok parsed
      end
  | None => Ok parsed
  end.

(** [Number.get_parsed_value], given what [self.parse(value)] did. *)
Definition Number_get_parsed_value (self : Type_) (min max : obj) (value : obj)
  (parse_ : result obj) : result obj :=
  parsed <- Type_get_parsed_value self value parse_ ;;
  below <- match min with
           | VNone => Ok false
           | _ => match Py.lt parsed min with
                  | inr b => Ok b
                  | inl e => Raise e
                  end
           end ;;
  if below : bool
  then Invalid (invalid self value (VStr ("is less than the minimum: " ++ Fmt.str min)))
  else
    above <- match max with
             | VNone => Ok false
             | _ => match Py.gt parsed max with
                    | inr b => Ok b
                    | inl e => Raise e
                    end
             end ;;
    if above : bool
    then Invalid (invalid self value (VStr ("is greater than the maximum: " ++ Fmt.str max)))
    else Ok parsed.

(** The method [get_parsed_value] that [self] has, applied to what
    [self.parse(value)] did: only [Number] overrides it. *)
Definition get_parsed_value_after (self : Type_) (value : obj) (parse_ : result obj)
  : result obj :=
  match self with
  | Number min max _ _ => Number_get_parsed_value self min max value parse_
  | _ => Type_get_parsed_value self value parse_
  end.

Fixpoint _parse (variant : obj) (schema : schema) (current_trace : string)
  {struct schema} : result obj :=
  match schema with
  | SType t => prefixed current_trace (get_parsed_value_after t variant (parse t variant))
  | SDict fields =>
      d <- for_fields
             (fun k subschema =>
                v <- get variant k ;;
                _parse v subschema
                  (current_trace ++ Object_key k))
             fields ;;
      Ok (VDict d)
  | SList items =>
      match items with
      | [] => Ok (VList [])
      | sub :: _ =>
          elements <- enumerate variant ;;
          l <- for_enumerate
                 (fun i e =>
                    _parse e sub
                      (current_trace ++ List_index i))
                 0%nat elements ;;
          Ok (VList l)
      end
  | STuple items =>
      elements <- enumerate variant ;;
      l <- for_variant_slots
             (fun i e sub =>
                _parse e sub
                  (current_trace ++ Tuple_index i))
             0%nat items elements ;;
      Ok (VTuple l)
  | SOther => Raise Py.TypeError
  end

with parse (self : Type_) (value : obj) {struct self} : result obj :=
  match self with
  | Variant _ => Ok value
  | String _ _ => String_parse value
  | RegexString _ _ _ => Ok value
  | Number _ _ _ _ => Number_parse value
  | Null => Ok value
  | Date _ => Date_parse self value
  | Datetime _ => Datetime_parse self value
  | Boolean _ => Boolean_parse value
  | Optional othertype =>
      match value with
      | VNone => Ok VNone
      | _ =>
          except_ValidationError (_parse value othertype "")
            (fun e => Invalid (Optional_invalid (Error.value e) (message e) (trace e)))
      end
  | Any first others =>
      (* the loop over [self.types = (first,) + others], its first round
         written out *)
      let attempt t := _validate value t "" ;;; _parse value t "" in
      let otherwise errors :=
        Invalid (Any_invalid value (VStr "doesn't meet any allowed criterion") errors) in
      except_ValidationError (attempt first)
        (fun e => first_of attempt otherwise [e] others)
  | Constant _ => Ok value
  end.

(** [self.get_parsed_value(value)] *)
Definition get_parsed_value (self : Type_) (value : obj) : result obj :=
  get_parsed_value_after self value (parse self value).

(** [clean(schema)] is the function [cleaner]. *)
Definition clean (schema : schema) : obj -> result obj :=
  fun variant =>
    _validate variant schema "" ;;;
    _parse variant schema "".

End jsonschema.

(** ** Notions the specification uses *)

Module Spec.

Import jsonschema.

(** A Python dict holds each key once: the same is asked of every mapping
    of a schema. *)
Fixpoint unique_keys (keys : list string) : bool :=
  match keys with
  | [] => true
  | k :: rest => negb (existsb (String.eqb k) rest) && unique_keys rest
  end.

Fixpoint well_formed (s : schema) : bool :=
  match s with
  | SType t => well_formed_type t
  | SDict fields =>
      unique_keys (map fst fields)
      && forallb (fun kv => well_formed (snd kv)) fields
  | SList items => forallb well_formed items
  | STuple items => forallb well_formed items
  | SOther => true
  end
with well_formed_type (t : Type_) : bool :=
  match t with
  | Optional othertype => well_formed othertype
  | Any first others => well_formed first && forallb well_formed others
  | _ => true
  end.

(** Slot by slot, and field by field with the same keys in the same
    order. *)
Section Zip.

Context {S : Type}.




End Zip.




(** What a failing position raises. *)
Inductive failure :=
| Fails (e : ValidationError)
| Breaks (x : Py.exn).

(** The outcome of a pass that stops at the first failing position. *)
Definition first_failure (l : list failure) : result unit :=
  match l with
  | [] => Ok tt
  | Fails e :: _ => Invalid e
  | Breaks x :: _ => Raise x
  end.

Definition failure_of (r : result unit) : list failure :=
  match r with
  | Ok _ => []
  | Invalid e => [Fails e]
  | Raise x => [Breaks x]
  end.

Definition retrace_failure (f : ValidationError -> ValidationError) (x : failure) : failure :=
  match x with
  | Fails e => Fails (f e)
  | Breaks x => Breaks x
  end.

(** Collecting over the children of a node, in their order. *)
Section Collect.

Context {S : Type}.

Fixpoint collect_at_key (body : S -> list failure) (k : string)
  (fields : list (string * S)) : list failure :=
  match fields with
  | [] => []
  | (k', sub) :: rest => if String.eqb k k' then body sub else collect_at_key body k rest
  end.

Fixpoint collect_enumerate (body : nat -> obj -> list failure) (i : nat)
  (elements : list obj) : list failure :=
  match elements with
  | [] => []
  | e :: rest => (body i e ++ collect_enumerate body (Datatypes.S i) rest)%list
  end.

Fixpoint collect_slots (body : nat -> obj -> S -> list failure) (i : nat)
  (items : list S) (elements : list obj) : list failure :=
  match items, elements with
  | sub :: items', e :: rest =>
      (body i e sub ++ collect_slots body (Datatypes.S i) items' rest)%list
  | _, _ => []
  end.

End Collect.

(** Every failing position of an input against a schema, depth first and
    left to right: a node's own checks come before its children; the
    children of a mapping are visited in the iteration order of the input's
    keys, those of a sequence by ascending index, those of a tuple by
    ascending slot.  Below a node whose own check fails nothing is
    visited. *)
Fixpoint failing_positions (variant : obj) (s : schema) (current_trace : string)
  {struct s} : list failure :=
  match s with
  | SType t =>
      map (retrace_failure (retrace (append current_trace))) (failing_positions_type t variant)
  | SDict fields =>
      match variant with
      | VDict entries =>
          let required k :=
            negb (Py.has_key k entries)
            && negb (match Py.lookup k fields with
                     | Some sub => is_Optional sub
                     | None => false
                     end) in
          match filter required (map fst fields) with
          | [] =>
              flat_map
                (fun kv =>
                   collect_at_key
                     (fun sub =>
                        failing_positions (snd kv) sub
                          (current_trace ++ Object_key (fst kv)))
                     (fst kv) fields)
                entries
          | missing =>
              map (fun k => Fails (mkValidationError variant
                                     (VStr ("doesn't have key " ++ dquote ++ k ++ dquote))
                                     (current_trace ++ "Object")))
                  missing
          end
      | _ => [Fails (mkValidationError variant (VStr "is not an object")
                       (current_trace ++ "Object"))]
      end
  | SList items =>
      match items with
      | [] =>
          match list_or_tuple variant with
          | Some _ => []
          | None => [Fails (mkValidationError variant (VStr "is not a list or tuple")
                              (current_trace ++ "List"))]
          end
      | [sub] =>
          match list_or_tuple variant with
          | Some elements =>
              collect_enumerate
                (fun i e => failing_positions e sub (current_trace ++ List_index i))
                0%nat elements
          | None => [Fails (mkValidationError variant (VStr "is not a list or tuple")
                              (current_trace ++ "List"))]
          end
      | _ => [Breaks Py.TypeError]
      end
  | STuple items =>
      match list_or_tuple variant with
      | Some elements =>
          if (List.length items =? List.length elements)%nat then
            collect_slots
              (fun i e sub => failing_positions e sub (current_trace ++ Tuple_index i))
              0%nat items elements
          else
            [Fails (mkValidationError variant
                      (VStr ("has too "
                             ++ (if (List.length elements <? List.length items)%nat
                                 then "few" else "many")
                             ++ " elements (it requires "
                             ++ Text.of_nat (List.length items) ++ ")"))
                      (current_trace ++ "Tuple"))]
      | None => [Fails (mkValidationError variant (VStr "is not a list or tuple")
                          (current_trace ++ "Tuple"))]
      end
  | SOther => [Breaks Py.TypeError]
  end
with failing_positions_type (t : Type_) (variant : obj) {struct t} : list failure :=
  match t with
  | Optional othertype =>
      match variant with
      | VNone => []
      | _ =>
          map (retrace_failure
                 (fun e => Optional_invalid (Error.value e) (message e) (trace e)))
              (failing_positions variant othertype "")
      end
  | Any _ _ => []
  | Variant _ => []
  | String strict _ => failure_of (String_validate t strict variant)
  | RegexString regex match_ _ => failure_of (RegexString_validate t regex match_ variant)
  | Number _ _ strict _ => failure_of (Number_validate t strict variant)
  | Null => failure_of (Null_validate t variant)
  | Date _ => failure_of (RegexString_validate t Date_pattern Date_match variant)
  | Datetime _ => failure_of (RegexString_validate t Datetime_pattern Datetime_match variant)
  | Boolean strict => failure_of (Boolean_validate t strict variant)
  | Constant constant => failure_of (Constant_validate constant variant)
  end.

(** The token sets of the lenient boolean as the specification lists them. *)
Definition listed_true : list obj :=
  [VStr "yes"; VStr "true"; VStr "t"; VStr "1"; VInt 1].

Definition listed_false : list obj :=
  [VStr "no"; VStr "false"; VStr "f"; VStr "0"; VInt 0; VNone].

(** What the lenient boolean takes for true and for false: the words of
    [admissible_true] and [admissible_false], any number equal to [1] or to
    [0] (membership in a tuple is by [==]), and [None] for false. *)
Definition true_words : list string := ["yes"; "True"; "true"; "t"; "1"].
Definition false_words : list string := ["no"; "False"; "false"; "f"; "0"].

Definition equals_int (v : obj) (n : Z) : Prop :=
  exists x, Py.number v = Some x /\ Num.eqb x (Num.of_int n) = true.

Definition taken_for_true (v : obj) : Prop :=
  (exists s, v = VStr s /\ In s true_words) \/ equals_int v 1.

Definition taken_for_false (v : obj) : Prop :=
  (exists s, v = VStr s /\ In s false_words) \/ equals_int v 0 \/ v = VNone.

End Spec.

(** ** The examples of the specification *)

Module Examples.

Import jsonschema.



(** [Any(Number(), String())] *)
Definition number_or_string : Type_ :=
  Any (SType (Number VNone VNone false (init_condition None)))
      [SType (String true (init_condition None))].

(** [{"a": String(), "b": [Boolean(strict=False)], "c": Optional((Null(), String()))}] *)
Definition plain_schema : schema :=
  SDict [("a", SType (String true (init_condition None)));
         ("b", SList [SType (Boolean false)]);
         ("c", SType (Optional (STuple [SType Null;
                                        SType (String true (init_condition None))])))].

(** [{"a": "x", "b": ["yes", 0], "more": 1.5}] *)
Definition plain_input : obj :=
  VDict [("a", VStr "x"); ("b", VList [VStr "yes"; VInt 0]);
         ("more", VFloat (S754_finite false 6755399441055744 (-52)))].

End Examples.

(** ** Further notions for the properties of the engine *)

Module Notions.

Import jsonschema.

(** The texts a pattern denotes. *)
Inductive in_language : Re.re -> list ascii -> Prop :=
| in_Eps : in_language Re.Eps []
| in_Digit c : Text.is_digit c = true -> in_language Re.Digit [c]
| in_Chr c : in_language (Re.Chr c) [c]
| in_Seq a b l1 l2 :
    in_language a l1 -> in_language b l2 -> in_language (Re.Seq a b) (l1 ++ l2)%list
| in_Alt_l a b l : in_language a l -> in_language (Re.Alt a b) l
| in_Alt_r a b l : in_language b l -> in_language (Re.Alt a b) l
| in_Star_nil a : in_language (Re.Star a) []
| in_Star_cons a l1 l2 :
    in_language a l1 -> in_language (Re.Star a) l2 -> in_language (Re.Star a) (l1 ++ l2)%list.


(** The shape of a text that [Number.match] lets through: digits, then
    possibly a point and digits. *)
Definition digits (l : list ascii) : Prop := Forall (fun c => Text.is_digit c = true) l.

Definition decimal_text (l : list ascii) (ip fp : list ascii) : Prop :=
  ip <> [] /\ digits ip /\ digits fp
  /\ (l = ip /\ fp = [] \/ fp <> [] /\ l = (ip ++ "."%char :: fp)%list).




(** A bound given as a finite number, and the parsed value on the wrong
    side of it. *)
Definition below (parsed : Q) (min : obj) : Prop :=
  exists lo, Py.number min = Some (Num.Fin lo) /\ (parsed < lo)%Q.

Definition above (parsed : Q) (max : obj) : Prop :=
  exists hi, Py.number max = Some (Num.Fin hi) /\ (hi < parsed)%Q.


(** The schema with every condition replaced by the default one and every
    bound removed. *)
Fixpoint unconditioned (s : schema) : schema :=
  match s with
  | SType t => SType (unconditioned_type t)
  | SDict fields => SDict (map (fun kv => (fst kv, unconditioned (snd kv))) fields)
  | SList items => SList (map unconditioned items)
  | STuple items => STuple (map unconditioned items)
  | SOther => SOther
  end
with unconditioned_type (t : Type_) : Type_ :=
  match t with
  | Variant _ => Variant (init_condition None)
  | String strict _ => String strict (init_condition None)
  | RegexString regex match_ _ => RegexString regex match_ (init_condition None)
  | Number _ _ strict _ => Number VNone VNone strict (init_condition None)
  | Date _ => Date (init_condition None)
  | Datetime _ => Datetime (init_condition None)
  | Optional othertype => Optional (unconditioned othertype)
  | Any first others => Any (unconditioned first) (map unconditioned others)
  | Null | Boolean _ | Constant _ => t
  end.

(** Schemas whose output is of the kind of their input: no [Number], whose
    output goes through [float]; no [Date] or [Datetime], which turn text
    into objects; no alternatives. *)
Fixpoint stable (s : schema) : bool :=
  match s with
  | SType t => stable_type t
  | SDict fields => forallb (fun kv => stable (snd kv)) fields
  | SList items | STuple items => forallb stable items
  | SOther => true
  end
with stable_type (t : Type_) : bool :=
  match t with
  | Number _ _ _ _ | Date _ | Datetime _ | Any _ _ => false
  | Optional othertype => stable othertype
  | Variant _ | String _ _ | RegexString _ _ _ | Null | Boolean _ | Constant _ => true
  end.

(** The fields a text [YYYY-MM-DD] spells, read off without any check, and
    the dates of the calendar. *)
Definition date_fields (l : list ascii) : option (Z * Z * Z) :=
  match l with
  | [a; b; c; d; x; e; f; y; g; h] =>
      if Text.all_digits [a; b; c; d; e; f; g; h] && Ascii.eqb x "-" && Ascii.eqb y "-"
      then Some (Text.digits_val [a; b; c; d], Strptime.two e f, Strptime.two g h)
      else None
  | _ => None
  end.

Definition calendar_date (y m d : Z) : bool :=
  (1 <=? y) && (1 <=? m) && (m <=? 12) && (1 <=? d) && (d <=? Strptime.days_in_month y m).

Definition Date_reference (s : string) : option date :=
  match date_fields (Text.chars s) with
  | Some (y, m, d) => if calendar_date y m d then Some (Date_ y m d) else None
  | None => None
  end.

(** The same for a text [YYYY-MM-DDTHH:MM:SS] and what follows it: the
    fields read off without any check and the rest of the text; the
    microseconds that a fractional part of one to six digits spells, with or
    without a final [Z]; the times of the clock. *)
Definition datetime_fields (l : list ascii)
  : option (Z * Z * Z * Z * Z * Z * list ascii) :=
  match l with
  | a :: b :: c :: d :: x1 :: e :: f :: x2 :: g :: h :: x3 :: i :: j :: x4 :: k :: m
      :: x5 :: n :: o :: rest =>
      if Text.all_digits [a; b; c; d; e; f; g; h; i; j; k; m; n; o]
         && Ascii.eqb x1 "-" && Ascii.eqb x2 "-" && Ascii.eqb x3 "T"
         && Ascii.eqb x4 ":" && Ascii.eqb x5 ":"
      then Some (Text.digits_val [a; b; c; d], Strptime.two e f, Strptime.two g h,
                 Strptime.two i j, Strptime.two k m, Strptime.two n o, rest)
      else None
  | _ => None
  end.

Definition fraction (rest : list ascii) : option Z :=
  match rest with
  | [] => Some 0
  | c :: more =>
      let '(ds, z) := FloatText.span_digits more in
      if Ascii.eqb c "." && (1 <=? List.length ds)%nat && (List.length ds <=? 6)%nat
         && match z with
            | [] => true
            | [x] => Ascii.eqb x "Z"
            | _ => false
            end
      then Some (Text.digits_val (ds ++ repeat "0"%char (6 - List.length ds))%list)
      else None
  end.

Definition clock (h m s : Z) : bool := (h <=? 23) && (m <=? 59) && (s <=? 59).

Definition Datetime_reference (s : string) : option datetime :=
  match datetime_fields (Text.chars s) with
  | Some (y, mo, d, h, mi, se, rest) =>
      match fraction rest with
      | Some us =>
          if calendar_date y mo d && clock h mi se
          then Some (Datetime_ (Date_ y mo d) h mi se us)
          else None
      | None => None
      end
  | None => None
  end.

(** The values that the two-digit groups of [strptime] take. *)
Definition seconds_in_range (mo d h mi se : Z) : bool :=
  ((1 <=? mo) && (mo <=? 12)) && ((1 <=? d) && (d <=? 31))
  && ((0 <=? h) && (h <=? 23)) && ((0 <=? mi) && (mi <=? 59))
  && ((0 <=? se) && (se <=? 61)).

(** What may follow the seconds in a text that [Datetime.validate] accepts:
    a point and digits or nothing, then [Z] or nothing, then a final newline
    or nothing. *)
Definition after_seconds (ds fr tl : list ascii) : Prop :=
  digits ds
  /\ (fr = [] \/ fr = "."%char :: ds)
  /\ In tl [[]; ["Z"%char]; ["010"%char]; ["Z"%char; "010"%char]].

End Notions.

(** ** How a [ValidationError] prints *)

Module Printing.

(** [ValidationError.__str__]: [f'{self.value} {self.message}'] *)
Definition __str__ (self : ValidationError) : string :=
  Fmt.str (Error.value self) ++ " " ++ Fmt.str (message self).

(** [ValidationError.__repr__] *)
Definition __repr__ (self : ValidationError) : string :=
  "jsonschema.ValidationError: " ++ __str__ self ++ " ; Trace: " ++ trace self.

End Printing.

(** ** The schema of [usage.py] and its demonstrations *)

Module Usage.

Import jsonschema.

(** [fail(msg)]: [raise ValueError(msg)] *)
Definition fail (msg : string) : outcome := Raises [VStr msg].

(** [a > b] on naive datetimes: the order of the fields, the year first. *)
Fixpoint later (a b : list Z) : bool :=
  match a, b with
  | x :: a', y :: b' => (y <? x) || ((x =? y) && later a' b')
  | _, _ => false
  end.

Definition datetime_fields_of (x : datetime) : list Z :=
  [year (dt_date x); month (dt_date x); day (dt_date x);
   hour x; minute x; second x; microsecond x].

Definition datetime_gt (a b : datetime) : bool :=
  later (datetime_fields_of a) (datetime_fields_of b).

(** [type(v).__name__], as the message of a refused comparison spells it. *)
Definition type_name (v : obj) : string :=
  match v with
  | VNone => "NoneType"
  | VBool _ => "bool"
  | VInt _ => "int"
  | VFloat _ => "float"
  | VDecimal _ => "decimal.Decimal"
  | VStr _ => "str"
  | VList _ => "list"
  | VTuple _ => "tuple"
  | VDict _ => "dict"
  | VDate _ => "datetime.date"
  | VDatetime _ => "datetime.datetime"
  end.

Definition new_year_2017 : datetime := Datetime_ (Date_ 2017 1 1) 0 0 0 0.

(** [lambda d: fail('date must be later than 2017-01-01')
               if d > datetime.datetime(2017, 1, 1) else True];
    the comparison raises [TypeError] on what is no datetime. *)
Definition constrained_date_condition : predicate :=
  fun d =>
    match d with
    | VDatetime x =>
        if datetime_gt x new_year_2017 then fail "date must be later than 2017-01-01"
        else Returns (VBool true)
    | VDate _ => Raises [VStr "can't compare datetime.datetime to datetime.date"]
    | _ => Raises [VStr ("'>' not supported between instances of '" ++ type_name d
                         ++ "' and 'datetime.datetime'")]
    end.

Definition default : predicate := init_condition None.

Definition constrained_date : Type_ :=
  Datetime (init_condition (Some constrained_date_condition)).

Definition schema : jsonschema.schema :=
  SDict
    [("foo", SType (String true default));
     ("bar", SType (Number VNone VNone false default));
     ("hoho", SType (Optional (SType (Number VNone VNone false default))));
     ("nest",
      SDict [("somedate", SType (Date default));
             ("constrained_date", SType constrained_date);
             ("nest", SList [SType (Number (VInt 0) VNone false default)])]);
     ("mixed",
      SType (Optional
               (SList [SType (Any (SType (String true default))
                                  [SType (Number VNone VNone false default);
                                   SType (Boolean true);
                                   SList [SType Null]])])));
     ("pairlist", SList [STuple [SType (String true default);
                                 SType (Number VNone VNone false default)]]);
     ("strict_bool", SType (Boolean true));
     ("permissive_bool", SType (Boolean false));
     ("enum", SType (Any (SType (Constant (VStr "FOO")))
                         [SType (Constant (VStr "BAR")); SType (Constant (VStr "BAZ"))]))].

Definition clean : obj -> result obj := jsonschema.clean schema.

(** The keys of the schema that are not optional, in its order. *)
Definition required : list string :=
  ["foo"; "bar"; "nest"; "pairlist"; "strict_bool"; "permissive_bool"; "enum"].

(** A float literal of the source. *)
Definition literal (s : string) : obj :=
  match FloatText.parse s with
  | Some x => VFloat x
  | None => VNone
  end.

Definition pair (a : string) (b : Z) : obj := VList [VStr a; VInt b].

Definition nest_of (constrained_date : string) (extra : list (string * obj)) : obj :=
  VDict ([("somedate", VStr "2000-01-01");
          ("constrained_date", VStr constrained_date);
          ("nest", VList [VInt 1; VInt 2; VInt 3; VInt 4])] ++ extra)%list.

Definition test_passing : obj :=
  VDict [("foo", VStr "hello");
         ("bar", VStr "1234");
         ("nest", nest_of "2000-01-02T10:10:10.123Z" [("somethingextra", VStr "not validated")]);
         ("mixed", VList [VInt 1; VStr "hello"; VBool true; literal "123.1234";
                          VList [VNone]; VStr "OH MY GOD"]);
         ("pairlist", VList [pair "hello" 1; pair "goodbye" 120]);
         ("strict_bool", VBool true);
         ("permissive_bool", VStr "false");
         ("enum", VStr "BAZ")].

Definition test_failing_condition : obj :=
  VDict [("foo", VStr "hello");
         ("bar", VStr "1234");
         ("nest", nest_of "2018-01-02T10:10:10" []);
         ("pairlist", VList [pair "hello" 1; pair "goodbye" 120]);
         ("strict_bool", VBool true);
         ("permissive_bool", VStr "false");
         ("enum", VStr "BAZ")].

Definition test_failing_schema : obj :=
  VDict [("foo", VStr "hello");
         ("bar", VStr "1234");
         ("hoho", VStr "1234a");
         ("nest", nest_of "2000-01-02T10:10:10" []);
         ("pairlist", VList [pair "hello" 1; pair "goodbye" 120]);
         ("strict_bool", VBool true);
         ("permissive_bool", VStr "false");
         ("enum", VStr "BAZ")].

Definition test_failing_composite : obj :=
  VDict [("foo", VStr "hello");
         ("bar", VStr "1234");
         ("hoho", VStr "1234.1234");
         ("nest", nest_of "2000-01-02T10:10:10" []);
         ("mixed", VList [VInt 1; VInt 2; VList [VInt 3; VInt 4; VNone]]);
         ("pairlist", VList [pair "hello" 1; pair "goodbye" 120]);
         ("strict_bool", VBool true);
         ("permissive_bool", VStr "false");
         ("enum", VStr "BAZ")].

Definition test_failing_tuple : obj :=
  VDict [("foo", VStr "hello");
         ("bar", VStr "1234");
         ("hoho", VStr "1234.1234");
         ("nest", nest_of "2000-01-02T10:10:10" []);
         ("mixed", VList [VInt 1; VInt 2]);
         ("pairlist", VList [pair "hello" 1; pair "goodbye" 120;
                             VList [VStr "butwait"; VInt 1000; VInt 1000]]);
         ("strict_bool", VBool true);
         ("permissive_bool", VStr "false");
         ("enum", VStr "BAZ")].

Definition test_failing_enum : obj :=
  VDict [("foo", VStr "hello");
         ("bar", VStr "1234");
         ("hoho", VStr "1234.1234");
         ("nest", nest_of "2000-01-02T10:10:10" []);
         ("mixed", VList [VInt 1; VInt 2]);
         ("pairlist", VList [pair "hello" 1; pair "goodbye" 120; pair "butwait" 1000]);
         ("strict_bool", VBool true);
         ("permissive_bool", VStr "false");
         ("enum", VStr "BARZ")].

(** What the [except] blocks of the demonstrations print: [str(e)] and
    [e.trace]. *)
Definition printed (r : result obj) : option (string * string) :=
  match r with
  | Invalid e => Some (Printing.__str__ e, trace e)
  | _ => None
  end.

End Usage.

(** ** Induction over schemas *)

Section SchemaInd.

Import jsonschema.

Variable P : schema -> Prop.
Variable Q : Type_ -> Prop.

Hypothesis HType : forall t, Q t -> P (SType t).
Hypothesis HDict : forall fields, Forall (fun kv => P (snd kv)) fields -> P (SDict fields).
Hypothesis HList : forall items, Forall P items -> P (SList items).
Hypothesis HTuple : forall items, Forall P items -> P (STuple items).
Hypothesis HOther : P SOther.
Hypothesis HVariant : forall c, Q (Variant c).
Hypothesis HString : forall strict c, Q (String strict c).
Hypothesis HRegexString : forall regex match_ c, Q (RegexString regex match_ c).
Hypothesis HNumber : forall min max strict c, Q (Number min max strict c).
Hypothesis HNull : Q Null.
Hypothesis HDate : forall c, Q (Date c).
Hypothesis HDatetime : forall c, Q (Datetime c).
Hypothesis HBoolean : forall strict, Q (Boolean strict).
Hypothesis HOptional : forall othertype, P othertype -> Q (Optional othertype).
Hypothesis HAny : forall first others, P first -> Forall P others -> Q (Any first others).
Hypothesis HConstant : forall constant, Q (Constant constant).

Fixpoint schema_nested_ind (s : schema) : P s :=
  match s with
  | SType t => HType t (Type_nested_ind t)
  | SDict fields =>
      HDict fields
        ((fix go (l : list (string * schema)) : Forall (fun kv => P (snd kv)) l :=
            match l with
            | [] => Forall_nil _
            | kv :: r => Forall_cons _ (schema_nested_ind (snd kv)) (go r)
            end) fields)
  | SList items =>
      HList items
        ((fix go (l : list schema) : Forall P l :=
            match l with
            | [] => Forall_nil _
            | x :: r => Forall_cons _ (schema_nested_ind x) (go r)
            end) items)
  | STuple items =>
      HTuple items
        ((fix go (l : list schema) : Forall P l :=
            match l with
            | [] => Forall_nil _
            | x :: r => Forall_cons _ (schema_nested_ind x) (go r)
            end) items)
  | SOther => HOther
  end
with Type_nested_ind (t : Type_) : Q t :=
  match t with
  | Variant c => HVariant c
  | String strict c => HString strict c
  | RegexString regex match_ c => HRegexString regex match_ c
  | Number min max strict c => HNumber min max strict c
  | Null => HNull
  | Date c => HDate c
  | Datetime c => HDatetime c
  | Boolean strict => HBoolean strict
  | Optional othertype => HOptional othertype (schema_nested_ind othertype)
  | Any first others =>
      HAny first others (schema_nested_ind first)
        ((fix go (l : list schema) : Forall P l :=
            match l with
            | [] => Forall_nil _
            | x :: r => Forall_cons _ (schema_nested_ind x) (go r)
            end) others)
  | Constant constant => HConstant constant
  end.

End SchemaInd.

(** ** Basic facts: raising, traces, loops *)

Section Facts.

Import jsonschema.

Lemma append_assoc (a b c : string) : (a ++ b) ++ c = a ++ (b ++ c).
Proof. induction a as [|x a IH]; simpl; [reflexivity | now rewrite IH]. Qed.


Lemma retrace_nil (e : ValidationError) : retrace (append "") e = e.
Proof. destruct e; reflexivity. Qed.

Lemma retrace_retrace (a b : string) (e : ValidationError) :
  retrace (append a) (retrace (append b) e) = retrace (append (a ++ b)) e.
Proof. destruct e; unfold retrace; simpl. now rewrite append_assoc. Qed.

Lemma prefixed_nil {A : Type} (c : result A) : prefixed "" c = c.
Proof. destruct c; simpl; try reflexivity. now rewrite retrace_nil. Qed.

Lemma prefixed_prefixed {A : Type} (a b : string) (c : result A) :
  prefixed a (prefixed b c) = prefixed (a ++ b) c.
Proof. destruct c; simpl; try reflexivity. now rewrite retrace_retrace. Qed.

Lemma prefixed_bind {A B : Type} (ct : string) (c : result A) (k : A -> result B) :
  prefixed ct (bind c k) = bind (prefixed ct c) (fun a => prefixed ct (k a)).
Proof. destruct c; reflexivity. Qed.

Lemma bind_ext {A B : Type} (c : result A) (k k' : A -> result B) :
  (forall a, k a = k' a) -> bind c k = bind c k'.
Proof. intros H. destruct c; simpl; auto. Qed.

Lemma for_enumerate_ext {A : Type} (f g : nat -> obj -> result A) (l : list obj) :
  forall i, (forall j e, In e l -> f j e = g j e) -> for_enumerate f i l = for_enumerate g i l.
Proof.
  induction l as [|e l IH]; intros i H; simpl; [reflexivity|].
  rewrite (H i e (or_introl eq_refl)).
  apply bind_ext. intros a. rewrite (IH (S i)); [reflexivity|].
  intros j x Hx. apply H. now right.
Qed.

Lemma at_key_prefixed {S : Type} (ct : string) (f g : S -> result unit) (k : string)
  (fields : list (string * S)) :
  Forall (fun kv => f (snd kv) = prefixed ct (g (snd kv))) fields ->
  at_key f k fields = prefixed ct (at_key g k fields).
Proof.
  induction 1 as [|[k' sub] rest H _ IH]; simpl; [reflexivity|].
  destruct (String.eqb k k'); [exact H | exact IH].
Qed.

Lemma for_items_prefixed (ct : string) (f g : string -> obj -> result unit)
  (l : list (string * obj)) :
  (forall k v, f k v = prefixed ct (g k v)) ->
  for_items f l = prefixed ct (for_items g l).
Proof.
  intros H. induction l as [|[k v] l IH]; simpl; [reflexivity|].
  rewrite prefixed_bind, H. apply bind_ext. intros _. exact IH.
Qed.

Lemma for_enumerate_prefixed {A : Type} (ct : string) (f g : nat -> obj -> result A)
  (l : list obj) :
  (forall i e, f i e = prefixed ct (g i e)) ->
  forall i, for_enumerate f i l = prefixed ct (for_enumerate g i l).
Proof.
  intros H. induction l as [|e l IH]; intros i; simpl; [reflexivity|].
  rewrite prefixed_bind, H. apply bind_ext. intros a.
  rewrite prefixed_bind, IH. reflexivity.
Qed.

Lemma for_schema_slots_prefixed {S : Type} (ct : string)
  (f g : nat -> obj -> S -> result unit) (items : list S) :
  Forall (fun sub => forall i e, f i e sub = prefixed ct (g i e sub)) items ->
  forall i l, for_schema_slots f i items l = prefixed ct (for_schema_slots g i items l).
Proof.
  induction 1 as [|sub rest H _ IH]; intros i l; simpl; [reflexivity|].
  destruct l as [|e l]; [reflexivity|].
  rewrite prefixed_bind, H. apply bind_ext. intros _. apply IH.
Qed.



(** Moving a trace prefix from the argument to the raised error. *)
Lemma shift_prefix {A : Type} (w : string -> result A) (ct seg : string) :
  (forall t, w t = prefixed t (w "")) ->
  w (ct ++ seg) = prefixed ct (w seg).
Proof.
  intros H. rewrite (H (ct ++ seg)), (H seg), prefixed_prefixed. reflexivity.
Qed.

Lemma _validate_prefix (s : schema) :
  forall variant current_trace,
    _validate variant s current_trace = prefixed current_trace (_validate variant s "").
Proof.
  induction s using schema_nested_ind with (Q := fun _ => True); try exact I;
    intros variant ct; cbn [_validate append].
  - now rewrite prefixed_nil.
  - destruct variant; try reflexivity.
    destruct (missing_key fields entries); [reflexivity|].
    apply for_items_prefixed. intros k v.
    apply at_key_prefixed.
    eapply Forall_impl; [|exact H]. intros [k' sub] IH. cbn [snd] in *.
    apply (shift_prefix (fun t => _validate v sub t)). intros t. apply IH.
  - destruct (1 <? List.length items)%nat; [reflexivity|].
    destruct (list_or_tuple variant) as [elements|]; [|reflexivity].
    destruct items as [|sub rest]; [reflexivity|].
    rewrite prefixed_bind. f_equal.
    apply for_enumerate_prefixed. intros i e.
    apply (shift_prefix (fun t => _validate e sub t)). intros t.
    inversion H; subst. auto.
  - destruct (list_or_tuple variant) as [elements|]; [|reflexivity].
    destruct (negb (List.length items =? List.length elements)%nat); [reflexivity|].
    apply for_schema_slots_prefixed.
    eapply Forall_impl; [|exact H]. intros sub IH i e. cbn beta in *.
    apply (shift_prefix (fun t => _validate e sub t)). intros t. apply IH.
  - reflexivity.
Qed.




(** *** What the loop over the elements of a sequence returns *)

Lemma for_enumerate_Ok {A : Type} (f : nat -> obj -> result A) (l : list obj) :
  forall i outs,
    for_enumerate f i l = Ok outs <->
    (List.length outs = List.length l /\
     forall j e, nth_error l j = Some e ->
                 exists a, f (i + j)%nat e = Ok a /\ nth_error outs j = Some a).
Proof.
  induction l as [|e l IH]; intros i outs; cbn [for_enumerate].
  - split.
    + intros H. injection H as <-. split; [reflexivity|].
      intros [|j] x Hx; discriminate.
    + intros [Hlen _]. destruct outs; [reflexivity | discriminate].
  - split.
    + destruct (f i e) as [a| |] eqn:Ha; cbn [bind]; try discriminate.
      destruct (for_enumerate f (S i) l) as [r| |] eqn:Hr; cbn [bind]; try discriminate.
      intros H. injection H as <-.
      apply IH in Hr. destruct Hr as [Hlen Hr].
      split; [cbn; now rewrite Hlen|].
      intros [|j] x Hx; cbn in Hx.
      * injection Hx as <-. exists a. rewrite Nat.add_0_r. now split.
      * destruct (Hr j x Hx) as [b [Hb Hn]]. exists b.
        rewrite Nat.add_succ_r. now split.
    + intros [Hlen H].
      destruct outs as [|a outs]; [discriminate|].
      destruct (H 0%nat e eq_refl) as [a' [Ha Hn]].
      rewrite Nat.add_0_r in Ha. cbn in Hn. injection Hn as ->.
      rewrite Ha. cbn [bind].
      assert (Hr : for_enumerate f (S i) l = Ok outs).
      { apply IH. split; [now injection Hlen|].
        intros j x Hx. destruct (H (S j) x Hx) as [b [Hb Hn]].
        exists b. rewrite Nat.add_succ_r in Hb. now split. }
      now rewrite Hr.
Qed.

Lemma for_enumerate_Invalid {A : Type} (f : nat -> obj -> result A) (l : list obj) :
  forall i n e err,
    nth_error l n = Some e ->
    (forall j x, (j < n)%nat -> nth_error l j = Some x -> exists a, f (i + j)%nat x = Ok a) ->
    f (i + n)%nat e = Invalid err ->
    for_enumerate f i l = Invalid err.
Proof.
  induction l as [|x l IH]; intros i n e err Hn Hbefore He.
  - destruct n; discriminate.
  - cbn [for_enumerate]. destruct n as [|n].
    + cbn in Hn. injection Hn as ->. rewrite Nat.add_0_r in He. now rewrite He.
    + destruct (Hbefore 0%nat x (Nat.lt_0_succ n) eq_refl) as [a Ha].
      rewrite Nat.add_0_r in Ha. rewrite Ha. cbn [bind].
      rewrite (IH (S i) n e err Hn); [reflexivity| |].
      * intros j y Hj Hy. destruct (Hbefore (S j) y) as [b Hb]; [lia|exact Hy|].
        exists b. now rewrite Nat.add_succ_r in Hb.
      * now rewrite Nat.add_succ_r in He.
Qed.

(** *** Dicts as association lists *)

Lemma has_key_lookup {A : Type} (k : string) (l : list (string * A)) :
  Py.has_key k l = false <-> Py.lookup k l = None.
Proof.
  unfold Py.has_key. destruct (Py.lookup k l); split; intros H; congruence.
Qed.

Lemma lookup_app {A : Type} (k : string) (a b : list (string * A)) :
  Py.lookup k (a ++ b)%list
  = match Py.lookup k a with Some v => Some v | None => Py.lookup k b end.
Proof.
  induction a as [|[k' v] a IH]; cbn [Py.lookup app]; [reflexivity|].
  destruct (String.eqb k k'); [reflexivity | exact IH].
Qed.

Lemma lookup_same_keys {A B : Type} (k : string) (a : list (string * A))
  (b : list (string * B)) :
  map fst a = map fst b -> (Py.lookup k a = None <-> Py.lookup k b = None).
Proof.
  revert b. induction a as [|[k1 v1] a IH]; intros [|[k2 v2] b] H; cbn in H;
    try discriminate; cbn [Py.lookup]; [tauto|].
  injection H as -> H. destruct (String.eqb k k2); [split; discriminate|].
  now apply IH.
Qed.

Lemma lookup_None_neq {A : Type} (k k' : string) (v : A) (l : list (string * A)) :
  Py.lookup k l = None -> In (k', v) l -> String.eqb k' k = false.
Proof.
  induction l as [|[k1 v1] l IH]; cbn [Py.lookup In]; [tauto|].
  destruct (String.eqb k k1) eqn:E; [discriminate|].
  intros H [H1|H1]; [|now apply IH].
  injection H1 as -> ->. now rewrite String.eqb_sym.
Qed.

Lemma for_fields_app {S A : Type} (f : string -> S -> result A) (a b : list (string * S)) :
  for_fields f (a ++ b)%list
  = (x <- for_fields f a ;; y <- for_fields f b ;; Ok (x ++ y)%list).
Proof.
  induction a as [|[k sub] a IH]; cbn [for_fields app bind].
  - destruct (for_fields f b); reflexivity.
  - destruct (f k sub); cbn [bind]; try reflexivity.
    rewrite IH. destruct (for_fields f a); cbn [bind]; try reflexivity.
    destruct (for_fields f b); reflexivity.
Qed.

Lemma for_fields_keys {S A : Type} (f : string -> S -> result A) (l : list (string * S)) :
  forall d, for_fields f l = Ok d -> map fst d = map fst l.
Proof.
  induction l as [|[k sub] l IH]; cbn [for_fields]; intros d H.
  - injection H as <-. reflexivity.
  - destruct (f k sub); cbn [bind] in H; try discriminate.
    destruct (for_fields f l) as [r| |]; cbn [bind] in H; try discriminate.
    injection H as <-. cbn. f_equal. now apply IH.
Qed.

Lemma at_key_app {S : Type} (f : S -> result unit) (k : string) (a b : list (string * S)) :
  at_key f k (a ++ b)%list
  = match Py.lookup k a with Some sub => f sub | None => at_key f k b end.
Proof.
  induction a as [|[k' sub] a IH]; cbn [at_key Py.lookup app]; [reflexivity|].
  destruct (String.eqb k k'); [reflexivity | exact IH].
Qed.

Lemma at_key_lookup {S : Type} (f : S -> result unit) (k : string) (l : list (string * S)) :
  at_key f k l = match Py.lookup k l with Some sub => f sub | None => Ok tt end.
Proof.
  induction l as [|[k' sub] l IH]; cbn [at_key Py.lookup]; [reflexivity|].
  destruct (String.eqb k k'); [reflexivity | exact IH].
Qed.

Lemma for_items_ext (f g : string -> obj -> result unit) (l : list (string * obj)) :
  (forall k v, In (k, v) l -> f k v = g k v) -> for_items f l = for_items g l.
Proof.
  induction l as [|[k v] l IH]; intros H; cbn [for_items]; [reflexivity|].
  rewrite (H k v (or_introl eq_refl)). apply bind_ext. intros _.
  apply IH. intros k' v' Hin. apply H. now right.
Qed.

Lemma find_ext {A : Type} (p q : A -> bool) (l : list A) :
  (forall x, In x l -> p x = q x) -> find p l = find q l.
Proof.
  induction l as [|x l IH]; intros H; cbn [find]; [reflexivity|].
  rewrite (H x (or_introl eq_refl)). destruct (q x); [reflexivity|].
  apply IH. intros y Hy. apply H. now right.
Qed.

Lemma find_app {A : Type} (p : A -> bool) (a b : list A) :
  find p (a ++ b)%list = match find p a with Some x => Some x | None => find p b end.
Proof.
  induction a as [|x a IH]; cbn [find app]; [reflexivity|].
  destruct (p x); [reflexivity | exact IH].
Qed.



End Facts.

Import jsonschema Spec Examples.

(** ** The claims *)

(** C10: for every value, the [validate] of a first-match-of-alternatives
    node is the no-op it inherits from [Type] and succeeds, so the validate
    pass of the walker never fails at such a node; all the node checks, it
    checks in [parse]: [clean] on such a node is exactly its [parse]. *)
Theorem C10_alternatives_validate_is_noop :
  forall first others v,
    validate (Any first others) v = Ok tt
    /\ (forall current_trace,
          _validate v (SType (Any first others)) current_trace = Ok tt)
    /\ clean (SType (Any first others)) v = parse (Any first others) v.
Proof.
  intros first others v. split; [reflexivity|]. split; [reflexivity|].
  unfold clean. cbn [_validate validate prefixed except_ValidationError bind].
  cbn [_parse]. rewrite prefixed_nil.
  unfold get_parsed_value_after, Type_get_parsed_value. cbn [getattr_condition].
  destruct (parse (Any first others) v); reflexivity.
Qed.

(** C7: an empty sequence schema validates every list or tuple without
    looking at its elements, and its parse returns the empty list whatever
    the input; a one-element sequence schema applies the element schema to
    every element of the input, in order, under the trace segment
    [List(index:i)]: the validate pass succeeds exactly when every element
    validates, it raises the error of the first element that fails, and the
    parse pass returns the list of the parsed elements. *)
Theorem C7_sequence_schema :
  (forall variant elements current_trace,
      list_or_tuple variant = Some elements ->
      _validate variant (SList []) current_trace = Ok tt)
  /\ (forall variant current_trace, _parse variant (SList []) current_trace = Ok (VList []))
  /\ (forall sub variant elements current_trace,
        list_or_tuple variant = Some elements ->
        (_validate variant (SList [sub]) current_trace = Ok tt <->
         forall i e, nth_error elements i = Some e ->
                     _validate e sub (current_trace ++ List_index i) = Ok tt)
        /\ (forall i e err,
              nth_error elements i = Some e ->
              (forall j x, (j < i)%nat -> nth_error elements j = Some x ->
                           _validate x sub (current_trace ++ List_index j) = Ok tt) ->
              _validate e sub "" = Invalid err ->
              _validate variant (SList [sub]) current_trace
              = Invalid (retrace (append (current_trace ++ List_index i)) err))
        /\ (forall out,
              _parse variant (SList [sub]) current_trace = Ok out <->
              exists outs,
                out = VList outs /\ List.length outs = List.length elements /\
                forall i e, nth_error elements i = Some e ->
                            exists a, _parse e sub (current_trace ++ List_index i) = Ok a
                                      /\ nth_error outs i = Some a)).
Proof.
  split; [|split].
  - intros variant elements ct H. cbn [_validate List.length Nat.ltb Nat.leb].
    now rewrite H.
  - reflexivity.
  - intros sub variant elements ct Hv.
    assert (Hval : _validate variant (SList [sub]) ct
                   = for_enumerate (fun i e => _validate e sub (ct ++ List_index i))
                       0%nat elements ;;; Ok tt).
    { cbn [_validate List.length Nat.ltb Nat.leb]. now rewrite Hv. }
    assert (Hpar : _parse variant (SList [sub]) ct
                   = l <- for_enumerate (fun i e => _parse e sub (ct ++ List_index i))
                            0%nat elements ;; Ok (VList l)).
    { cbn [_parse]. destruct variant; cbn in Hv; try discriminate;
        inversion Hv; subst; reflexivity. }
    split; [|split].
    + rewrite Hval. clear Hval Hpar. split.
      * intros H i e Hi.
        destruct (for_enumerate _ 0%nat elements) as [outs| |] eqn:E; try discriminate.
        apply for_enumerate_Ok in E. destruct E as [_ E].
        destruct (E i e Hi) as [[] [Ha _]]. exact Ha.
      * intros H.
        assert (E : for_enumerate (fun i e => _validate e sub (ct ++ List_index i))
                      0%nat elements = Ok (map (fun _ => tt) elements)).
        { apply for_enumerate_Ok. split; [apply length_map|].
          intros j e Hj. exists tt. split; [now apply H|].
          rewrite nth_error_map, Hj. reflexivity. }
        now rewrite E.
    + intros i e err Hi Hbefore He. rewrite Hval.
      rewrite (for_enumerate_Invalid _ elements 0%nat i e
                 (retrace (append (ct ++ List_index i)) err) Hi); [reflexivity| |].
      * intros j x Hj Hx. exists tt. now apply Hbefore.
      * cbn [Nat.add]. rewrite _validate_prefix, He. reflexivity.
    + intros out. rewrite Hpar. clear Hval Hpar. split.
      * destruct (for_enumerate _ 0%nat elements) as [outs| |] eqn:E; try discriminate.
        cbn [bind]. intros H. injection H as <-.
        apply for_enumerate_Ok in E. destruct E as [Hlen E].
        exists outs. split; [reflexivity|]. split; [exact Hlen|]. exact E.
      * intros [outs [-> [Hlen H]]].
        assert (E : for_enumerate (fun i e => _parse e sub (ct ++ List_index i))
                      0%nat elements = Ok outs).
        { apply for_enumerate_Ok. split; [exact Hlen|]. exact H. }
        now rewrite E.
Qed.

Lemma C7_sequence_schema_witness :
  list_or_tuple (VTuple [VInt 1; VStr "x"]) = Some [VInt 1; VStr "x"]
  /\ _validate (VTuple [VInt 1; VStr "x"])
       (SList [SType (Number VNone VNone true (init_condition None))]) "at: "
     = Invalid (mkValidationError (VStr "x") (VStr "is not a number")
                  "at: List(index:1) --> Number").
Proof.
  split; [reflexivity|].
  refine (proj1 (proj2 (proj2 (proj2 C7_sequence_schema)
                          (SType (Number VNone VNone true (init_condition None)))
                          (VTuple [VInt 1; VStr "x"]) [VInt 1; VStr "x"] "at: " eq_refl))
            1%nat (VStr "x") _ eq_refl _ eq_refl).
  intros [|[|j]] x Hj Hx; [|lia|lia].
  injection Hx as <-. reflexivity.
Defined.

Lemma missing_key_without_optional (S : schema) (pre post : list (string * schema))
  (k : string) (entries : list (string * obj)) :
  Py.lookup k entries = None -> Py.lookup k pre = None -> Py.lookup k post = None ->
  missing_key (pre ++ (k, SType (Optional S)) :: post)%list entries
  = missing_key (pre ++ post)%list entries.
Proof.
  intros He Hpre Hpost. unfold missing_key.
  rewrite !map_app. cbn [map fst]. rewrite !find_app. cbn [find].
  assert (Hsame : forall l : list (string * schema), Py.lookup k l = None ->
            forall p q : string -> bool,
              (forall k', String.eqb k' k = false -> p k' = q k') ->
              find p (map fst l) = find q (map fst l)).
  { intros l Hl p q Hpq. apply find_ext. intros k' Hk'.
    apply in_map_iff in Hk'. destruct Hk' as [[k1 v1] [<- Hin]].
    apply Hpq. exact (lookup_None_neq k k1 v1 l Hl Hin). }
  assert (Hpq : forall k', String.eqb k' k = false ->
            negb (Py.has_key k' entries)
            && negb match Py.lookup k' (pre ++ (k, SType (Optional S)) :: post)%list with
                    | Some sub => is_Optional sub | None => false end
            = negb (Py.has_key k' entries)
              && negb match Py.lookup k' (pre ++ post)%list with
                      | Some sub => is_Optional sub | None => false end).
  { intros k' Hk'. rewrite !lookup_app. cbn [Py.lookup]. now rewrite Hk'. }
  rewrite (Hsame pre Hpre _ _ Hpq), (Hsame post Hpost _ _ Hpq).
  rewrite lookup_app, Hpre. cbn [Py.lookup]. rewrite String.eqb_refl.
  cbn [is_Optional negb]. rewrite andb_false_r. reflexivity.
Qed.

(** C5: [Optional(S)] applied to [None] validates and parses to [None]
    whatever [S] is, so without a recursive call; applied to another value
    it does what the walker does on [S], a [ValidationError] coming back with
    its trace wrapped as [Optional(...)].  Hence a mapping that lacks a key
    whose schema is [Optional(S)] validates as if the schema did not have the
    key, and its parse maps the key to [None]. *)
Theorem C5_optional_presence :
  forall S,
    (validate (Optional S) VNone = Ok tt
     /\ parse (Optional S) VNone = Ok VNone
     /\ get_parsed_value (Optional S) VNone = Ok VNone)
    /\ (forall v, v <> VNone ->
          validate (Optional S) v
          = match _validate v S "" with
            | Invalid e =>
                Invalid (mkValidationError (Error.value e) (message e)
                           ("Optional(" ++ trace e ++ ")"))
            | r => r
            end
          /\ get_parsed_value (Optional S) v
             = match _parse v S "" with
               | Invalid e =>
                   Invalid (mkValidationError (Error.value e) (message e)
                              ("Optional(" ++ trace e ++ ")"))
               | r => r
               end)
    /\ (forall pre post k entries current_trace,
          Py.has_key k entries = false ->
          Py.has_key k pre = false -> Py.has_key k post = false ->
          let with_key := SDict (pre ++ (k, SType (Optional S)) :: post)%list in
          let without := SDict (pre ++ post)%list in
          _validate (VDict entries) with_key current_trace
          = _validate (VDict entries) without current_trace
          /\ is_ok (_parse (VDict entries) with_key current_trace)
             = is_ok (_parse (VDict entries) without current_trace)
          /\ (forall out,
                _parse (VDict entries) with_key current_trace = Ok out ->
                exists d, out = VDict d /\ Py.lookup k d = Some VNone))
    /\ (forall k, clean (SDict [(k, SType (Optional S))]) (VDict [])
                  = Ok (VDict [(k, VNone)])).
Proof.
  intros S. split; [now repeat split|]. split; [|split].
  - intros v Hv. split.
    + cbn [validate]. destruct v; try congruence;
        destruct (_validate _ S ""); reflexivity.
    + unfold get_parsed_value, get_parsed_value_after, Type_get_parsed_value.
      cbn [parse getattr_condition]. destruct v; try congruence;
        destruct (_parse _ S ""); reflexivity.
  - intros pre post k entries ct He Hpre Hpost with_key without.
    apply has_key_lookup in He, Hpre, Hpost.
    subst with_key without. split; [|split].
    + cbn [_validate]. rewrite missing_key_without_optional by assumption.
      destruct (missing_key (pre ++ post) entries); [reflexivity|].
      apply for_items_ext. intros k' v Hin.
      rewrite !at_key_app. cbn [at_key].
      now rewrite (lookup_None_neq k k' v entries He Hin).
    + cbn [_parse]. rewrite !for_fields_app. cbn [for_fields get].
      rewrite He. cbn.
      destruct (for_fields _ pre); cbn [bind is_ok]; try reflexivity.
      destruct (for_fields _ post); reflexivity.
    + intros out. cbn [_parse]. rewrite for_fields_app. cbn [for_fields get].
      rewrite He.
      destruct (for_fields _ pre) as [x| |] eqn:Ex; cbn [bind]; try discriminate.
      cbn.
      destruct (for_fields _ post) as [y| |]; cbn [bind]; try discriminate.
      intros H. injection H as <-. eexists. split; [reflexivity|].
      rewrite lookup_app.
      apply for_fields_keys in Ex.
      apply (lookup_same_keys k x pre Ex) in Hpre. rewrite Hpre.
      cbn [Py.lookup]. now rewrite String.eqb_refl.
  - intros k. unfold clean. cbn [_validate]. unfold missing_key.
    cbn [map fst find Py.has_key Py.lookup]. rewrite String.eqb_refl.
    reflexivity.
Qed.

Lemma C5_optional_presence_witness :
  _validate (VDict [("a", VInt 1)])
    (SDict [("a", SType (Number VNone VNone true (init_condition None)));
            ("b", SType (Optional (SType (String true (init_condition None)))))]) ""
  = Ok tt
  /\ exists d,
      VDict [("a", VInt 1); ("b", VNone)] = VDict d /\ Py.lookup "b" d = Some VNone.
Proof.
  pose proof (proj1 (proj2 (proj2 (C5_optional_presence
                 (SType (String true (init_condition None))))))
                [("a", SType (Number VNone VNone true (init_condition None)))] []
                "b" [("a", VInt 1)] "" eq_refl eq_refl eq_refl) as H.
  cbv zeta in H. destruct H as [Hv [_ Hp]].
  split.
  - exact (eq_trans Hv eq_refl).
  - apply Hp. reflexivity.
Defined.


Lemma lookup_In_keys {A : Type} (k : string) (l : list (string * A)) :
  In k (map fst l) -> exists v, Py.lookup k l = Some v.
Proof.
  induction l as [|[k' v] l IH]; cbn [map fst In Py.lookup]; [tauto|].
  intros [->|H].
  - rewrite String.eqb_refl. now exists v.
  - destruct (String.eqb k k'); [now exists v | now apply IH].
Qed.

Lemma lookup_Some_keys {A : Type} (k : string) (v : A) (l : list (string * A)) :
  Py.lookup k l = Some v -> In k (map fst l).
Proof.
  induction l as [|[k' v'] l IH]; cbn [map fst In Py.lookup]; [discriminate|].
  destruct (String.eqb k k') eqn:E.
  - apply String.eqb_eq in E. subst. now left.
  - intros H. right. now apply IH.
Qed.


Lemma for_items_filter (f : string -> obj -> result unit) (p : string * obj -> bool)
  (l : list (string * obj)) :
  (forall k v, p (k, v) = false -> f k v = Ok tt) ->
  for_items f (filter p l) = for_items f l.
Proof.
  intros H. induction l as [|[k v] l IH]; cbn [for_items filter]; [reflexivity|].
  destruct (p (k, v)) eqn:E; cbn [for_items].
  - now rewrite IH.
  - now rewrite (H k v E), IH.
Qed.

Lemma lookup_filter_schema_keys {A : Type} (fields : list (string * A))
  (entries : list (string * obj)) (k : string) :
  Py.has_key k fields = true ->
  Py.lookup k (filter (fun kv => Py.has_key (fst kv) fields) entries)
  = Py.lookup k entries.
Proof.
  intros Hk. induction entries as [|[k' v] entries IH]; cbn [filter fst Py.lookup];
    [reflexivity|].
  destruct (Py.has_key k' fields) eqn:E; cbn [Py.lookup].
  - now rewrite IH.
  - destruct (String.eqb k k') eqn:Ek; [|exact IH].
    apply String.eqb_eq in Ek. subst. congruence.
Qed.




(** *** The lenient boolean *)

Lemma contains_true_iff (v : obj) :
  Py.contains admissible_true v = true <-> taken_for_true v.
Proof.
  unfold taken_for_true, equals_int, true_words.
  destruct v; cbn; rewrite ?orb_false_r;
    try (split; [discriminate | intros [[s [H _]]|[x [H _]]]; discriminate]).
  - split; [intros H; right; eexists; split; [reflexivity | exact H]|].
    intros [[s [H _]]|[x [H Hx]]]; [discriminate|]. injection H as <-. exact Hx.
  - split; [intros H; right; eexists; split; [reflexivity | exact H]|].
    intros [[s [H _]]|[x [H Hx]]]; [discriminate|]. injection H as <-. exact Hx.
  - split; [intros H; right; eexists; split; [reflexivity | exact H]|].
    intros [[s [H _]]|[x [H Hx]]]; [discriminate|]. injection H as <-. exact Hx.
  - split; [intros H; right; eexists; split; [reflexivity | exact H]|].
    intros [[s [H _]]|[x [H Hx]]]; [discriminate|]. injection H as <-. exact Hx.
  - rewrite !orb_true_iff, !String.eqb_eq. split.
    + intros H. left. exists s. split; [reflexivity|]. cbn. intuition.
    + intros [[t [H Hin]]|[x [H _]]]; [|discriminate].
      injection H as <-. cbn in Hin. intuition.
Qed.

Lemma contains_false_iff (v : obj) :
  Py.contains admissible_false v = true <-> taken_for_false v.
Proof.
  unfold taken_for_false, equals_int, false_words.
  destruct v; cbn; rewrite ?orb_false_r;
    try (split; [discriminate
                | intros [[s [H _]]|[[x [H _]]|H]]; discriminate]).
  - split; [intros _; right; right; reflexivity | reflexivity].
  - split; [intros H; right; left; eexists; split; [reflexivity | exact H]|].
    intros [[s [H _]]|[[x [H Hx]]|H]]; try discriminate. injection H as <-. exact Hx.
  - split; [intros H; right; left; eexists; split; [reflexivity | exact H]|].
    intros [[s [H _]]|[[x [H Hx]]|H]]; try discriminate. injection H as <-. exact Hx.
  - split; [intros H; right; left; eexists; split; [reflexivity | exact H]|].
    intros [[s [H _]]|[[x [H Hx]]|H]]; try discriminate. injection H as <-. exact Hx.
  - split; [intros H; right; left; eexists; split; [reflexivity | exact H]|].
    intros [[s [H _]]|[[x [H Hx]]|H]]; try discriminate. injection H as <-. exact Hx.
  - rewrite !orb_true_iff, !String.eqb_eq. split.
    + intros H. left. exists s. split; [reflexivity|]. cbn. intuition.
    + intros [[t [H Hin]]|[[x [H _]]|H]]; try discriminate.
      injection H as <-. cbn in Hin. intuition.
Qed.

(** C8, as stated, fails: the lenient boolean also validates the text
    ['True'], which is in [admissible_true] but not among the listed tokens,
    and the float [1.0], which is equal to [1]; neither is a literal boolean
    nor one of [yes/true/t/1/1-int] and [no/false/f/0/0-int/absence]. *)
Lemma C8_lenient_accepts_unlisted_values :
  (validate (Boolean false) (VStr "True") = Ok tt
   /\ is_literal_bool (VStr "True") = false
   /\ ~ In (VStr "True") (listed_true ++ listed_false)%list)
  /\ (validate (Boolean false) (VFloat (S754_finite false 4503599627370496 (-52))) = Ok tt
      /\ is_literal_bool (VFloat (S754_finite false 4503599627370496 (-52))) = false
      /\ ~ In (VFloat (S754_finite false 4503599627370496 (-52)))
              (listed_true ++ listed_false)%list).
Proof.
  split; (split; [vm_compute; reflexivity|]; split; [reflexivity|]);
    cbn; intros H; repeat (destruct H as [H|H]; [discriminate H|]); exact H.
Qed.

(** C8, amended: the lenient boolean validates exactly the literal
    booleans, the words [yes], [True], [true], [t], [1] and any number equal
    to [1] (taken for true), the words [no], [False], [false], [f], [0], any
    number equal to [0] and [None] (taken for false), and raises "can't be
    interpreted as boolean" on every other value; its parse is the identity
    on the literal booleans, gives [False] on what is taken for false and
    [True] on everything else (so ['yes'] parses to [True], ['f'] and [None]
    to [False]); the strict boolean validates the literal booleans only and
    raises "is not boolean" on every other value. *)
Theorem C8_boolean_tokens :
  forall v,
    (validate (Boolean false) v = Ok tt
     <-> (is_literal_bool v = true \/ taken_for_true v \/ taken_for_false v))
    /\ (validate (Boolean false) v = Ok tt
        \/ validate (Boolean false) v
           = Invalid (mkValidationError v (VStr "can't be interpreted as boolean") "Boolean"))
    /\ (is_literal_bool v = true -> forall strict, parse (Boolean strict) v = Ok v)
    /\ (is_literal_bool v = false -> taken_for_false v ->
        forall strict, parse (Boolean strict) v = Ok (VBool false))
    /\ (is_literal_bool v = false -> ~ taken_for_false v ->
        forall strict, parse (Boolean strict) v = Ok (VBool true))
    /\ (validate (Boolean true) v = Ok tt <-> is_literal_bool v = true)
    /\ (validate (Boolean true) v = Ok tt
        \/ validate (Boolean true) v
           = Invalid (mkValidationError v (VStr "is not boolean") "Boolean"))
    /\ get_parsed_value (Boolean false) (VStr "yes") = Ok (VBool true)
    /\ get_parsed_value (Boolean false) (VStr "f") = Ok (VBool false)
    /\ get_parsed_value (Boolean false) VNone = Ok (VBool false).
Proof.
  intros v.
  pose proof (contains_true_iff v) as Ht. pose proof (contains_false_iff v) as Hf.
  assert (Hlenient :
            validate (Boolean false) v
            = if is_literal_bool v || Py.contains admissible_true v
                 || Py.contains admissible_false v
              then Ok tt
              else Invalid (mkValidationError v (VStr "can't be interpreted as boolean")
                              "Boolean")).
  { cbn [validate]. unfold Boolean_validate.
    destruct (is_literal_bool v), (Py.contains admissible_true v),
      (Py.contains admissible_false v); reflexivity. }
  assert (Hstrict :
            validate (Boolean true) v
            = if is_literal_bool v then Ok tt
              else Invalid (mkValidationError v (VStr "is not boolean") "Boolean")).
  { cbn [validate]. unfold Boolean_validate. destruct (is_literal_bool v); reflexivity. }
  split; [|split; [|split; [|split; [|split; [|split; [|split]]]]]].
  - rewrite Hlenient, <- Ht, <- Hf.
    destruct (is_literal_bool v), (Py.contains admissible_true v),
      (Py.contains admissible_false v); cbn [orb]; split; intros H;
      try reflexivity; try discriminate; try tauto.
    destruct H as [H|[H|H]]; discriminate.
  - rewrite Hlenient.
    destruct (is_literal_bool v || Py.contains admissible_true v
              || Py.contains admissible_false v); [now left | now right].
  - intros Hb strict. cbn [parse]. unfold Boolean_parse. now rewrite Hb.
  - intros Hb H strict. apply Hf in H. cbn [parse]. unfold Boolean_parse.
    now rewrite Hb, H.
  - intros Hb H strict. cbn [parse]. unfold Boolean_parse. rewrite Hb.
    destruct (Py.contains admissible_false v); [|reflexivity].
    exfalso. apply H, Hf. reflexivity.
  - rewrite Hstrict. destruct (is_literal_bool v); split; intros H;
      try reflexivity; discriminate.
  - rewrite Hstrict. destruct (is_literal_bool v); [now left | now right].
  - repeat split.
Qed.

Lemma C8_boolean_tokens_witness :
  is_literal_bool (VInt 0) = false /\ taken_for_false (VInt 0)
  /\ parse (Boolean false) (VInt 0) = Ok (VBool false).
Proof.
  assert (H : taken_for_false (VInt 0)).
  { right. left. exists (Num.of_int 0). split; reflexivity. }
  split; [reflexivity|]. split; [exact H|].
  exact (proj1 (proj2 (proj2 (proj2 (C8_boolean_tokens (VInt 0))))) eq_refl H false).
Defined.

(** C9, as stated, fails for the Boolean variant: [Boolean.__init__] has the
    single parameter [strict], so that a call with a [condition] keyword is a
    [TypeError], and an instance has no [condition] attribute: its
    [get_parsed_value] is its [parse]. *)
Lemma C9_boolean_takes_no_condition :
  bind_keywords CBoolean ["condition"] = Raise Py.TypeError
  /\ bind_keywords CBoolean ["strict"; "condition"] = Raise Py.TypeError
  /\ getattr_condition (Boolean true) = None
  /\ getattr_condition (Boolean false) = None
  /\ get_parsed_value (Boolean false) (VStr "yes") = parse (Boolean false) (VStr "yes").
Proof. repeat split. Qed.

(** C9, amended: the classes that can be called with a [condition] are
    [Type], [String], [RegexString], [Number], [Date] and [Datetime], that is
    every class except [Null], [Boolean], [Optional], [Any] and [Constant];
    their instances are the ones with a [condition] attribute.  For such an
    instance [get_parsed_value] evaluates the condition on the parsed value:
    when it raises, a [ValidationError] on the input value carries the first
    of the exception's [args], or the generic message when there is none;
    when it returns something false, the [ValidationError] carries the
    generic message; the trace is the name of the class. *)
Theorem C9_condition_option :
  (forall c,
      (exists keywords, In "condition" keywords /\ bind_keywords c keywords = Ok tt)
      <-> ~ In c [CNull; CBoolean; COptional; CAny; CConstant])
  /\ (forall t,
        In "condition" (init_params (class_of t))
        <-> exists condition, getattr_condition t = Some condition)
  /\ (forall t condition value parsed,
        getattr_condition t = Some condition ->
        parse t value = Ok parsed ->
        (forall args,
            condition parsed = Raises args ->
            get_parsed_value t value
            = Invalid (mkValidationError value
                         (match args with
                          | a :: _ => a
                          | [] => VStr "doesn't meet the validation criterion"
                          end)
                         (class_name (class_of t))))
        /\ (forall passes,
              condition parsed = Returns passes -> Py.truthy passes = false ->
              get_parsed_value t value
              = Invalid (mkValidationError value
                           (VStr "doesn't meet the validation criterion")
                           (class_name (class_of t))))).
Proof.
  split; [|split].
  - intros c. split.
    + intros [keywords [Hin Hb]] Hc. unfold bind_keywords in Hb.
      destruct (forallb _ keywords) eqn:E; [|discriminate].
      pose proof (proj1 (forallb_forall _ _) E _ Hin) as Hp.
      destruct Hc as [<-|[<-|[<-|[<-|[<-|[]]]]]]; discriminate Hp.
    + intros Hc. exists ["condition"]. split; [now left|].
      destruct c; try reflexivity; exfalso; apply Hc; cbn; tauto.
  - intros t. destruct t; cbn; split; intros H;
      try (eexists; reflexivity); try tauto;
      try (destruct H as [c H]; discriminate);
      repeat (destruct H as [H|H]; [discriminate H|]); contradiction.
  - intros t condition value parsed Hc Hp.
    unfold get_parsed_value. rewrite Hp. split.
    + intros args Ha.
      destruct t; cbn in Hc; try discriminate; injection Hc as ->;
        unfold get_parsed_value_after, Number_get_parsed_value, Type_get_parsed_value;
        cbn [getattr_condition bind]; rewrite Ha; reflexivity.
    + intros passes Ha Hf.
      destruct t; cbn in Hc; try discriminate; injection Hc as ->;
        unfold get_parsed_value_after, Number_get_parsed_value, Type_get_parsed_value;
        cbn [getattr_condition bind]; rewrite Ha, Hf; reflexivity.
Qed.

Lemma C9_condition_option_witness :
  get_parsed_value
    (String false (fun parsed => if Py.eq parsed (VStr "7") then Raises [VStr "no sevens"]
                                 else Returns (VBool true)))
    (VInt 7)
  = Invalid (mkValidationError (VInt 7) (VStr "no sevens") "String").
Proof.
  exact (proj1 (proj2 (proj2 C9_condition_option)
                  (String false
                     (fun parsed => if Py.eq parsed (VStr "7")
                                    then Raises [VStr "no sevens"]
                                    else Returns (VBool true)))
                  (fun parsed => if Py.eq parsed (VStr "7")
                                 then Raises [VStr "no sevens"]
                                 else Returns (VBool true))
                  (VInt 7) (VStr "7") eq_refl eq_refl)
               [VStr "no sevens"] eq_refl).
Defined.

(** *** The loop over the alternatives *)




Lemma Any_parse_loop (first : schema) (others : list schema) (value : obj) :
  parse (Any first others) value
  = first_of (fun t => clean t value)
      (fun errors =>
         Invalid (Any_invalid value (VStr "doesn't meet any allowed criterion") errors))
      [] (first :: others).
Proof. reflexivity. Qed.

(** Only a [ValidationError] sends the loop to the next alternative: any
    other exception of an alternative is the outcome of the loop. *)
Lemma first_of_first_raise {S A : Type} (attempt : S -> result A)
  (otherwise : list ValidationError -> result A) (before : list S) :
  forall seen t after x,
    (forall u, In u before -> exists e, attempt u = Invalid e) ->
    attempt t = Raise x ->
    first_of attempt otherwise seen (before ++ t :: after)%list = Raise x.
Proof.
  induction before as [|u before IH]; intros seen t after x Hb Ht; cbn [first_of app].
  - now rewrite Ht.
  - destruct (Hb u (or_introl eq_refl)) as [e He]. rewrite He.
    cbn [except_ValidationError]. apply IH; [|exact Ht].
    intros w Hw. apply Hb. now right.
Qed.



(** *** The first failing position *)

Lemma first_failure_app (a b : list failure) :
  first_failure (a ++ b)%list = (first_failure a ;;; first_failure b).
Proof. destruct a as [|[e|x] a]; reflexivity. Qed.

Lemma first_failure_of (r : result unit) : first_failure (failure_of r) = r.
Proof. destruct r as [[]| |]; reflexivity. Qed.

Lemma first_failure_retrace (f : ValidationError -> ValidationError) (l : list failure) :
  first_failure (map (retrace_failure f) l)
  = except_ValidationError (first_failure l) (fun e => Invalid (f e)).
Proof. destruct l as [|[e|x] l]; reflexivity. Qed.

Lemma find_filter {A : Type} (p : A -> bool) (l : list A) :
  find p l = match filter p l with [] => None | x :: _ => Some x end.
Proof.
  induction l as [|x l IH]; cbn [find filter]; [reflexivity|].
  destruct (p x); [reflexivity | exact IH].
Qed.

Lemma first_failure_at_key {S : Type} (f : S -> result unit) (g : S -> list failure)
  (k : string) (fields : list (string * S)) :
  Forall (fun kv => f (snd kv) = first_failure (g (snd kv))) fields ->
  at_key f k fields = first_failure (collect_at_key g k fields).
Proof.
  induction 1 as [|[k' sub] rest H _ IH]; cbn [at_key collect_at_key]; [reflexivity|].
  destruct (String.eqb k k'); [exact H | exact IH].
Qed.

Lemma first_failure_flat_map (f : string -> obj -> result unit)
  (g : string * obj -> list failure) (l : list (string * obj)) :
  (forall k v, f k v = first_failure (g (k, v))) ->
  for_items f l = first_failure (flat_map g l).
Proof.
  intros H. induction l as [|[k v] l IH]; cbn [for_items flat_map]; [reflexivity|].
  now rewrite first_failure_app, H, IH.
Qed.

Lemma first_failure_enumerate (f : nat -> obj -> result unit)
  (g : nat -> obj -> list failure) (l : list obj) :
  (forall i e, f i e = first_failure (g i e)) ->
  forall i, (for_enumerate f i l ;;; Ok tt) = first_failure (collect_enumerate g i l).
Proof.
  intros H. induction l as [|e l IH]; intros i; cbn [for_enumerate collect_enumerate];
    [reflexivity|].
  rewrite first_failure_app, <- H, <- IH.
  destruct (f i e); cbn [bind]; try reflexivity.
  destruct (for_enumerate f (S i) l); reflexivity.
Qed.

Lemma first_failure_slots {S : Type} (f : nat -> obj -> S -> result unit)
  (g : nat -> obj -> S -> list failure) (items : list S) :
  Forall (fun sub => forall i e, f i e sub = first_failure (g i e sub)) items ->
  forall i l, List.length items = List.length l ->
              for_schema_slots f i items l = first_failure (collect_slots g i items l).
Proof.
  induction 1 as [|sub rest H _ IH]; intros i l Hlen;
    cbn [for_schema_slots collect_slots]; [reflexivity|].
  destruct l as [|e l]; [discriminate|].
  rewrite first_failure_app, <- H, <- IH; [reflexivity|].
  now injection Hlen.
Qed.

Lemma _validate_first_failure (s : schema) :
  forall variant current_trace,
    _validate variant s current_trace
    = first_failure (failing_positions variant s current_trace).
Proof.
  induction s using schema_nested_ind
    with (Q := fun t => forall variant,
                   validate t variant = first_failure (failing_positions_type t variant));
    try (intros variant; cbn [validate failing_positions_type];
         now rewrite ?first_failure_of).
  - intros variant ct. cbn [_validate failing_positions].
    rewrite first_failure_retrace, <- IHs. reflexivity.
  - intros variant ct. cbn [_validate failing_positions].
    destruct variant; try reflexivity.
    unfold missing_key. rewrite find_filter.
    destruct (filter _ (map fst fields)) as [|k0 rest]; [|reflexivity].
    apply first_failure_flat_map. intros k v. cbn [fst snd].
    apply first_failure_at_key.
    eapply Forall_impl; [|exact H]. intros [k' sub] IH. cbn [snd] in *. apply IH.
  - intros variant ct. cbn [_validate failing_positions].
    destruct items as [|sub [|sub' rest]]; cbn [List.length Nat.ltb Nat.leb].
    + destruct (list_or_tuple variant); reflexivity.
    + destruct (list_or_tuple variant) as [elements|]; [|reflexivity].
      apply first_failure_enumerate. intros i e. inversion H; subst. auto.
    + reflexivity.
  - intros variant ct. cbn [_validate failing_positions].
    destruct (list_or_tuple variant) as [elements|]; [|reflexivity].
    destruct (List.length items =? List.length elements)%nat eqn:E; cbn [negb];
      [|reflexivity].
    apply Nat.eqb_eq in E. apply first_failure_slots; [|exact E].
    eapply Forall_impl; [|exact H]. intros sub IH i e. apply IH.
  - intros variant. cbn [validate failing_positions_type].
    destruct variant; try reflexivity;
      now rewrite first_failure_retrace, <- IHs.
Qed.

(** C4: the validate pass raises the first failing position of the input in
    the depth-first, left-to-right order ([failing_positions]: a node's own
    checks first, then the items of a mapping in the input's iteration
    order, the elements of a sequence by ascending index, the slots of a
    tuple by ascending slot): it succeeds exactly when there is no failing
    position and otherwise raises the first of them, whatever follows. *)
Theorem C4_first_failure_depth_first :
  forall variant schema current_trace,
    _validate variant schema current_trace
    = first_failure (failing_positions variant schema current_trace)
    /\ (_validate variant schema current_trace = Ok tt
        <-> failing_positions variant schema current_trace = [])
    /\ (forall e later,
          failing_positions variant schema current_trace = Fails e :: later ->
          _validate variant schema current_trace = Invalid e).
Proof.
  intros variant schema ct. rewrite _validate_first_failure.
  split; [reflexivity|]. split.
  - destruct (failing_positions variant schema ct) as [|[e|x] l]; cbn;
      split; intros H; try reflexivity; discriminate.
  - intros e later H. now rewrite H.
Qed.

Lemma C4_first_failure_depth_first_witness :
  _validate
    (VDict [("b", VList [VStr "x"; VStr "y"]); ("a", VStr "z")])
    (SDict [("a", SType Null); ("b", SList [SType Null])]) ""
  = Invalid (mkValidationError (VStr "x") (VStr "is not null")
               "Object(key:'b') --> List(index:0) --> Null").
Proof.
  exact (proj2 (proj2 (C4_first_failure_depth_first
                         (VDict [("b", VList [VStr "x"; VStr "y"]); ("a", VStr "z")])
                         (SDict [("a", SType Null); ("b", SList [SType Null])]) ""))
           _
           [Fails (mkValidationError (VStr "y") (VStr "is not null")
                     "Object(key:'b') --> List(index:1) --> Null");
            Fails (mkValidationError (VStr "z") (VStr "is not null")
                     "Object(key:'a') --> Null")]
           eq_refl).
Defined.

(** *** What a successful validate pass leaves for the parse pass *)

Lemma prefixed_Ok_inv {A : Type} (ct : string) (r : result A) (a : A) :
  prefixed ct r = Ok a -> r = Ok a.
Proof. destruct r; cbn; intros H; [exact H | discriminate | discriminate]. Qed.

Lemma bind_Ok_inv {A B : Type} (c : result A) (k : A -> result B) (b : B) :
  bind c k = Ok b -> exists a, c = Ok a /\ k a = Ok b.
Proof.
  destruct c as [a| |]; cbn [bind]; intros H; try discriminate. now exists a.
Qed.

Lemma seq_Ok_inv (c k : result unit) : (c ;;; k) = Ok tt -> c = Ok tt /\ k = Ok tt.
Proof. destruct c as [[]| |]; cbn [bind]; intros H; try discriminate. now split. Qed.

Lemma Type_get_parsed_value_Ok_inv (t : Type_) (v : obj) (r : result obj) (out : obj) :
  Type_get_parsed_value t v r = Ok out -> r = Ok out.
Proof.
  unfold Type_get_parsed_value. destruct r as [parsed| |]; cbn [bind]; try discriminate.
  destruct (getattr_condition t) as [c|]; [|exact (fun H => H)].
  destruct (c parsed) as [passes|args]; [|discriminate].
  destruct (negb (Py.truthy passes)); [discriminate | exact (fun H => H)].
Qed.

Lemma get_parsed_value_after_Ok_inv (t : Type_) (v : obj) (r : result obj) (out : obj) :
  get_parsed_value_after t v r = Ok out -> r = Ok out.
Proof.
  unfold get_parsed_value_after.
  destruct t; try apply Type_get_parsed_value_Ok_inv.
  unfold Number_get_parsed_value. intros H.
  apply bind_Ok_inv in H. destruct H as [parsed [Hp H]].
  apply Type_get_parsed_value_Ok_inv in Hp. subst r.
  apply bind_Ok_inv in H. destruct H as [[] [_ H]]; [discriminate|].
  apply bind_Ok_inv in H. destruct H as [[] [_ H]]; [discriminate|].
  exact H.
Qed.

Lemma unique_keys_lookup {A : Type} (l : list (string * A)) (k : string) (v : A) :
  unique_keys (map fst l) = true -> In (k, v) l -> Py.lookup k l = Some v.
Proof.
  induction l as [|[k' v'] l IH]; cbn [map fst unique_keys In Py.lookup]; [tauto|].
  intros Hu Hin. apply andb_prop in Hu. destruct Hu as [Hn Hu].
  destruct Hin as [Hin|Hin].
  - injection Hin as -> ->. now rewrite String.eqb_refl.
  - destruct (String.eqb k k') eqn:E; [|now apply IH].
    apply String.eqb_eq in E. subst k'. exfalso.
    assert (Hex : existsb (String.eqb k) (map fst l) = true).
    { apply existsb_exists. exists k. split; [|apply String.eqb_refl].
      apply in_map_iff. now exists (k, v). }
    rewrite Hex in Hn. discriminate.
Qed.

Lemma for_items_Ok_lookup (f : string -> obj -> result unit) (entries : list (string * obj))
  (k : string) (v : obj) :
  for_items f entries = Ok tt -> Py.lookup k entries = Some v -> f k v = Ok tt.
Proof.
  induction entries as [|[k' v'] entries IH]; cbn [for_items Py.lookup]; [discriminate|].
  intros H Hl. apply seq_Ok_inv in H. destruct H as [H1 H2].
  destruct (String.eqb k k') eqn:E; [|now apply IH].
  apply String.eqb_eq in E. subst k'. injection Hl as <-. exact H1.
Qed.

Lemma missing_key_None (fields : list (string * schema)) (entries : list (string * obj))
  (k : string) (sub : schema) :
  missing_key fields entries = None ->
  Py.lookup k fields = Some sub -> Py.lookup k entries = None ->
  is_Optional sub = true.
Proof.
  intros Hm Hs He. unfold missing_key in Hm.
  pose proof (find_none _ _ Hm k (lookup_Some_keys k sub fields Hs)) as H.
  cbn beta in H. rewrite Hs in H. apply has_key_lookup in He. rewrite He in H.
  cbn [negb andb] in H. now destruct (is_Optional sub).
Qed.

(** After the validate pass of a mapping, every field of the schema is
    either validated on the input's value for its key, or absent from the
    input and optional. *)
Lemma validated_field (fields : list (string * schema)) (entries : list (string * obj))
  (ct k : string) (sub : schema) :
  unique_keys (map fst fields) = true ->
  _validate (VDict entries) (SDict fields) ct = Ok tt ->
  In (k, sub) fields ->
  (exists v, Py.lookup k entries = Some v
             /\ _validate v sub (ct ++ Object_key k) = Ok tt)
  \/ (Py.lookup k entries = None /\ exists S', sub = SType (Optional S')).
Proof.
  intros Hu Hv Hin. pose proof (unique_keys_lookup fields k sub Hu Hin) as Hs.
  cbn [_validate] in Hv.
  destruct (missing_key fields entries) eqn:Hm; [discriminate|].
  destruct (Py.lookup k entries) as [v|] eqn:He.
  - left. exists v. split; [reflexivity|].
    pose proof (for_items_Ok_lookup _ entries k v Hv He) as H. cbn beta in H.
    rewrite at_key_lookup, Hs in H. exact H.
  - right. split; [reflexivity|].
    pose proof (missing_key_None fields entries k sub Hm Hs He) as Ho.
    destruct sub as [[]| | | |]; try discriminate. eexists. reflexivity.
Qed.


Lemma for_fields_total {S A : Type} (body : string -> S -> result A)
  (fs : list (string * S)) :
  (forall k sub, In (k, sub) fs -> exists a, body k sub = Ok a) ->
  exists d, for_fields body fs = Ok d.
Proof.
  induction fs as [|[k sub] fs IH]; intros H; cbn [for_fields].
  - now exists [].
  - destruct (H k sub (or_introl eq_refl)) as [a Ha].
    destruct IH as [d Hd]; [intros k' sub' Hin; apply H; now right|].
    rewrite Ha, Hd. cbn [bind]. now eexists.
Qed.





Lemma list_or_tuple_enumerate (variant : obj) (elements : list obj) :
  list_or_tuple variant = Some elements -> enumerate variant = Ok elements.
Proof. destruct variant; cbn; intros H; try discriminate; now injection H as ->. Qed.

Lemma except_Ok_inv {A : Type} (c : result A) (h : ValidationError -> ValidationError)
  (a : A) :
  except_ValidationError c (fun e => Invalid (h e)) = Ok a -> c = Ok a.
Proof. destruct c; cbn; intros H; [exact H | discriminate | discriminate]. Qed.








(** ** Further properties of the engine *)

Import Notions.

(** *** Patterns: the matcher and the language of a pattern *)

Lemma nullable_in_language (r : Re.re) : Re.nullable r = true <-> in_language r [].
Proof.
  split.
  - induction r; simpl; intros H; try discriminate.
    + constructor.
    + apply andb_true_iff in H as [Ha Hb].
      change (@nil ascii) with (@nil ascii ++ [])%list. constructor; auto.
    + apply orb_true_iff in H as [Ha | Hb]; [apply in_Alt_l | apply in_Alt_r]; auto.
    + constructor.
  - intros H. remember [] as l eqn:El. induction H; simpl; try discriminate; auto.
    + apply app_eq_nil in El as [-> ->]. rewrite IHin_language1, IHin_language2; auto.
    + rewrite IHin_language; auto.
    + rewrite IHin_language; auto. apply orb_true_r.
Qed.

Lemma deriv_in_language (r : Re.re) :
  forall c l, in_language (Re.deriv c r) l <-> in_language r (c :: l).
Proof.
  intros c l. split.
  - revert l. induction r as [| | |d|a IHa b IHb|a IHa b IHb|a IHa]; simpl; intros l H.
    + inversion H.
    + inversion H.
    + destruct (Text.is_digit c) eqn:E; inversion H; subst. now constructor.
    + destruct (Ascii.eqb c d) eqn:E; inversion H; subst.
      apply Ascii.eqb_eq in E as ->. constructor.
    + assert (Hseq : forall l, in_language (Re.Seq (Re.deriv c a) b) l ->
                               in_language (Re.Seq a b) (c :: l)).
      { intros l0 H0. inversion H0 as [| | |a' b' l1 l2 H1 H2| | | |]; subst.
        change (c :: l1 ++ l2)%list with ((c :: l1) ++ l2)%list. constructor; auto. }
      destruct (Re.nullable a) eqn:E; [|auto].
      inversion H as [| | | |a' b' l' H1|a' b' l' H1| |]; subst; [auto|].
      change (c :: l) with ([] ++ c :: l)%list. constructor; auto.
      now apply nullable_in_language.
    + inversion H; subst; [apply in_Alt_l | apply in_Alt_r]; auto.
    + inversion H as [| | |a' b' l1 l2 H1 H2| | | |]; subst.
      change (c :: l1 ++ l2)%list with ((c :: l1) ++ l2)%list. constructor; auto.
  - intros H. remember (c :: l) as cl eqn:E. revert c l E.
    induction H; intros x l' E; try discriminate.
    + injection E as -> <-. simpl. rewrite H. constructor.
    + injection E as -> <-. simpl. rewrite Ascii.eqb_refl. constructor.
    + simpl. destruct l1 as [|y l1].
      * simpl in E. subst l2.
        apply nullable_in_language in H. rewrite H. apply in_Alt_r. auto.
      * simpl in E. injection E as -> <-.
        destruct (Re.nullable a); [apply in_Alt_l|]; constructor; auto.
    + simpl. apply in_Alt_l. auto.
    + simpl. apply in_Alt_r. auto.
    + simpl. destruct l1 as [|y l1].
      * simpl in E. exact (IHin_language2 _ _ E).
      * simpl in E. injection E as -> <-. constructor; auto.
Qed.

Lemma full_in_language (l : list ascii) :
  forall r, Re.full r l = true <-> in_language r l.
Proof.
  unfold Re.full. induction l as [|c l IH]; intros r; simpl.
  - apply nullable_in_language.
  - rewrite IH. apply deriv_in_language.
Qed.

(** *** Numeric text *)

Lemma digit_code (c : ascii) : Text.is_digit c = true -> 48 <= Text.code c <= 57.
Proof. unfold Text.is_digit. intros H. apply andb_true_iff in H as [H1 H2]. lia. Qed.

Lemma digit_not_space (c : ascii) : Text.is_digit c = true -> FloatText.is_space c = false.
Proof.
  intros H. apply digit_code in H. unfold FloatText.is_space. cbv zeta.
  repeat (apply orb_false_iff; split); try apply andb_false_iff; lia.
Qed.

Lemma digit_neq (c d : ascii) :
  Text.is_digit c = true -> Text.is_digit d = false -> Ascii.eqb c d = false.
Proof.
  intros Hc Hd. destruct (Ascii.eqb_spec c d) as [->|]; [congruence | reflexivity].
Qed.

Lemma digit_lower (c : ascii) : Text.is_digit c = true -> FloatText.lower c = c.
Proof.
  intros H. apply digit_code in H. unfold FloatText.lower. cbv zeta.
  replace ((65 <=? Text.code c) && (Text.code c <=? 90)) with false; [reflexivity|].
  symmetry. apply andb_false_iff. lia.
Qed.

Lemma lstrip_keeps (c : ascii) (l : list ascii) :
  FloatText.is_space c = false -> FloatText.lstrip (c :: l) = c :: l.
Proof. intros H. cbn [FloatText.lstrip]. now rewrite H. Qed.

Lemma span_digits_app (ds tail : list ascii) :
  Forall (fun c => Text.is_digit c = true) ds ->
  match tail with [] => True | c :: _ => Text.is_digit c = false end ->
  FloatText.span_digits (ds ++ tail)%list = (ds, tail).
Proof.
  intros Hds Htail. induction Hds as [|c ds Hc Hds IH]; cbn [FloatText.span_digits app].
  - destruct tail as [|c tail]; cbn [FloatText.span_digits]; [reflexivity | now rewrite Htail].
  - now rewrite Hc, IH.
Qed.

Lemma drop_underscores_none (l : list ascii) :
  Forall (fun c => Ascii.eqb c "_" = false) l ->
  forall prev, FloatText.drop_underscores prev l = Some l.
Proof.
  induction 1 as [|c l Hc Hl IH]; intros prev; cbn [FloatText.drop_underscores];
    [reflexivity|].
  now rewrite Hc, IH.
Qed.

Lemma star_digits (r : Re.re) (l : list ascii) :
  in_language r l -> r = Re.Star Re.Digit -> Forall (fun c => Text.is_digit c = true) l.
Proof.
  induction 1 as [| | | | | | |a l1 l2 H1 _ H2 IH2]; intros E; try discriminate.
  - constructor.
  - injection E as ->. inversion H1; subst. constructor; auto.
Qed.

Lemma plus_digits (l : list ascii) :
  in_language (Re.Plus Re.Digit) l ->
  exists c ds, l = c :: ds /\ Forall (fun c => Text.is_digit c = true) (c :: ds).
Proof.
  unfold Re.Plus. intros H. inversion H as [| | |a b l1 l2 H1 H2| | | |]; subst.
  inversion H1; subst. exists c, l2. split; [reflexivity|].
  constructor; [assumption | exact (star_digits _ _ H2 eq_refl)].
Qed.

Lemma Number_pattern_shape (l : list ascii) :
  Re.full (Re.Seq (Re.Plus Re.Digit) (Re.Opt (Re.Seq (Re.Chr ".") (Re.Plus Re.Digit)))) l = true
  <-> exists ip fp, decimal_text l ip fp.
Proof.
  rewrite full_in_language. split.
  - intros H. inversion H as [| | |a b l1 l2 H1 H2| | | |]; subst.
    apply plus_digits in H1 as (c & ds & -> & Hds).
    inversion H2 as [| | | |a b l' H3|a b l' H3| |]; subst.
    + inversion H3 as [| | |a b l3 l4 H4 H5| | | |]; subst.
      inversion H4; subst.
      apply plus_digits in H5 as (c' & ds' & -> & Hds').
      exists (c :: ds), (c' :: ds'). repeat split; auto; try discriminate.
      right. split; [discriminate | reflexivity].
    + inversion H3; subst. exists (c :: ds), []. repeat split; auto; try discriminate.
      * constructor.
      * left. now rewrite app_nil_r.
  - assert (Hplus : forall ds, ds <> [] -> digits ds -> in_language (Re.Plus Re.Digit) ds).
    { intros ds Hne Hds. destruct Hds as [|c ds Hc Hds]; [congruence|].
      unfold Re.Plus. change (c :: ds) with ([c] ++ ds)%list.
      constructor; [now constructor|].
      clear Hne Hc. induction Hds as [|x ds Hx Hds IH]; [constructor|].
      change (x :: ds) with ([x] ++ ds)%list. constructor; [now constructor | exact IH]. }
    intros (ip & fp & Hne & Hip & Hfp & [[-> ->] | [Hfne ->]]).
    + rewrite <- (app_nil_r ip). constructor; [now apply Hplus|].
      apply in_Alt_r. constructor.
    + constructor; [now apply Hplus|]. apply in_Alt_l.
      change ("."%char :: fp) with (["."%char] ++ fp)%list.
      constructor; [constructor | now apply Hplus].
Qed.

Lemma digits_last (ds : list ascii) :
  ds <> [] -> digits ds -> exists init z, ds = (init ++ [z])%list /\ Text.is_digit z = true.
Proof.
  intros Hne Hds. destruct (exists_last Hne) as (init & z & ->).
  exists init, z. split; [reflexivity|].
  apply Forall_app in Hds as [_ Hz]. now inversion Hz.
Qed.

Lemma decimal_text_ends (l ip fp : list ascii) :
  decimal_text l ip fp ->
  (exists c rest, l = c :: rest /\ Text.is_digit c = true)
  /\ (exists init z, l = (init ++ [z])%list /\ Text.is_digit z = true)
  /\ Forall (fun c => Ascii.eqb c "_" = false) l.
Proof.
  intros (Hne & Hip & Hfp & Hl).
  assert (Hu : forall ds, digits ds -> Forall (fun c => Ascii.eqb c "_" = false) ds).
  { intros ds Hds. eapply Forall_impl; [|exact Hds].
    intros c Hc. now apply digit_neq. }
  destruct Hl as [[-> ->] | [Hfne ->]].
  - repeat split.
    + destruct Hip as [|c ip Hc Hip]; [congruence|]. now exists c, ip.
    + now apply digits_last.
    + now apply Hu.
  - repeat split.
    + destruct Hip as [|c ip Hc Hip]; [congruence|]. now exists c, (ip ++ "."%char :: fp)%list.
    + destruct (digits_last fp Hfne Hfp) as (init & z & -> & Hz).
      exists (ip ++ "."%char :: init)%list, z. split; [|exact Hz].
      now rewrite <- app_assoc.
    + apply Forall_app. split; [now apply Hu|]. constructor; [reflexivity | now apply Hu].
Qed.

Lemma strip_decimal_text (l ip fp : list ascii) :
  decimal_text l ip fp ->
  FloatText.strip l = l /\ FloatText.strip (l ++ ["010"%char])%list = l.
Proof.
  intros H. destruct (decimal_text_ends _ _ _ H) as ((c & rest & El & Hc) & (init & z & Ez & Hz) & _).
  unfold FloatText.strip.
  assert (Hrev : FloatText.lstrip (rev l) = rev l).
  { rewrite Ez, rev_app_distr. cbn [rev app]. apply lstrip_keeps. now apply digit_not_space. }
  split.
  - rewrite El at 1. rewrite lstrip_keeps by now apply digit_not_space.
    rewrite <- El, Hrev. apply rev_involutive.
  - rewrite El at 1. cbn [app]. rewrite lstrip_keeps by now apply digit_not_space.
    change (c :: rest ++ ["010"%char])%list with ((c :: rest) ++ ["010"%char])%list.
    rewrite <- El, rev_app_distr. cbn [rev app FloatText.lstrip].
    change (FloatText.is_space "010") with true. cbv iota.
    rewrite Hrev. apply rev_involutive.
Qed.

Lemma digits_val_nonneg (ds : list ascii) : digits ds -> forall acc, 0 <= acc ->
  0 <= fold_left (fun acc c => 10 * acc + Text.digit_val c) ds acc.
Proof.
  induction 1 as [|c ds Hc Hds IH]; intros acc Hacc; cbn [fold_left]; [assumption|].
  apply IH. apply digit_code in Hc. unfold Text.digit_val. lia.
Qed.

(** [float] of such a text is the correctly rounded value of the decimal. *)
Lemma parse_decimal_text (s : string) (l ip fp : list ascii) :
  decimal_text l ip fp ->
  FloatText.strip (Text.chars s) = l ->
  FloatText.parse s
  = Some (Num.round (Num.scale 10 (Text.digits_val (ip ++ fp)%list)
                               (- Z.of_nat (List.length fp)))).
Proof.
  intros H Hs.
  destruct (decimal_text_ends _ _ _ H) as ((c & rest & El & Hc) & _ & Hu).
  unfold FloatText.parse. rewrite Hs.
  assert (Hsign : FloatText.split_sign l = (false, l)).
  { rewrite El. cbn [FloatText.split_sign].
    rewrite (digit_neq c "-" Hc eq_refl), (digit_neq c "+" Hc eq_refl). reflexivity. }
  rewrite Hsign.
  assert (Hword : forall w, In w ["inf"; "infinity"; "nan"] ->
                            String.eqb (Text.of_chars (map FloatText.lower l)) w = false).
  { intros w Hw. rewrite El. cbn [map Text.of_chars string_of_list_ascii].
    rewrite (digit_lower c Hc).
    destruct Hw as [<-|[<-|[<-|[]]]]; cbn [String.eqb];
      [rewrite (digit_neq c "i" Hc eq_refl) | rewrite (digit_neq c "i" Hc eq_refl)
       | rewrite (digit_neq c "n" Hc eq_refl)]; reflexivity. }
  rewrite !Hword by (cbn; auto). cbn [orb].
  rewrite (drop_underscores_none l Hu).
  destruct H as (Hne & Hip & Hfp & Hl).
  assert (Hmag : FloatText.magnitude l
                 = Some (Num.scale 10 (Text.digits_val (ip ++ fp)%list)
                                   (- Z.of_nat (List.length fp)))).
  { unfold FloatText.magnitude.
    destruct Hl as [[-> ->] | [Hfne ->]].
    - rewrite <- (app_nil_r ip) at 1. rewrite (span_digits_app ip [] Hip I).
      destruct (ip ++ [])%list eqn:E; [now apply app_eq_nil in E as [-> _]|].
      cbn [FloatText.exponent]. reflexivity.
    - rewrite (span_digits_app ip ("."%char :: fp) Hip eq_refl).
      rewrite Ascii.eqb_refl.
      rewrite <- (app_nil_r fp) at 1. rewrite (span_digits_app fp [] Hfp I).
      destruct (ip ++ fp)%list eqn:E; [now apply app_eq_nil in E as [-> _]|].
      cbn [FloatText.exponent]. reflexivity. }
  rewrite Hmag. f_equal.
  assert (Hnn : 0 <= Text.digits_val (ip ++ fp)%list).
  { apply digits_val_nonneg; [apply Forall_app; now split | lia]. }
  unfold Num.round.
  set (q := Num.scale 10 _ _).
  assert (Hq : 0 <= Qnum q).
  { unfold q, Num.scale. destruct (- Z.of_nat (List.length fp)); cbn [Qnum]; lia. }
  destruct (Qnum q); try reflexivity. lia.
Qed.

Lemma matches_final_newline (r : Re.re) (s : string) :
  Re.matches r s = true
  <-> exists l, Re.full r l = true
                /\ (Text.chars s = l \/ Text.chars s = (l ++ ["010"%char])%list).
Proof.
  unfold Re.matches. cbv zeta. split.
  - intros H. apply orb_true_iff in H as [H|H].
    + exists (Text.chars s). auto.
    + destruct (rev (Text.chars s)) as [|c before] eqn:E; [discriminate|].
      apply andb_true_iff in H as [Hc H]. apply Ascii.eqb_eq in Hc as ->.
      exists (rev before). split; [exact H|]. right.
      rewrite <- (rev_involutive (Text.chars s)), E. reflexivity.
  - intros (l & H & [-> | ->]).
    + now rewrite H.
    + rewrite rev_app_distr. cbn [rev app]. rewrite rev_involutive, H.
      apply orb_true_r.
Qed.

(** X2: Number: what [validate] accepts as text, [parse] converts.  The text is
    a run of digits, possibly followed by a point and digits, a final
    newline apart; [float] takes it without [ValueError] to the correctly
    rounded value, and an integral result comes out as an [int]. *)
Theorem Number_accepted_text_converts :
  forall s,
    (Number_match s = true
     <-> exists l ip fp,
           decimal_text l ip fp
           /\ (Text.chars s = l \/ Text.chars s = (l ++ ["010"%char])%list))
    /\ (Number_match s = true ->
        exists ip fp,
          let x := Num.round (Num.scale 10 (Text.digits_val (ip ++ fp)%list)
                                        (- Z.of_nat (List.length fp))) in
          decimal_text (FloatText.strip (Text.chars s)) ip fp
          /\ float (VStr s) = Ok x
          /\ Number_parse (VStr s)
             = Ok (if Num.is_integer x then VInt (Num.int_of_float x) else VFloat x)).
Proof.
  intros s.
  assert (Hshape : Number_match s = true
     <-> exists l ip fp,
           decimal_text l ip fp
           /\ (Text.chars s = l \/ Text.chars s = (l ++ ["010"%char])%list)).
  { unfold Number_match. rewrite matches_final_newline. split.
    - intros (l & H & Hs). apply Number_pattern_shape in H as (ip & fp & H).
      now exists l, ip, fp.
    - intros (l & ip & fp & H & Hs). exists l. split; [|exact Hs].
      apply Number_pattern_shape. now exists ip, fp. }
  split; [exact Hshape|].
  intros H. apply Hshape in H as (l & ip & fp & H & Hs).
  assert (Hstrip : FloatText.strip (Text.chars s) = l).
  { destruct (strip_decimal_text _ _ _ H) as [H1 H2]. now destruct Hs as [-> | ->]. }
  exists ip, fp. cbv zeta. rewrite Hstrip. split; [exact H|].
  assert (Hf := parse_decimal_text s l ip fp H Hstrip).
  unfold Number_parse, float. rewrite Hf. cbn [bind]. split; [reflexivity|].
  now destruct (Num.is_integer _).
Qed.

Lemma Number_accepted_text_converts_witness :
  Number_match "12.50" = true
  /\ exists ip fp,
       let x := Num.round (Num.scale 10 (Text.digits_val (ip ++ fp)%list)
                                     (- Z.of_nat (List.length fp))) in
       decimal_text (FloatText.strip (Text.chars "12.50")) ip fp
       /\ float (VStr "12.50") = Ok x
       /\ Number_parse (VStr "12.50")
          = Ok (if Num.is_integer x then VInt (Num.int_of_float x) else VFloat x).
Proof.
  split; [reflexivity|].
  apply (proj2 (Number_accepted_text_converts "12.50")). reflexivity.
Defined.

(** *** Which exceptions leave the passes *)








Lemma lookup_In {A : Type} (k : string) (v : A) (l : list (string * A)) :
  Py.lookup k l = Some v -> In (k, v) l.
Proof.
  induction l as [|[k' v'] l IH]; cbn [Py.lookup]; [discriminate|].
  destruct (String.eqb_spec k k') as [<-|_].
  - intros H. injection H as ->. now left.
  - intros H. right. now apply IH.
Qed.







Lemma Number_match_float (s : string) :
  Number_match s = true -> exists x, FloatText.parse s = Some x.
Proof.
  unfold Number_match. rewrite matches_final_newline.
  intros (l & H & Hs). apply Number_pattern_shape in H as (ip & fp & H).
  eexists. apply (parse_decimal_text s l ip fp H).
  destruct (strip_decimal_text _ _ _ H) as [H1 H2]. now destruct Hs as [-> | ->].
Qed.





(** *** Tuples *)

Lemma for_schema_slots_Ok {S : Type} (f : nat -> obj -> S -> result unit) (items : list S) :
  forall i l,
    List.length items = List.length l ->
    (for_schema_slots f i items l = Ok tt <->
     forall j e sub, nth_error l j = Some e -> nth_error items j = Some sub ->
                     f (i + j)%nat e sub = Ok tt).
Proof.
  induction items as [|sub items IH]; intros i l Hlen.
  - split; [|reflexivity]. intros _ [|j] e sub _ H; discriminate H.
  - destruct l as [|e l]; [discriminate Hlen|]. injection Hlen as Hlen.
    cbn [for_schema_slots]. split.
    + intros H. apply seq_Ok_inv in H as [He H].
      intros [|j] x s Hx Hs; cbn in Hx, Hs.
      * injection Hx as <-. injection Hs as <-. now rewrite Nat.add_0_r.
      * rewrite Nat.add_succ_r. exact (proj1 (IH (Datatypes.S i) l Hlen) H j x s Hx Hs).
    + intros H. assert (He := H 0%nat e sub eq_refl eq_refl).
      rewrite Nat.add_0_r in He. rewrite He. cbn [bind].
      apply IH; [exact Hlen|]. intros j x s Hx Hs.
      assert (Hj := H (Datatypes.S j) x s Hx Hs). now rewrite Nat.add_succ_r in Hj.
Qed.

Lemma for_schema_slots_Invalid {S : Type} (f : nat -> obj -> S -> result unit)
  (items : list S) :
  forall i l n e sub err,
    nth_error l n = Some e -> nth_error items n = Some sub ->
    (forall j x s, (j < n)%nat -> nth_error l j = Some x -> nth_error items j = Some s ->
                   f (i + j)%nat x s = Ok tt) ->
    f (i + n)%nat e sub = Invalid err ->
    for_schema_slots f i items l = Invalid err.
Proof.
  induction items as [|s0 items IH]; intros i l n e sub err Hl Hi Hbefore He.
  - destruct n; discriminate.
  - destruct l as [|x l]; [destruct n; discriminate|].
    cbn [for_schema_slots]. destruct n as [|n].
    + cbn in Hl, Hi. injection Hl as ->. injection Hi as ->.
      rewrite Nat.add_0_r in He. now rewrite He.
    + assert (H0 := Hbefore 0%nat x s0 (Nat.lt_0_succ n) eq_refl eq_refl).
      rewrite Nat.add_0_r in H0. rewrite H0. cbn [bind].
      apply (IH (Datatypes.S i) l n e sub err Hl Hi).
      * intros j y s Hj Hy Hs.
        assert (H := Hbefore (Datatypes.S j) y s ltac:(lia) Hy Hs).
        now rewrite Nat.add_succ_r in H.
      * now rewrite Nat.add_succ_r in He.
Qed.

Lemma for_variant_slots_Ok {S A : Type} (f : nat -> obj -> S -> result A) (items : list S) :
  forall i l outs,
    List.length items = List.length l ->
    (for_variant_slots f i items l = Ok outs <->
     (List.length outs = List.length l /\
      forall j e sub, nth_error l j = Some e -> nth_error items j = Some sub ->
                      exists a, f (i + j)%nat e sub = Ok a /\ nth_error outs j = Some a)).
Proof.
  induction items as [|sub items IH]; intros i l outs Hlen.
  - destruct l; [|discriminate Hlen]. cbn [for_variant_slots]. split.
    + intros H. injection H as <-. split; [reflexivity|].
      intros [|j] e sub H; discriminate H.
    + intros [H _]. destruct outs; [reflexivity | discriminate].
  - destruct l as [|e l]; [discriminate Hlen|]. injection Hlen as Hlen.
    cbn [for_variant_slots]. split.
    + destruct (f i e sub) as [a| |] eqn:Ha; cbn [bind]; try discriminate.
      destruct (for_variant_slots f (Datatypes.S i) items l) as [r| |] eqn:Hr;
        cbn [bind]; try discriminate.
      intros H. injection H as <-.
      apply (IH _ _ _ Hlen) in Hr. destruct Hr as [Hl Hr].
      split; [cbn; now rewrite Hl|].
      intros [|j] x s Hx Hs; cbn in Hx, Hs.
      * injection Hx as <-. injection Hs as <-. exists a. rewrite Nat.add_0_r. now split.
      * destruct (Hr j x s Hx Hs) as [b [Hb Hn]]. exists b.
        rewrite Nat.add_succ_r. now split.
    + intros [Hl H].
      destruct outs as [|a outs]; [discriminate|].
      destruct (H 0%nat e sub eq_refl eq_refl) as [a' [Ha Hn]].
      rewrite Nat.add_0_r in Ha. cbn in Hn. injection Hn as ->.
      rewrite Ha. cbn [bind].
      assert (Hr : for_variant_slots f (Datatypes.S i) items l = Ok outs).
      { apply (IH _ _ _ Hlen). split; [now injection Hl|].
        intros j x s Hx Hs. destruct (H (Datatypes.S j) x s Hx Hs) as [b [Hb Hn]].
        exists b. rewrite Nat.add_succ_r in Hb. now split. }
      now rewrite Hr.
Qed.

(** X1: a tuple schema against a list or a tuple: an input of another length
    is refused at the node itself, too few or too many elements as the case
    may be; an input of the same length validates exactly when every
    element validates against the schema of its slot, the error of the
    first failing slot being raised under [Tuple(index:i)]; the parse pass
    returns a tuple, slot by slot, also for a list.  What is neither a list
    nor a tuple is refused. *)
Theorem Tuple_schema_by_slots :
  forall items variant current_trace,
    (list_or_tuple variant = None ->
     _validate variant (STuple items) current_trace
     = Invalid (mkValidationError variant (VStr "is not a list or tuple")
                  (current_trace ++ "Tuple")))
    /\ (forall elements,
          list_or_tuple variant = Some elements ->
          ((List.length elements < List.length items)%nat ->
           _validate variant (STuple items) current_trace
           = Invalid (mkValidationError variant
                        (VStr ("has too few elements (it requires "
                               ++ Text.of_nat (List.length items) ++ ")"))
                        (current_trace ++ "Tuple")))
          /\ ((List.length items < List.length elements)%nat ->
              _validate variant (STuple items) current_trace
              = Invalid (mkValidationError variant
                           (VStr ("has too many elements (it requires "
                                  ++ Text.of_nat (List.length items) ++ ")"))
                           (current_trace ++ "Tuple")))
          /\ (List.length items = List.length elements ->
              (_validate variant (STuple items) current_trace = Ok tt <->
               forall i e sub,
                 nth_error elements i = Some e -> nth_error items i = Some sub ->
                 _validate e sub (current_trace ++ Tuple_index i) = Ok tt)
              /\ (forall i e sub err,
                    nth_error elements i = Some e -> nth_error items i = Some sub ->
                    (forall j x s, (j < i)%nat ->
                                   nth_error elements j = Some x ->
                                   nth_error items j = Some s ->
                                   _validate x s (current_trace ++ Tuple_index j) = Ok tt) ->
                    _validate e sub "" = Invalid err ->
                    _validate variant (STuple items) current_trace
                    = Invalid (retrace (append (current_trace ++ Tuple_index i)) err))
              /\ (forall out,
                    _parse variant (STuple items) current_trace = Ok out <->
                    exists outs,
                      out = VTuple outs /\ List.length outs = List.length elements /\
                      forall i e sub,
                        nth_error elements i = Some e -> nth_error items i = Some sub ->
                        exists a, _parse e sub (current_trace ++ Tuple_index i) = Ok a
                                  /\ nth_error outs i = Some a))).
Proof.
  intros items variant ct. split.
  - intros H. cbn [_validate]. now rewrite H.
  - intros elements Hv. split; [|split].
    + intros Hlt. cbn [_validate]. rewrite Hv.
      replace (List.length items =? List.length elements)%nat with false
        by (symmetry; apply Nat.eqb_neq; lia).
      replace (List.length elements <? List.length items)%nat with true
        by (symmetry; apply Nat.ltb_lt; lia).
      reflexivity.
    + intros Hlt. cbn [_validate]. rewrite Hv.
      replace (List.length items =? List.length elements)%nat with false
        by (symmetry; apply Nat.eqb_neq; lia).
      replace (List.length elements <? List.length items)%nat with false
        by (symmetry; apply Nat.ltb_ge; lia).
      reflexivity.
    + intros Hlen.
      assert (Hval : _validate variant (STuple items) ct
                     = for_schema_slots
                         (fun i e sub => _validate e sub (ct ++ Tuple_index i))
                         0%nat items elements).
      { cbn [_validate]. rewrite Hv, Hlen, Nat.eqb_refl. reflexivity. }
      assert (Hpar : _parse variant (STuple items) ct
                     = l <- for_variant_slots
                              (fun i e sub => _parse e sub (ct ++ Tuple_index i))
                              0%nat items elements ;; Ok (VTuple l)).
      { cbn [_parse]. now rewrite (list_or_tuple_enumerate _ _ Hv). }
      split; [|split].
      * rewrite Hval.
        exact (for_schema_slots_Ok (fun i e sub => _validate e sub (ct ++ Tuple_index i))
                 items 0%nat elements Hlen).
      * intros i e sub err Hi Hs Hbefore He. rewrite Hval.
        apply (for_schema_slots_Invalid
                 (fun i e sub => _validate e sub (ct ++ Tuple_index i))
                 items 0%nat elements i e sub _ Hi Hs).
        -- exact Hbefore.
        -- cbn [Nat.add]. rewrite _validate_prefix, He. reflexivity.
      * intros out. rewrite Hpar. clear Hval Hpar. split.
        -- destruct (for_variant_slots _ 0%nat items elements) as [outs| |] eqn:E;
             try discriminate.
           cbn [bind]. intros H. injection H as <-.
           apply (for_variant_slots_Ok
                    (fun i e sub => _parse e sub (ct ++ Tuple_index i))
                    items 0%nat elements outs Hlen) in E.
           destruct E as [Hl E]. exists outs. split; [reflexivity|]. split; [exact Hl|].
           exact E.
        -- intros [outs [-> [Hl H]]].
           assert (E : for_variant_slots
                         (fun i e sub => _parse e sub (ct ++ Tuple_index i))
                         0%nat items elements = Ok outs).
           { apply (for_variant_slots_Ok
                      (fun i e sub => _parse e sub (ct ++ Tuple_index i))
                      items 0%nat elements outs Hlen).
             split; [exact Hl | exact H]. }
           now rewrite E.
Qed.

Lemma Tuple_schema_by_slots_witness :
  list_or_tuple (VList [VStr "butwait"; VInt 1000; VInt 1000])
  = Some [VStr "butwait"; VInt 1000; VInt 1000]
  /\ (List.length [SType (String true (init_condition None));
                   SType (Number VNone VNone false (init_condition None))]
      < List.length [VStr "butwait"; VInt 1000; VInt 1000])%nat
  /\ _validate (VList [VStr "butwait"; VInt 1000; VInt 1000])
       (STuple [SType (String true (init_condition None));
                SType (Number VNone VNone false (init_condition None))])
       "List(index:2) --> "
     = Invalid (mkValidationError (VList [VStr "butwait"; VInt 1000; VInt 1000])
                  (VStr ("has too many elements (it requires " ++ Text.of_nat 2 ++ ")"))
                  ("List(index:2) --> " ++ "Tuple")).
Proof.
  split; [reflexivity|]. split; [cbn; lia|].
  refine (proj1 (proj2 (proj2 (Tuple_schema_by_slots
                   [SType (String true (init_condition None));
                    SType (Number VNone VNone false (init_condition None))]
                   (VList [VStr "butwait"; VInt 1000; VInt 1000])
                   "List(index:2) --> ")
                 [VStr "butwait"; VInt 1000; VInt 1000] eq_refl)) _).
  cbn; lia.
Defined.

(** *** Bounds *)





(** *** Alternatives made of constants *)




(** X8: [Any(Number(), String())] on a text: a text of the numeric shape comes
    out as a number, never as the text; any other text comes out unchanged,
    through the second alternative. *)
Theorem Number_before_String_on_text :
  forall s,
    (Number_match s = true ->
     exists parsed,
       Number_parse (VStr s) = Ok parsed
       /\ match parsed with VInt _ | VFloat _ => True | _ => False end
       /\ get_parsed_value number_or_string (VStr s) = Ok parsed)
    /\ (Number_match s = false ->
        get_parsed_value number_or_string (VStr s) = Ok (VStr s)).
Proof.
  intros s.
  assert (Hloop : get_parsed_value number_or_string (VStr s)
                  = Type_get_parsed_value number_or_string (VStr s)
                      (first_of (fun t => clean t (VStr s))
                         (fun errors =>
                            Invalid (Any_invalid (VStr s)
                                       (VStr "doesn't meet any allowed criterion") errors))
                         [] [SType (Number VNone VNone false (init_condition None));
                             SType (String true (init_condition None))])).
  { unfold get_parsed_value, number_or_string. cbn [get_parsed_value_after].
    now rewrite Any_parse_loop. }
  rewrite Hloop. cbn [first_of]. split; intros Hm.
  - destruct (Number_match_float s Hm) as [x Hx].
    assert (Hp : Number_parse (VStr s)
                 = Ok (if Num.is_integer x then VInt (Num.int_of_float x) else VFloat x)).
    { unfold Number_parse, float. rewrite Hx. cbn [bind]. now destruct (Num.is_integer x). }
    exists (if Num.is_integer x then VInt (Num.int_of_float x) else VFloat x).
    split; [exact Hp|]. split; [now destruct (Num.is_integer x)|].
    unfold clean at 1. cbn [_validate validate prefixed _parse parse get_parsed_value_after].
    unfold Number_validate. rewrite Hm, Hp. reflexivity.
  - unfold clean. cbn [_validate validate prefixed _parse parse get_parsed_value_after].
    unfold Number_validate. rewrite Hm. reflexivity.
Qed.

Lemma Number_before_String_on_text_witness :
  (exists parsed,
      Number_parse (VStr "007") = Ok parsed
      /\ match parsed with VInt _ | VFloat _ => True | _ => False end
      /\ get_parsed_value number_or_string (VStr "007") = Ok parsed)
  /\ get_parsed_value number_or_string (VStr "0x7") = Ok (VStr "0x7").
Proof.
  split.
  - exact (proj1 (Number_before_String_on_text "007") eq_refl).
  - exact (proj2 (Number_before_String_on_text "0x7") eq_refl).
Defined.

(** *** What the validate pass does not look at *)

Lemma lookup_map {A B : Type} (g : A -> B) (k : string) (l : list (string * A)) :
  Py.lookup k (map (fun kv => (fst kv, g (snd kv))) l) = option_map g (Py.lookup k l).
Proof.
  induction l as [|[k' v] l IH]; cbn [map Py.lookup fst snd]; [reflexivity|].
  destruct (String.eqb k k'); [reflexivity | exact IH].
Qed.

Lemma at_key_map {S T : Type} (g : S -> T) (f : T -> result unit) (k : string)
  (l : list (string * S)) :
  at_key f k (map (fun kv => (fst kv, g (snd kv))) l) = at_key (fun sub => f (g sub)) k l.
Proof.
  induction l as [|[k' v] l IH]; cbn [map at_key fst snd]; [reflexivity|].
  destruct (String.eqb k k'); [reflexivity | exact IH].
Qed.

Lemma at_key_ext {S : Type} (f g : S -> result unit) (k : string) (l : list (string * S)) :
  Forall (fun kv => f (snd kv) = g (snd kv)) l -> at_key f k l = at_key g k l.
Proof.
  induction 1 as [|[k' v] l Hv Hl IH]; cbn [at_key]; [reflexivity|].
  destruct (String.eqb k k'); [exact Hv | exact IH].
Qed.

Lemma for_schema_slots_map {S T : Type} (g : S -> T) (f : nat -> obj -> T -> result unit)
  (items : list S) :
  forall i l,
    for_schema_slots f i (map g items) l
    = for_schema_slots (fun i e sub => f i e (g sub)) i items l.
Proof.
  induction items as [|sub items IH]; intros i l; cbn [map for_schema_slots];
    [reflexivity|].
  destruct l as [|e l]; [reflexivity|]. now rewrite IH.
Qed.

Lemma for_schema_slots_ext {S : Type} (f g : nat -> obj -> S -> result unit)
  (items : list S) :
  Forall (fun sub => forall i e, f i e sub = g i e sub) items ->
  forall i l, for_schema_slots f i items l = for_schema_slots g i items l.
Proof.
  induction 1 as [|sub items Hs Hi IH]; intros i l; cbn [for_schema_slots];
    [reflexivity|].
  destruct l as [|e l]; [reflexivity|]. now rewrite Hs, IH.
Qed.

Lemma is_Optional_unconditioned (s : schema) :
  is_Optional (unconditioned s) = is_Optional s.
Proof. destruct s as [[]| | | |]; reflexivity. Qed.

Lemma missing_key_unconditioned (fields : list (string * schema))
  (entries : list (string * obj)) :
  missing_key (map (fun kv => (fst kv, unconditioned (snd kv))) fields) entries
  = missing_key fields entries.
Proof.
  unfold missing_key. rewrite map_map. cbn [fst].
  apply find_ext. intros k _. rewrite lookup_map.
  destruct (Py.lookup k fields) as [sub|]; cbn [option_map]; [|reflexivity].
  now rewrite is_Optional_unconditioned.
Qed.

(** X9: the validate pass never looks at a condition or at a bound: it does
    the same on the schema with every condition replaced by the default and
    every bound removed, for every input and trace. *)
Theorem validate_ignores_conditions_and_bounds :
  forall schema variant current_trace,
    _validate variant (unconditioned schema) current_trace
    = _validate variant schema current_trace.
Proof.
  intros s. induction s using schema_nested_ind
    with (Q := fun t => forall value, validate (unconditioned_type t) value = validate t value).
  - intros variant ct. cbn [unconditioned _validate]. now rewrite IHs.
  - intros variant ct. cbn [unconditioned _validate].
    destruct variant; try reflexivity.
    rewrite missing_key_unconditioned.
    destruct (missing_key fields entries); [reflexivity|].
    apply for_items_ext. intros k v _. rewrite at_key_map.
    apply at_key_ext. eapply Forall_impl; [|exact H].
    intros kv Hkv. apply Hkv.
  - intros variant ct. cbn [unconditioned _validate]. rewrite length_map.
    destruct items as [|sub rest]; [reflexivity|]. cbn [map].
    inversion H as [|? ? Hsub _]; subst.
    destruct (1 <? _)%nat; [reflexivity|].
    destruct (list_or_tuple variant); [|reflexivity].
    f_equal. apply for_enumerate_ext. intros j e _. apply Hsub.
  - intros variant ct. cbn [unconditioned _validate]. rewrite length_map.
    destruct (list_or_tuple variant) as [elements|]; [|reflexivity].
    destruct (negb _); [reflexivity|].
    rewrite for_schema_slots_map. apply for_schema_slots_ext.
    eapply Forall_impl; [|exact H]. intros sub Hsub i e. apply Hsub.
  - reflexivity.
  - reflexivity.
  - reflexivity.
  - reflexivity.
  - reflexivity.
  - reflexivity.
  - reflexivity.
  - reflexivity.
  - reflexivity.
  - intros value. cbn [unconditioned_type validate]. destruct value; try reflexivity;
      now rewrite IHs.
  - reflexivity.
  - reflexivity.
Qed.

(** *** Cleaning what has been cleaned *)

Lemma for_fields_Forall2 {S A : Type} (body : string -> S -> result A)
  (fs : list (string * S)) :
  forall d,
    for_fields body fs = Ok d <->
    Forall2 (fun kv ka => fst kv = fst ka /\ body (fst kv) (snd kv) = Ok (snd ka)) fs d.
Proof.
  induction fs as [|[k sub] fs IH]; intros d; cbn [for_fields].
  - split.
    + intros H. injection H as <-. constructor.
    + intros H. now inversion H.
  - split.
    + destruct (body k sub) as [a| |] eqn:Ea; cbn [bind]; try discriminate.
      destruct (for_fields body fs) as [r| |] eqn:Er; cbn [bind]; try discriminate.
      intros H. injection H as <-. constructor; [now split|]. now apply IH.
    + intros H. inversion H as [|? [k' a] ? d' [Hk Ha] Hrest]; subst.
      cbn [fst snd] in Hk, Ha. subst k'. rewrite Ha. cbn [bind].
      apply IH in Hrest. now rewrite Hrest.
Qed.

Lemma Forall2_impl_In {A B : Type} (R R' : A -> B -> Prop) (l : list A) (l' : list B) :
  Forall2 R l l' ->
  (forall x y, In x l -> In y l' -> R x y -> R' x y) ->
  Forall2 R' l l'.
Proof.
  induction 1 as [|x y l l' Hxy Hl IH]; intros H; constructor.
  - apply H; [now left | now left | exact Hxy].
  - apply IH. intros a b Ha Hb. apply H; now right.
Qed.

Lemma Forall2_In_r {A B : Type} (R : A -> B -> Prop) (l : list A) (l' : list B) (y : B) :
  Forall2 R l l' -> In y l' -> exists x, In x l /\ R x y.
Proof.
  induction 1 as [|x y' l l' Hxy Hl IH]; intros Hin; [contradiction|].
  destruct Hin as [<-|Hin].
  - exists x. split; [now left | exact Hxy].
  - destruct (IH Hin) as (x' & Hx' & HR). exists x'. split; [now right | exact HR].
Qed.

Lemma for_items_Ok_all (f : string -> obj -> result unit) (l : list (string * obj)) :
  (forall k v, In (k, v) l -> f k v = Ok tt) -> for_items f l = Ok tt.
Proof.
  induction l as [|[k v] l IH]; intros H; cbn [for_items]; [reflexivity|].
  rewrite (H k v) by now left. cbn [bind]. apply IH. intros k' v' Hin. apply H. now right.
Qed.

Lemma find_none {A : Type} (p : A -> bool) (l : list A) :
  (forall x, In x l -> p x = false) -> find p l = None.
Proof.
  induction l as [|x l IH]; intros H; cbn [find]; [reflexivity|].
  rewrite (H x) by now left. apply IH. intros y Hy. apply H. now right.
Qed.

Lemma Type_get_parsed_value_other_input (t : Type_) (v v' parsed out : obj) :
  Type_get_parsed_value t v (Ok parsed) = Ok out ->
  Type_get_parsed_value t v' (Ok parsed) = Ok out.
Proof.
  unfold Type_get_parsed_value. cbn [bind].
  destruct (getattr_condition t) as [c|]; [|exact (fun H => H)].
  destruct (c parsed); [|discriminate]. destruct (negb _); [discriminate|].
  exact (fun H => H).
Qed.

Lemma stable_again (s : schema) :
  forall variant ct ct' out,
    well_formed s = true -> stable s = true ->
    _validate variant s ct = Ok tt ->
    _parse variant s ct' = Ok out ->
    (forall t, _validate out s t = Ok tt) /\ (forall t, _parse out s t = Ok out).
Proof.
  induction s using schema_nested_ind
    with (Q := fun t => forall value out,
                   well_formed_type t = true -> stable_type t = true ->
                   validate t value = Ok tt ->
                   get_parsed_value t value = Ok out ->
                   validate t out = Ok tt /\ get_parsed_value t out = Ok out);
    try (intros value out Hwf Hs; discriminate Hs).
  - (* an instance of a class *)
    intros variant ct ct' out Hwf Hs Hv Hp.
    cbn [_validate] in Hv. apply prefixed_Ok_inv in Hv.
    cbn [_parse] in Hp. apply prefixed_Ok_inv in Hp.
    destruct (IHs variant out Hwf Hs Hv Hp) as [H1 H2].
    split; intros t0; [cbn [_validate]; now rewrite H1|].
    cbn [_parse]. fold (get_parsed_value t out). now rewrite H2.
  - (* a mapping *)
    intros variant ct ct' out Hwf Hs Hv Hp.
    destruct variant; try discriminate Hv.
    cbn [well_formed] in Hwf. apply andb_prop in Hwf as [Hu Hwf].
    cbn [stable] in Hs.
    cbn [_parse] in Hp. apply bind_Ok_inv in Hp as (d & Hd & Hp). injection Hp as <-.
    assert (Hkeys := for_fields_keys _ _ _ Hd).
    apply for_fields_Forall2 in Hd.
    assert (Hud : unique_keys (map fst d) = true) by now rewrite Hkeys.
    assert (Hagain :
      Forall2 (fun kv ka =>
                 fst kv = fst ka
                 /\ (forall t, _validate (snd ka) (snd kv) t = Ok tt)
                 /\ (forall t, _parse (snd ka) (snd kv) t = Ok (snd ka))) fields d).
    { eapply Forall2_impl_In; [exact Hd|].
      intros [k sub] [k' a] Hin _ [Hk Hb]. cbn [fst snd] in *. subst k'.
      split; [reflexivity|].
      assert (Hsub := proj1 (Forall_forall _ _) H (k, sub) Hin). cbn [snd] in Hsub.
      assert (Hwsub := proj1 (forallb_forall _ _) Hwf (k, sub) Hin). cbn [snd] in Hwsub.
      assert (Hssub := proj1 (forallb_forall _ _) Hs (k, sub) Hin). cbn [snd] in Hssub.
      cbn [get] in Hb.
      destruct (validated_field fields entries ct k sub Hu Hv Hin)
        as [[v [He Hvs]]|[He [S' ->]]]; rewrite He in Hb; cbn [bind] in Hb.
      - exact (Hsub v _ _ a Hwsub Hssub Hvs Hb).
      - exact (Hsub VNone "" _ a Hwsub Hssub eq_refl Hb). }
    split; intros t0.
    + cbn [_validate].
      assert (Hm : missing_key fields d = None).
      { unfold missing_key. apply find_none. intros k Hk.
        rewrite <- Hkeys in Hk. apply lookup_In_keys in Hk as [v Hv'].
        unfold Py.has_key. now rewrite Hv'. }
      rewrite Hm. apply for_items_Ok_all. intros k a Hin.
      destruct (Forall2_In_r _ _ _ _ Hagain Hin) as ([k' sub] & Hin' & Hk & Hva & _).
      cbn [fst snd] in *. subst k'.
      rewrite at_key_lookup, (unique_keys_lookup fields k sub Hu Hin'). apply Hva.
    + cbn [_parse].
      match goal with
      | |- bind (for_fields ?body fields) _ = _ =>
          assert (Hd' : for_fields body fields = Ok d)
      end.
      { apply for_fields_Forall2. eapply Forall2_impl_In; [exact Hagain|].
        intros [k sub] [k' a] _ Hin (Hk & _ & Hpa). cbn [fst snd] in *. subst k'.
        split; [reflexivity|]. cbn [get].
        rewrite (unique_keys_lookup d k a Hud Hin). cbn [bind]. apply Hpa. }
      now rewrite Hd'.
  - (* a sequence *)
    intros variant ct ct' out Hwf Hs Hv Hp. cbn [_validate] in Hv.
    destruct items as [|sub [|sub' rest]]; cbn [List.length Nat.ltb Nat.leb] in Hv;
      [| |discriminate].
    + cbn [_parse] in Hp. injection Hp as <-. split; reflexivity.
    + destruct (list_or_tuple variant) as [elements|] eqn:El; [|discriminate].
      apply bind_Ok_inv in Hv as (us & Hv & _).
      cbn [_parse] in Hp. rewrite (list_or_tuple_enumerate _ _ El) in Hp.
      cbn [bind] in Hp. apply bind_Ok_inv in Hp as (l & Hl & Hp). injection Hp as <-.
      cbn [well_formed forallb] in Hwf. apply andb_prop in Hwf as [Hwsub _].
      cbn [stable forallb] in Hs. apply andb_prop in Hs as [Hssub _].
      inversion H as [|? ? Hsub _]; subst.
      apply for_enumerate_Ok in Hv as [_ Hv]. apply for_enumerate_Ok in Hl as [Hlen Hl].
      assert (Hall : forall j a, nth_error l j = Some a ->
                       (forall t, _validate a sub t = Ok tt)
                       /\ (forall t, _parse a sub t = Ok a)).
      { intros j a Hj.
        assert (Hlt : (j < List.length elements)%nat).
        { rewrite <- Hlen. apply nth_error_Some. congruence. }
        destruct (nth_error elements j) as [e|] eqn:Ee;
          [|apply nth_error_None in Ee; lia].
        destruct (Hv j e Ee) as ([] & Hve & _).
        destruct (Hl j e Ee) as (a' & Hpe & Ha'). rewrite Hj in Ha'. injection Ha' as <-.
        exact (Hsub e _ _ a Hwsub Hssub Hve Hpe). }
      split; intros t0.
      * cbn [_validate List.length Nat.ltb Nat.leb list_or_tuple].
        assert (E : for_enumerate (fun i e => _validate e sub (t0 ++ List_index i))
                      0%nat l = Ok (map (fun _ => tt) l)).
        { apply for_enumerate_Ok. split; [apply length_map|].
          intros j a Hj. exists tt. split; [apply (Hall j a Hj)|].
          rewrite nth_error_map, Hj. reflexivity. }
        now rewrite E.
      * cbn [_parse enumerate bind].
        assert (E : for_enumerate (fun i e => _parse e sub (t0 ++ List_index i))
                      0%nat l = Ok l).
        { apply for_enumerate_Ok. split; [reflexivity|].
          intros j a Hj. exists a. split; [apply (Hall j a Hj) | exact Hj]. }
        now rewrite E.
  - (* a tuple *)
    intros variant ct ct' out Hwf Hs Hv Hp. cbn [_validate] in Hv.
    destruct (list_or_tuple variant) as [elements|] eqn:El; [|discriminate].
    destruct (List.length items =? List.length elements)%nat eqn:E; cbn [negb] in Hv;
      [|discriminate].
    apply Nat.eqb_eq in E.
    cbn [_parse] in Hp. rewrite (list_or_tuple_enumerate _ _ El) in Hp.
    cbn [bind] in Hp. apply bind_Ok_inv in Hp as (l & Hl & Hp). injection Hp as <-.
    cbn [well_formed] in Hwf. cbn [stable] in Hs.
    assert (Hv' := proj1 (for_schema_slots_Ok
                            (fun i e sub => _validate e sub (ct ++ Tuple_index i))
                            items 0%nat elements E) Hv).
    clear Hv. rename Hv' into Hv.
    destruct (proj1 (for_variant_slots_Ok
                       (fun i e sub => _parse e sub (ct' ++ Tuple_index i))
                       items 0%nat elements l E) Hl) as [Hlen Hl'].
    clear Hl. rename Hl' into Hl.
    assert (E' : List.length items = List.length l) by congruence.
    assert (Hall : forall j a sub, nth_error l j = Some a -> nth_error items j = Some sub ->
                     (forall t, _validate a sub t = Ok tt)
                     /\ (forall t, _parse a sub t = Ok a)).
    { intros j a sub Hj Hi.
      assert (Hlt : (j < List.length elements)%nat).
      { rewrite <- Hlen. apply nth_error_Some. congruence. }
      destruct (nth_error elements j) as [e|] eqn:Ee;
        [|apply nth_error_None in Ee; lia].
      assert (Hve := Hv j e sub Ee Hi).
      destruct (Hl j e sub Ee Hi) as (a' & Hpe & Ha'). rewrite Hj in Ha'.
      injection Ha' as <-.
      assert (Hin := nth_error_In _ _ Hi).
      exact (proj1 (Forall_forall _ _) H sub Hin e _ _ a
               (proj1 (forallb_forall _ _) Hwf sub Hin)
               (proj1 (forallb_forall _ _) Hs sub Hin) Hve Hpe). }
    split; intros t0.
    + cbn [_validate list_or_tuple]. rewrite E', Nat.eqb_refl. cbn [negb].
      apply (for_schema_slots_Ok
               (fun i e sub => _validate e sub (t0 ++ Tuple_index i)) items 0%nat l E').
      intros j a sub Hj Hi. apply (Hall j a sub Hj Hi).
    + cbn [_parse enumerate bind].
      assert (R : for_variant_slots (fun i e sub => _parse e sub (t0 ++ Tuple_index i))
                    0%nat items l = Ok l).
      { apply (for_variant_slots_Ok
                 (fun i e sub => _parse e sub (t0 ++ Tuple_index i)) items 0%nat l l E').
        split; [reflexivity|].
        intros j a sub Hj Hi. exists a. split; [apply (Hall j a sub Hj Hi) | exact Hj]. }
      now rewrite R.
  - (* any other object *)
    intros variant ct ct' out Hwf Hs Hv. discriminate Hv.
  - (* Type *)
    intros value out _ _ _ Hp. split; [reflexivity|].
    unfold get_parsed_value in *. cbn [get_parsed_value_after parse] in *.
    assert (E := Type_get_parsed_value_Ok_inv _ _ _ _ Hp). injection E as ->.
    exact Hp.
  - (* String *)
    intros value out _ _ _ Hp.
    unfold get_parsed_value in *. cbn [get_parsed_value_after parse] in *.
    unfold String_parse in *.
    assert (E := Type_get_parsed_value_Ok_inv _ _ _ _ Hp). injection E as <-.
    split; [cbn [validate]; unfold String_validate; now rewrite andb_false_r|].
    cbn [Fmt.str]. exact (Type_get_parsed_value_other_input _ _ _ _ _ Hp).
  - (* RegexString *)
    intros value out _ _ Hv Hp.
    unfold get_parsed_value in *. cbn [get_parsed_value_after parse] in *.
    assert (E := Type_get_parsed_value_Ok_inv _ _ _ _ Hp). injection E as ->.
    split; [exact Hv | exact Hp].
  - (* Null *)
    intros value out _ _ Hv Hp. injection Hp as <-. split; [exact Hv | reflexivity].
  - (* Boolean *)
    intros value out _ _ _ Hp.
    unfold get_parsed_value, get_parsed_value_after, Type_get_parsed_value in Hp.
    cbn [parse getattr_condition] in Hp. unfold Boolean_parse in Hp.
    assert (Hb : exists b, out = VBool b).
    { destruct (is_literal_bool value) eqn:Eb.
      - injection Hp as <-. destruct value; try discriminate Eb. now eexists.
      - destruct (Py.contains admissible_false value); injection Hp as <-; now eexists. }
    destruct Hb as [b ->]. split; reflexivity.
  - (* Optional *)
    intros value out Hwf Hs Hv Hp.
    unfold get_parsed_value, get_parsed_value_after, Type_get_parsed_value in *.
    cbn [getattr_condition] in *.
    apply bind_Ok_inv in Hp as (o & Hp & Eo). injection Eo as ->.
    cbn [well_formed_type] in Hwf. cbn [stable_type] in Hs.
    assert (Hinner : out = VNone
                     \/ (forall t, _validate out s t = Ok tt)
                        /\ (forall t, _parse out s t = Ok out)).
    { cbn [validate parse] in Hv, Hp.
      destruct value;
        try (right; apply except_Ok_inv in Hv; apply except_Ok_inv in Hp;
             exact (IHs _ _ _ _ Hwf Hs Hv Hp)).
      left. now injection Hp. }
    destruct Hinner as [-> | [H1 H2]]; [split; reflexivity|].
    destruct out; [split; reflexivity | ..];
      (split; [cbn [validate]; now rewrite H1 | cbn [parse]; now rewrite H2]).
  - (* Constant *)
    intros value out _ _ Hv Hp. injection Hp as <-. split; [exact Hv | reflexivity].
Qed.

(** X11: cleaning the output of [clean] again.  On a schema without [Number],
    [Date], [Datetime] and alternatives, whatever the conditions, the output
    is accepted again and comes out unchanged.  The output of [Date] and of
    [Datetime] is never accepted again: it is a date object, and [validate]
    matches a pattern against text. *)
Theorem clean_again :
  (forall schema variant out,
      well_formed schema = true -> stable schema = true ->
      clean schema variant = Ok out ->
      clean schema out = Ok out)
  /\ (forall c variant out,
        clean (SType (Date c)) variant = Ok out ->
        clean (SType (Date c)) out
        = Invalid (mkValidationError out (VStr ("doesn't match pattern " ++ Date_pattern))
                     "Date"))
  /\ (forall c variant out,
        clean (SType (Datetime c)) variant = Ok out ->
        clean (SType (Datetime c)) out
        = Invalid (mkValidationError out (VStr ("doesn't match pattern " ++ Datetime_pattern))
                     "Datetime")).
Proof.
  split; [|split].
  - intros schema variant out Hwf Hs Hc. unfold clean in *.
    apply bind_Ok_inv in Hc as ([] & Hv & Hp).
    destruct (stable_again schema variant "" "" out Hwf Hs Hv Hp) as [H1 H2].
    now rewrite H1, H2.
  - intros c variant out Hc. unfold clean in Hc.
    apply bind_Ok_inv in Hc as ([] & _ & Hp).
    cbn [_parse] in Hp. apply prefixed_Ok_inv, get_parsed_value_after_Ok_inv in Hp.
    cbn [parse] in Hp. unfold Date_parse in Hp.
    destruct variant; try discriminate Hp.
    destruct (Strptime.strptime s Date_format); [|discriminate].
    injection Hp as <-. reflexivity.
  - intros c variant out Hc. unfold clean in Hc.
    apply bind_Ok_inv in Hc as ([] & _ & Hp).
    cbn [_parse] in Hp. apply prefixed_Ok_inv, get_parsed_value_after_Ok_inv in Hp.
    cbn [parse] in Hp. unfold Datetime_parse in Hp.
    destruct variant; try discriminate Hp.
    destruct (find _ _) as [[parsed|]|]; try discriminate.
    injection Hp as <-. reflexivity.
Qed.

Lemma clean_again_witness :
  clean plain_schema plain_input
  = Ok (VDict [("a", VStr "x"); ("b", VList [VBool true; VBool false]); ("c", VNone)])
  /\ clean plain_schema
       (VDict [("a", VStr "x"); ("b", VList [VBool true; VBool false]); ("c", VNone)])
     = Ok (VDict [("a", VStr "x"); ("b", VList [VBool true; VBool false]); ("c", VNone)]).
Proof.
  split; [reflexivity|].
  exact (proj1 clean_again plain_schema plain_input _ eq_refl eq_refl eq_refl).
Defined.

(** *** Keys of the input that the schema does not list *)

Lemma for_fields_ext_In {S A : Type} (f g : string -> S -> result A) (l : list (string * S)) :
  (forall k sub, In (k, sub) l -> f k sub = g k sub) -> for_fields f l = for_fields g l.
Proof.
  induction l as [|[k sub] l IH]; intros H; cbn [for_fields]; [reflexivity|].
  rewrite (H k sub) by now left. rewrite IH; [reflexivity|].
  intros k' sub' Hin. apply H. now right.
Qed.

Lemma has_key_In {A : Type} (k : string) (v : A) (l : list (string * A)) :
  In (k, v) l -> Py.has_key k l = true.
Proof.
  intros Hin. unfold Py.has_key.
  destruct (lookup_In_keys k l) as [x ->]; [|reflexivity].
  apply in_map_iff. now exists (k, v).
Qed.

Lemma missing_key_filter (fields : list (string * schema)) (entries : list (string * obj)) :
  missing_key fields (filter (fun kv => Py.has_key (fst kv) fields) entries)
  = missing_key fields entries.
Proof.
  unfold missing_key. apply find_ext. intros k Hk.
  apply lookup_In_keys in Hk as [sub Hsub]. apply lookup_In in Hsub.
  unfold Py.has_key at 1 3.
  now rewrite (lookup_filter_schema_keys fields entries k (has_key_In k sub fields Hsub)).
Qed.

(** X12: keys of the input that the schema does not list never count: dropping
    them from the input changes neither what the parse pass does nor, when
    every required key is there, what [clean] does, error included; in any
    case [clean] returns the same value with and without them. *)
Theorem unlisted_keys_do_not_count :
  forall fields entries,
    let kept := filter (fun kv => Py.has_key (fst kv) fields) entries in
    (forall current_trace,
        _parse (VDict entries) (SDict fields) current_trace
        = _parse (VDict kept) (SDict fields) current_trace)
    /\ (missing_key fields entries = None ->
        clean (SDict fields) (VDict entries) = clean (SDict fields) (VDict kept))
    /\ (forall out,
          clean (SDict fields) (VDict entries) = Ok out
          <-> clean (SDict fields) (VDict kept) = Ok out).
Proof.
  intros fields entries kept.
  assert (Hparse : forall ct, _parse (VDict entries) (SDict fields) ct
                              = _parse (VDict kept) (SDict fields) ct).
  { intros ct. cbn [_parse]. f_equal. apply for_fields_ext_In.
    intros k sub Hin. cbn [get]. unfold kept.
    now rewrite (lookup_filter_schema_keys fields entries k (has_key_In k sub fields Hin)). }
  assert (Hval : missing_key fields entries = None ->
                 _validate (VDict entries) (SDict fields) ""
                 = _validate (VDict kept) (SDict fields) "").
  { intros Hm. cbn [_validate]. unfold kept. rewrite missing_key_filter, Hm.
    symmetry. apply for_items_filter. intros k v Hk. cbn [fst] in Hk.
    rewrite at_key_lookup. unfold Py.has_key in Hk.
    now destruct (Py.lookup k fields). }
  assert (Hclean : missing_key fields entries = None ->
                   clean (SDict fields) (VDict entries) = clean (SDict fields) (VDict kept)).
  { intros Hm. unfold clean. now rewrite (Hval Hm), Hparse. }
  split; [exact Hparse|]. split; [exact Hclean|].
  intros out. destruct (missing_key fields entries) as [k|] eqn:Hm.
  - unfold clean. cbn [_validate]. unfold kept. rewrite missing_key_filter, Hm.
    cbn [bind]. split; discriminate.
  - now rewrite (Hclean eq_refl).
Qed.

Lemma unlisted_keys_do_not_count_witness :
  missing_key [("a", SType Null)] [("more", VInt 1); ("a", VStr "x")] = None
  /\ clean (SDict [("a", SType Null)]) (VDict [("more", VInt 1); ("a", VStr "x")])
     = clean (SDict [("a", SType Null)]) (VDict [("a", VStr "x")]).
Proof.
  split; [reflexivity|].
  exact (proj1 (proj2 (unlisted_keys_do_not_count
                         [("a", SType Null)] [("more", VInt 1); ("a", VStr "x")]))
           eq_refl).
Defined.

(** *** Dates and the calendar *)

Lemma digit_cases (x : ascii) :
  Text.is_digit x = true ->
  In x ["0"; "1"; "2"; "3"; "4"; "5"; "6"; "7"; "8"; "9"]%char.
Proof.
  destruct x as [[] [] [] [] [] [] [] []]; intros H; try discriminate H;
    cbn [In]; repeat (try (left; reflexivity); right); contradiction.
Qed.

Ltac each_digit x H :=
  let E := fresh in
  assert (E := digit_cases x H); cbn [In] in E;
  repeat (destruct E as [E|E]; [subst x|]); [..|contradiction].

Lemma directive_m (x y : ascii) (rest : list ascii) (acc : Strptime.fields) :
  Text.is_digit x = true -> Text.is_digit y = true ->
  Strptime.directive Strptime.m (x :: y :: rest) acc
  = if (1 <=? Strptime.two x y) && (Strptime.two x y <=? 12)
    then Some (Strptime.Fields (Strptime.fY acc) (Strptime.two x y) (Strptime.fd acc) (Strptime.fH acc) (Strptime.fM acc) (Strptime.fS acc) (Strptime.ff acc), rest)
    else if Strptime.dig x 1 9
    then Some (Strptime.Fields (Strptime.fY acc) (Text.digit_val x) (Strptime.fd acc) (Strptime.fH acc) (Strptime.fM acc) (Strptime.fS acc) (Strptime.ff acc), y :: rest)
    else None.
Proof.
  intros Hx Hy. each_digit x Hx; each_digit y Hy; reflexivity.
Qed.

Lemma directive_d (x y : ascii) (rest : list ascii) (acc : Strptime.fields) :
  Text.is_digit x = true -> Text.is_digit y = true ->
  Strptime.directive Strptime.d (x :: y :: rest) acc
  = if (1 <=? Strptime.two x y) && (Strptime.two x y <=? 31)
    then Some (Strptime.Fields (Strptime.fY acc) (Strptime.fm acc) (Strptime.two x y) (Strptime.fH acc) (Strptime.fM acc) (Strptime.fS acc) (Strptime.ff acc), rest)
    else if Strptime.dig x 1 9
    then Some (Strptime.Fields (Strptime.fY acc) (Strptime.fm acc) (Text.digit_val x) (Strptime.fH acc) (Strptime.fM acc) (Strptime.fS acc) (Strptime.ff acc), y :: rest)
    else None.
Proof.
  intros Hx Hy. each_digit x Hx; each_digit y Hy; reflexivity.
Qed.

Lemma directive_H (x y : ascii) (rest : list ascii) (acc : Strptime.fields) :
  Text.is_digit x = true -> Text.is_digit y = true ->
  Strptime.directive Strptime.H (x :: y :: rest) acc
  = if (0 <=? Strptime.two x y) && (Strptime.two x y <=? 23)
    then Some (Strptime.Fields (Strptime.fY acc) (Strptime.fm acc) (Strptime.fd acc) (Strptime.two x y) (Strptime.fM acc) (Strptime.fS acc) (Strptime.ff acc), rest)
    else if Strptime.dig x 0 9
    then Some (Strptime.Fields (Strptime.fY acc) (Strptime.fm acc) (Strptime.fd acc) (Text.digit_val x) (Strptime.fM acc) (Strptime.fS acc) (Strptime.ff acc), y :: rest)
    else None.
Proof.
  intros Hx Hy. each_digit x Hx; each_digit y Hy; reflexivity.
Qed.

Lemma directive_M (x y : ascii) (rest : list ascii) (acc : Strptime.fields) :
  Text.is_digit x = true -> Text.is_digit y = true ->
  Strptime.directive Strptime.M (x :: y :: rest) acc
  = if (0 <=? Strptime.two x y) && (Strptime.two x y <=? 59)
    then Some (Strptime.Fields (Strptime.fY acc) (Strptime.fm acc) (Strptime.fd acc) (Strptime.fH acc) (Strptime.two x y) (Strptime.fS acc) (Strptime.ff acc), rest)
    else if Strptime.dig x 0 9
    then Some (Strptime.Fields (Strptime.fY acc) (Strptime.fm acc) (Strptime.fd acc) (Strptime.fH acc) (Text.digit_val x) (Strptime.fS acc) (Strptime.ff acc), y :: rest)
    else None.
Proof.
  intros Hx Hy. each_digit x Hx; each_digit y Hy; reflexivity.
Qed.

Lemma directive_S (x y : ascii) (rest : list ascii) (acc : Strptime.fields) :
  Text.is_digit x = true -> Text.is_digit y = true ->
  Strptime.directive Strptime.S (x :: y :: rest) acc
  = if (0 <=? Strptime.two x y) && (Strptime.two x y <=? 61)
    then Some (Strptime.Fields (Strptime.fY acc) (Strptime.fm acc) (Strptime.fd acc) (Strptime.fH acc) (Strptime.fM acc) (Strptime.two x y) (Strptime.ff acc), rest)
    else if Strptime.dig x 0 9
    then Some (Strptime.Fields (Strptime.fY acc) (Strptime.fm acc) (Strptime.fd acc) (Strptime.fH acc) (Strptime.fM acc) (Text.digit_val x) (Strptime.ff acc), y :: rest)
    else None.
Proof.
  intros Hx Hy. each_digit x Hx; each_digit y Hy; reflexivity.
Qed.

Lemma Rep_digit_inv (n : nat) :
  forall l, in_language (Re.Rep n Re.Digit) l -> List.length l = n /\ digits l.
Proof.
  induction n as [|n IH]; intros l H; cbn [Re.Rep] in H.
  - inversion H; subst. split; [reflexivity | constructor].
  - inversion H as [| | |a b l1 l2 H1 H2| | | |]; subst.
    inversion H1; subst. destruct (IH _ H2) as [Hlen Hds].
    split; [cbn; now rewrite Hlen | now constructor].
Qed.

Lemma Rep_digit_intro (l : list ascii) :
  digits l -> in_language (Re.Rep (List.length l) Re.Digit) l.
Proof.
  induction 1 as [|c l Hc Hl IH]; cbn [List.length Re.Rep]; [constructor|].
  change (c :: l) with ([c] ++ l)%list. constructor; [now constructor | exact IH].
Qed.

Lemma Chr_inv (c : ascii) (l : list ascii) : in_language (Re.Chr c) l -> l = [c].
Proof. intros H. now inversion H. Qed.

Lemma all_digits_Forall (l : list ascii) : Text.all_digits l = true <-> digits l.
Proof. unfold Text.all_digits, digits. rewrite forallb_forall, Forall_forall. reflexivity. Qed.

Lemma Date_pattern_shape (l : list ascii) :
  Re.full (Re.Seq (Re.Rep 4 Re.Digit) (Re.Seq (Re.Chr "-") (Re.Seq (Re.Rep 2 Re.Digit)
             (Re.Seq (Re.Chr "-") (Re.Rep 2 Re.Digit))))) l = true
  <-> exists a b c d e f g h,
        l = [a; b; c; d; "-"; e; f; "-"; g; h]%char /\ digits [a; b; c; d; e; f; g; h].
Proof.
  rewrite full_in_language. split.
  - intros H.
    inversion H as [| | |? ? l1 r1 H1 H2| | | |]; subst.
    inversion H2 as [| | |? ? l2 r2 H3 H4| | | |]; subst.
    inversion H4 as [| | |? ? l3 r3 H5 H6| | | |]; subst.
    inversion H6 as [| | |? ? l4 r4 H7 H8| | | |]; subst.
    apply Chr_inv in H3, H7. subst.
    apply (Rep_digit_inv 4) in H1. apply (Rep_digit_inv 2) in H5. apply (Rep_digit_inv 2) in H8.
    destruct H1 as [L1 D1], H5 as [L3 D3], H8 as [L5 D5].
    destruct l1 as [|a [|b [|c [|d [|]]]]]; try discriminate L1.
    destruct l3 as [|e [|f [|]]]; try discriminate L3.
    destruct r4 as [|g [|h [|]]]; try discriminate L5.
    exists a, b, c, d, e, f, g, h. split; [reflexivity|].
    apply (Forall_app (fun c => Text.is_digit c = true) [a; b; c; d] [e; f; g; h]).
    split; [exact D1|].
    apply (Forall_app (fun c => Text.is_digit c = true) [e; f] [g; h]). now split.
  - intros (a & b & c & d & e & f & g & h & -> & D).
    apply (Forall_app (fun c => Text.is_digit c = true) [a; b; c; d] [e; f; g; h]) in D.
    destruct D as [D1 D].
    apply (Forall_app (fun c => Text.is_digit c = true) [e; f] [g; h]) in D.
    destruct D as [D3 D5].
    change [a; b; c; d; "-"; e; f; "-"; g; h]%char
      with ([a; b; c; d] ++ ["-"%char] ++ [e; f] ++ ["-"%char] ++ [g; h])%list.
    constructor; [exact (Rep_digit_intro _ D1)|].
    constructor; [constructor|].
    constructor; [exact (Rep_digit_intro _ D3)|].
    constructor; [constructor | exact (Rep_digit_intro _ D5)].
Qed.

Lemma date_fields_shape (l : list ascii) :
  date_fields l <> None
  <-> exists a b c d e f g h,
        l = [a; b; c; d; "-"; e; f; "-"; g; h]%char /\ digits [a; b; c; d; e; f; g; h].
Proof.
  split.
  - intros H.
    destruct l as [|a [|b [|c [|d [|x [|e [|f [|y [|g [|h [|]]]]]]]]]]];
      try (now destruct H).
    unfold date_fields in H.
    destruct (Text.all_digits _) eqn:D; [|now destruct H].
    destruct (Ascii.eqb_spec x "-") as [->|]; [|now destruct H].
    destruct (Ascii.eqb_spec y "-") as [->|]; [|now destruct H].
    exists a, b, c, d, e, f, g, h. split; [reflexivity | now apply all_digits_Forall].
  - intros (a & b & c & d & e & f & g & h & -> & D).
    apply all_digits_Forall in D. unfold date_fields. rewrite D. discriminate.
Qed.

Lemma four_digits_range (a b c d : ascii) :
  digits [a; b; c; d] -> 0 <= Text.digits_val [a; b; c; d] <= 9999.
Proof.
  intros D. inversion D as [|? ? Ha D1]; subst. inversion D1 as [|? ? Hb D2]; subst.
  inversion D2 as [|? ? Hc D3]; subst. inversion D3 as [|? ? Hd _]; subst.
  apply digit_code in Ha, Hb, Hc, Hd.
  unfold Text.digits_val, Text.digit_val. cbn [fold_left]. lia.
Qed.

Lemma Lit_digit (c x : ascii) (rest : list ascii) (acc : Strptime.fields) :
  Text.is_digit x = true -> Text.is_digit (FloatText.lower c) = false ->
  Strptime.directive (Strptime.Lit c) (x :: rest) acc = None.
Proof.
  intros Hx Hc. cbn [Strptime.directive]. rewrite (digit_lower x Hx).
  now rewrite (digit_neq x _ Hx Hc).
Qed.

Lemma days_in_month_le (y m : Z) : 28 <= Strptime.days_in_month y m <= 31.
Proof.
  unfold Strptime.days_in_month.
  destruct (m =? 2); [destruct (Strptime.is_leap y); lia|].
  destruct (_ || _); lia.
Qed.

Lemma strptime_date (a b c d e f g h : ascii) (tail : list ascii) (s : string) :
  digits [a; b; c; d; e; f; g; h] ->
  Text.chars s = ([a; b; c; d; "-"; e; f; "-"; g; h]%char ++ tail)%list ->
  Strptime.strptime s Date_format
  = match tail with
    | [] =>
        if calendar_date (Text.digits_val [a; b; c; d]) (Strptime.two e f) (Strptime.two g h)
        then Some (Datetime_ (Date_ (Text.digits_val [a; b; c; d]) (Strptime.two e f)
                                    (Strptime.two g h)) 0 0 0 0)
        else None
    | _ => None
    end.
Proof.
  intros D Hs.
  assert (Hy := four_digits_range a b c d).
  apply (Forall_app (fun c => Text.is_digit c = true) [a; b; c; d] [e; f; g; h]) in D.
  destruct D as [D1 D]. specialize (Hy D1).
  inversion D as [|? ? He D2]; subst. inversion D2 as [|? ? Hf D3]; subst.
  inversion D3 as [|? ? Hg D4]; subst. inversion D4 as [|? ? Hh _]; subst.
  unfold Strptime.strptime. rewrite Hs. unfold Date_format.
  cbn [app Strptime.run].
  assert (HY : forall rest acc,
             Strptime.directive Strptime.Y (a :: b :: c :: d :: rest) acc
             = Some (Strptime.Fields (Text.digits_val [a; b; c; d]) (Strptime.fm acc)
                       (Strptime.fd acc) (Strptime.fH acc) (Strptime.fM acc)
                       (Strptime.fS acc) (Strptime.ff acc), rest)).
  { intros rest acc. cbn [Strptime.directive].
    now rewrite (proj2 (all_digits_Forall [a; b; c; d]) D1). }
  rewrite HY.
  change (Strptime.directive (Strptime.Lit "-") ("-"%char :: ?l) ?acc) with (Some (acc, l)).
  cbv iota beta.
  change (Strptime.directive (Strptime.Lit "-") ("-"%char :: e :: f :: "-"%char :: g :: h :: tail)
            ?acc)
    with (Some (acc, e :: f :: "-"%char :: g :: h :: tail)).
  cbv iota beta. rewrite (directive_m e f _ _ He Hf).
  unfold calendar_date.
  destruct ((1 <=? Strptime.two e f) && (Strptime.two e f <=? 12)) eqn:Em.
  - cbv iota beta.
    change (Strptime.directive (Strptime.Lit "-") ("-"%char :: g :: h :: tail) ?acc)
      with (Some (acc, g :: h :: tail)).
    cbv iota beta. rewrite (directive_d g h _ _ Hg Hh).
    assert (Hdim := days_in_month_le (Text.digits_val [a; b; c; d]) (Strptime.two e f)).
    apply andb_true_iff in Em as [Em1 Em2].
    destruct ((1 <=? Strptime.two g h) && (Strptime.two g h <=? 31)) eqn:Ed.
    + cbv iota beta. destruct tail as [|t tail]; [|reflexivity].
      unfold Strptime.build.
      cbn [Strptime.fY Strptime.fm Strptime.fd Strptime.fH Strptime.fM Strptime.fS
           Strptime.ff Strptime.no_fields].
      apply andb_true_iff in Ed as [Ed1 Ed2].
      rewrite Em1, Em2, Ed1.
      replace (Text.digits_val [a; b; c; d] <=? 9999) with true
        by (symmetry; apply Z.leb_le; lia).
      cbn [andb]. rewrite !andb_true_r.
      destruct (1 <=? Text.digits_val [a; b; c; d]); cbn [andb]; [|reflexivity].
      destruct (Strptime.two g h <=? _); reflexivity.
    + assert (Hcal : (1 <=? Text.digits_val [a; b; c; d]) && (1 <=? Strptime.two e f)
                     && (Strptime.two e f <=? 12) && (1 <=? Strptime.two g h)
                     && (Strptime.two g h
                         <=? Strptime.days_in_month (Text.digits_val [a; b; c; d])
                               (Strptime.two e f)) = false).
      { apply andb_false_iff in Ed.
        destruct (1 <=? Strptime.two g h) eqn:E1; [|now rewrite andb_false_r].
        replace (Strptime.two g h <=? _) with false; [now rewrite andb_false_r|].
        symmetry. apply Z.leb_gt. destruct Ed as [Ed|Ed]; [discriminate|].
        apply Z.leb_gt in Ed. lia. }
      rewrite Hcal.
      destruct (Strptime.dig g 1 9); cbv iota beta; [|now destruct tail].
      cbn [Strptime.run]. now destruct tail.
  - replace ((1 <=? Text.digits_val [a; b; c; d]) && (1 <=? Strptime.two e f)
             && (Strptime.two e f <=? 12)) with false.
    2:{ symmetry. rewrite <- andb_assoc, Em. apply andb_false_r. }
    cbn [andb].
    destruct (Strptime.dig e 1 9); cbv iota beta; [|now destruct tail].
    rewrite (Lit_digit "-" f _ _ Hf eq_refl). now destruct tail.
Qed.

(** X5: Date: a text that [validate] accepts is parsed to the date it spells
    exactly when that date exists in the calendar (year 1 or later, month 1
    to 12, a day of that month, leap years counted); any other accepted
    text, a text with a final newline included, is refused as an invalid
    date.  Every text of the form [YYYY-MM-DD] is accepted by [validate], so
    that [Date] cleans a text to a date exactly when the text spells a date
    of the calendar. *)
Theorem Date_parse_is_the_calendar :
  forall c s,
    (date_fields (Text.chars s) <> None -> validate (Date c) (VStr s) = Ok tt)
    /\ (validate (Date c) (VStr s) = Ok tt ->
        parse (Date c) (VStr s)
        = match Date_reference s with
          | Some x => Ok (VDate x)
          | None => Invalid (mkValidationError (VStr s) (VStr "is an invalid date") "Date")
          end)
    /\ (forall x,
          clean (SType (Date (init_condition None))) (VStr s) = Ok (VDate x)
          <-> Date_reference s = Some x).
Proof.
  intros c s.
  assert (Hval : forall c', date_fields (Text.chars s) <> None ->
                            validate (Date c') (VStr s) = Ok tt).
  { intros c' H. cbn [validate]. unfold RegexString_validate, Date_match.
    apply date_fields_shape in H.
    replace (Re.matches _ s) with true; [reflexivity|].
    symmetry. apply matches_final_newline. exists (Text.chars s).
    split; [now apply Date_pattern_shape | now left]. }
  assert (Hpar : forall c', validate (Date c') (VStr s) = Ok tt ->
            parse (Date c') (VStr s)
            = match Date_reference s with
              | Some x => Ok (VDate x)
              | None => Invalid (mkValidationError (VStr s) (VStr "is an invalid date")
                                   "Date")
              end).
  { intros c'. cbn [validate parse]. unfold RegexString_validate, Date_match.
    destruct (Re.matches _ s) eqn:Hm; [intros _ | discriminate].
    apply matches_final_newline in Hm as (l & Hl & Hs).
    apply Date_pattern_shape in Hl as (a & b & c0 & d & e & f & g & h & -> & D).
    unfold Date_parse, Date_reference. destruct Hs as [Hs | Hs].
    - rewrite (strptime_date a b c0 d e f g h [] s D Hs), Hs.
      unfold date_fields. rewrite (proj2 (all_digits_Forall _) D).
      cbn [andb Ascii.eqb Bool.eqb].
      destruct (calendar_date _ _ _); reflexivity.
    - rewrite (strptime_date a b c0 d e f g h ["010"%char] s D Hs), Hs. reflexivity. }
  split; [apply Hval|]. split; [apply Hpar|].
  intros x. unfold clean. cbn [_validate _parse get_parsed_value_after].
  rewrite !prefixed_nil. split.
  - intros H. apply bind_Ok_inv in H as ([] & Hv & Hp).
    apply Type_get_parsed_value_Ok_inv in Hp. rewrite (Hpar _ Hv) in Hp.
    destruct (Date_reference s); [|discriminate Hp]. now injection Hp as ->.
  - intros H.
    assert (Hv : validate (Date (init_condition None)) (VStr s) = Ok tt).
    { apply Hval. unfold Date_reference in H.
      destruct (date_fields (Text.chars s)); [discriminate | discriminate H]. }
    rewrite Hv. cbn [bind]. rewrite (Hpar _ Hv), H. reflexivity.
Qed.

Lemma Date_parse_is_the_calendar_witness :
  parse (Date (init_condition None)) (VStr "2024-02-29")
  = match Date_reference "2024-02-29" with
    | Some x => Ok (VDate x)
    | None => Invalid (mkValidationError (VStr "2024-02-29") (VStr "is an invalid date")
                         "Date")
    end
  /\ Date_reference "2024-02-29" = Some (Date_ 2024 2 29)
  /\ Date_reference "2023-02-29" = None.
Proof.
  split; [|split; reflexivity].
  exact (proj1 (proj2 (Date_parse_is_the_calendar (init_condition None) "2024-02-29"))
           eq_refl).
Defined.

(** *** Datetimes *)

Lemma build_fields (y mo d h mi se us : Z) :
  0 <= y <= 9999 ->
  Strptime.build (Strptime.Fields y mo d h mi se us)
  = if calendar_date y mo d && clock h mi se
    then Some (Datetime_ (Date_ y mo d) h mi se us) else None.
Proof.
  intros Hy. unfold Strptime.build, calendar_date, clock.
  cbn [Strptime.fY Strptime.fm Strptime.fd Strptime.fH Strptime.fM Strptime.fS Strptime.ff].
  replace (y <=? 9999) with true by (symmetry; apply Z.leb_le; lia).
  destruct (1 <=? y), (1 <=? mo), (mo <=? 12), (1 <=? d),
    (d <=? Strptime.days_in_month y mo), (h <=? 23), (mi <=? 59), (se <=? 59);
    reflexivity.
Qed.

Lemma run_seconds (a b c d e f g h i j k m n o : ascii) (rest : list ascii)
  (more : list Strptime.item) :
  digits [a; b; c; d; e; f; g; h; i; j; k; m; n; o] ->
  (forall x r acc, Text.is_digit x = true -> Strptime.run more (x :: r) acc = None) ->
  Strptime.run
    (Strptime.Y :: Strptime.Lit "-" :: Strptime.m :: Strptime.Lit "-" :: Strptime.d
       :: Strptime.Lit "T" :: Strptime.H :: Strptime.Lit ":" :: Strptime.M
       :: Strptime.Lit ":" :: Strptime.S :: more)
    (a :: b :: c :: d :: "-" :: e :: f :: "-" :: g :: h :: "T" :: i :: j :: ":" :: k :: m
       :: ":" :: n :: o :: rest)%char
    Strptime.no_fields
  = if seconds_in_range (Strptime.two e f) (Strptime.two g h) (Strptime.two i j)
         (Strptime.two k m) (Strptime.two n o)
    then Strptime.run more rest
           (Strptime.Fields (Text.digits_val [a; b; c; d]) (Strptime.two e f)
              (Strptime.two g h) (Strptime.two i j) (Strptime.two k m) (Strptime.two n o) 0)
    else None.
Proof.
  intros D Hmore.
  apply (Forall_app (fun c => Text.is_digit c = true) [a; b; c; d]) in D.
  destruct D as [D1 D].
  inversion D as [|? ? He D2]; subst. inversion D2 as [|? ? Hf D3]; subst.
  inversion D3 as [|? ? Hg D4]; subst. inversion D4 as [|? ? Hh D5]; subst.
  inversion D5 as [|? ? Hi D6]; subst. inversion D6 as [|? ? Hj D7]; subst.
  inversion D7 as [|? ? Hk D8]; subst. inversion D8 as [|? ? Hm D9]; subst.
  inversion D9 as [|? ? Hn D10]; subst. inversion D10 as [|? ? Ho _]; subst.
  clear D D2 D3 D4 D5 D6 D7 D8 D9 D10.
  unfold seconds_in_range.
  cbn [Strptime.run].
  assert (HY : forall r acc,
             Strptime.directive Strptime.Y (a :: b :: c :: d :: r) acc
             = Some (Strptime.Fields (Text.digits_val [a; b; c; d]) (Strptime.fm acc)
                       (Strptime.fd acc) (Strptime.fH acc) (Strptime.fM acc)
                       (Strptime.fS acc) (Strptime.ff acc), r)).
  { intros r acc. cbn [Strptime.directive].
    now rewrite (proj2 (all_digits_Forall [a; b; c; d]) D1). }
  assert (HL : forall ch r acc,
             Strptime.directive (Strptime.Lit ch) (ch :: r) acc = Some (acc, r)).
  { intros ch r acc. cbn [Strptime.directive]. now rewrite Ascii.eqb_refl. }
  rewrite HY. cbv iota beta. rewrite HL. cbv iota beta.
  rewrite (directive_m e f _ _ He Hf).
  destruct ((1 <=? Strptime.two e f) && (Strptime.two e f <=? 12)); cbn [andb].
  2:{ destruct (Strptime.dig e 1 9); [|reflexivity]. cbv iota beta.
      now rewrite (Lit_digit "-" f _ _ Hf eq_refl). }
  cbv iota beta. rewrite HL. cbv iota beta.
  rewrite (directive_d g h _ _ Hg Hh).
  destruct ((1 <=? Strptime.two g h) && (Strptime.two g h <=? 31)); cbn [andb].
  2:{ destruct (Strptime.dig g 1 9); [|reflexivity]. cbv iota beta.
      now rewrite (Lit_digit "T" h _ _ Hh eq_refl). }
  cbv iota beta. rewrite HL. cbv iota beta.
  rewrite (directive_H i j _ _ Hi Hj).
  destruct ((0 <=? Strptime.two i j) && (Strptime.two i j <=? 23)); cbn [andb].
  2:{ destruct (Strptime.dig i 0 9); [|reflexivity]. cbv iota beta.
      now rewrite (Lit_digit ":" j _ _ Hj eq_refl). }
  cbv iota beta. rewrite HL. cbv iota beta.
  rewrite (directive_M k m _ _ Hk Hm).
  destruct ((0 <=? Strptime.two k m) && (Strptime.two k m <=? 59)); cbn [andb].
  2:{ destruct (Strptime.dig k 0 9); [|reflexivity]. cbv iota beta.
      now rewrite (Lit_digit ":" m _ _ Hm eq_refl). }
  cbv iota beta. rewrite HL. cbv iota beta.
  rewrite (directive_S n o _ _ Hn Ho).
  destruct ((0 <=? Strptime.two n o) && (Strptime.two n o <=? 61)); cbn [andb].
  2:{ destruct (Strptime.dig n 0 9); [|reflexivity]. cbv iota beta.
      now rewrite (Hmore o _ _ Ho). }
  reflexivity.
Qed.

Lemma directive_f_digits (ds z : list ascii) (acc : Strptime.fields) :
  digits ds -> ds <> [] ->
  match z with [] => True | c :: _ => Text.is_digit c = false end ->
  Strptime.directive Strptime.f (ds ++ z)%list acc
  = Some (Strptime.Fields (Strptime.fY acc) (Strptime.fm acc) (Strptime.fd acc)
            (Strptime.fH acc) (Strptime.fM acc) (Strptime.fS acc)
            (Text.digits_val
               (firstn 6 ds ++ repeat "0"%char (6 - List.length (firstn 6 ds)))%list),
          (skipn 6 ds ++ z)%list).
Proof.
  intros Hds Hne Hz. cbn [Strptime.directive]. rewrite (span_digits_app ds z Hds Hz).
  destruct ds as [|c ds]; [congruence | reflexivity].
Qed.

Lemma Datetime_pattern_shape (l : list ascii) :
  Re.full
    (Re.Seq (Re.Rep 4 Re.Digit) (Re.Seq (Re.Chr "-") (Re.Seq (Re.Rep 2 Re.Digit)
    (Re.Seq (Re.Chr "-") (Re.Seq (Re.Rep 2 Re.Digit) (Re.Seq (Re.Chr "T")
    (Re.Seq (Re.Rep 2 Re.Digit) (Re.Seq (Re.Chr ":") (Re.Seq (Re.Rep 2 Re.Digit)
    (Re.Seq (Re.Chr ":") (Re.Seq (Re.Rep 2 Re.Digit)
    (Re.Seq (Re.Opt (Re.Seq (Re.Chr ".") (Re.Star Re.Digit)))
            (Re.Opt (Re.Chr "Z"))))))))))))))
    l = true ->
  exists a b c d e f g h i j k m n o ds fr zn,
    l = ([a; b; c; d; "-"; e; f; "-"; g; h; "T"; i; j; ":"; k; m; ":"; n; o]%char
         ++ fr ++ zn)%list
    /\ digits [a; b; c; d; e; f; g; h; i; j; k; m; n; o]
    /\ digits ds
    /\ (fr = [] \/ fr = "."%char :: ds)
    /\ (zn = [] \/ zn = ["Z"%char]).
Proof.
  rewrite full_in_language. intros H.
  inversion H as [| | |? ? l1 r1 H1 R1| | | |]; subst.
  inversion R1 as [| | |? ? c1 r2 C1 R2| | | |]; subst.
  inversion R2 as [| | |? ? l2 r3 H2 R3| | | |]; subst.
  inversion R3 as [| | |? ? c2 r4 C2 R4| | | |]; subst.
  inversion R4 as [| | |? ? l3 r5 H3 R5| | | |]; subst.
  inversion R5 as [| | |? ? c3 r6 C3 R6| | | |]; subst.
  inversion R6 as [| | |? ? l4 r7 H4 R7| | | |]; subst.
  inversion R7 as [| | |? ? c4 r8 C4 R8| | | |]; subst.
  inversion R8 as [| | |? ? l5 r9 H5 R9| | | |]; subst.
  inversion R9 as [| | |? ? c5 r10 C5 R10| | | |]; subst.
  inversion R10 as [| | |? ? l6 r11 H6 R11| | | |]; subst.
  inversion R11 as [| | |? ? fr zn F Z| | | |]; subst.
  apply Chr_inv in C1, C2, C3, C4, C5. subst.
  apply (Rep_digit_inv 4) in H1. apply (Rep_digit_inv 2) in H2.
  apply (Rep_digit_inv 2) in H3. apply (Rep_digit_inv 2) in H4.
  apply (Rep_digit_inv 2) in H5. apply (Rep_digit_inv 2) in H6.
  destruct H1 as [L1 D1], H2 as [L2 D2], H3 as [L3 D3], H4 as [L4 D4], H5 as [L5 D5],
    H6 as [L6 D6].
  destruct l1 as [|a [|b [|c [|d [|]]]]]; try discriminate L1.
  destruct l2 as [|e [|f [|]]]; try discriminate L2.
  destruct l3 as [|g [|h [|]]]; try discriminate L3.
  destruct l4 as [|i [|j [|]]]; try discriminate L4.
  destruct l5 as [|k [|m [|]]]; try discriminate L5.
  destruct l6 as [|n [|o [|]]]; try discriminate L6.
  assert (Hfr : exists ds, digits ds /\ (fr = [] \/ fr = "."%char :: ds)).
  { inversion F as [| | | |? ? ? F1|? ? ? F1| |]; subst.
    - inversion F1 as [| | |? ? p q P Q| | | |]; subst.
      apply Chr_inv in P. subst. exists q. split; [exact (star_digits _ _ Q eq_refl)|].
      now right.
    - inversion F1; subst. exists []. split; [constructor | now left]. }
  destruct Hfr as (ds & Hds & Hfr).
  assert (Hzn : zn = [] \/ zn = ["Z"%char]).
  { inversion Z as [| | | |? ? ? Z1|? ? ? Z1| |]; subst.
    - apply Chr_inv in Z1. now right.
    - inversion Z1. now left. }
  exists a, b, c, d, e, f, g, h, i, j, k, m, n, o, ds, fr, zn.
  split; [reflexivity|]. split; [|now repeat split].
  inversion D1 as [|? ? ? X1]; inversion X1 as [|? ? ? X2]; inversion X2 as [|? ? ? X3];
    inversion X3; subst.
  inversion D2 as [|? ? ? Y1]; inversion Y1; subst.
  inversion D3 as [|? ? ? Y2]; inversion Y2; subst.
  inversion D4 as [|? ? ? Y3]; inversion Y3; subst.
  inversion D5 as [|? ? ? Y4]; inversion Y4; subst.
  inversion D6 as [|? ? ? Y5]; inversion Y5; subst.
  repeat constructor; assumption.
Qed.

Lemma skipn_digits (ds : list ascii) :
  digits ds -> (6 < List.length ds)%nat ->
  exists x r, skipn 6 ds = x :: r /\ Text.is_digit x = true.
Proof.
  intros D Hlen.
  destruct ds as [|a1 [|a2 [|a3 [|a4 [|a5 [|a6 [|a7 r]]]]]]]; cbn in Hlen; try lia.
  exists a7, r. split; [reflexivity|].
  do 6 (inversion D as [|? ? _ D']; subst; clear D; rename D' into D).
  now inversion D.
Qed.

Lemma after_seconds_runs (ds fr tl : list ascii) (y mo d h mi se : Z) :
  after_seconds ds fr tl ->
  let F := Strptime.Fields y mo d h mi se in
  let R1 := Strptime.run [] (fr ++ tl)%list (F 0) in
  let R2 := Strptime.run [Strptime.Lit "."; Strptime.f] (fr ++ tl)%list (F 0) in
  let R3 := Strptime.run [Strptime.Lit "."; Strptime.f; Strptime.Lit "Z"] (fr ++ tl)%list
              (F 0) in
  match fraction (fr ++ tl)%list with
  | Some us =>
      (R1 = Some (F us) /\ R2 = None /\ R3 = None)
      \/ (R1 = None /\ R2 = Some (F us) /\ R3 = None)
      \/ (R1 = None /\ R2 = None /\ R3 = Some (F us))
  | None => R1 = None /\ R2 = None /\ R3 = None
  end.
Proof.
  intros (Hds & Hfr & Htl) F R1 R2 R3. subst R1 R2 R3.
  assert (Hz : match tl with [] => True | c :: _ => Text.is_digit c = false end).
  { cbn [In] in Htl. destruct Htl as [<-|[<-|[<-|[<-|[]]]]]; [exact I | reflexivity ..]. }
  destruct Hfr as [-> | ->].
  - cbn [app In] in *.
    destruct Htl as [<-|[<-|[<-|[<-|[]]]]].
    + left. repeat split.
    + repeat split.
    + repeat split.
    + repeat split.
  - cbn [app fraction]. rewrite (span_digits_app ds tl Hds Hz).
    rewrite Ascii.eqb_refl. cbn [andb].
    cbn [Strptime.run].
    change (Strptime.directive (Strptime.Lit ".") ("."%char :: ?l) ?acc)
      with (Some (acc, l)).
    cbv iota beta.
    destruct ds as [|c0 ds0].
    { cbn [app List.length Nat.leb andb In] in *.
      destruct Htl as [<-|[<-|[<-|[<-|[]]]]]; repeat split. }
    remember (c0 :: ds0) as ds eqn:Eds.
    assert (Hne : ds <> []) by (rewrite Eds; discriminate).
    assert (H1 : (1 <=? List.length ds)%nat = true) by (rewrite Eds; reflexivity).
    rewrite H1. cbn [andb].
    rewrite (directive_f_digits ds tl _ Hds Hne Hz). cbv iota beta.
    destruct (Nat.leb_spec (List.length ds) 6) as [Hle|Hgt].
    + rewrite (firstn_all2 ds Hle), (skipn_all2 ds Hle). cbn [app andb].
      cbn [Strptime.fY Strptime.fm Strptime.fd Strptime.fH Strptime.fM Strptime.fS].
      cbn [In] in Htl. destruct Htl as [<-|[<-|[<-|[<-|[]]]]].
      * right. left. repeat split.
      * right. right. repeat split.
      * repeat split.
      * repeat split.
    + cbn [andb].
      destruct (skipn_digits ds Hds Hgt) as (x & r & -> & Hx). cbn [app].
      split; [reflexivity|]. split; [reflexivity|].
      now rewrite (Lit_digit "Z" x _ _ Hx eq_refl).
Qed.

Lemma two_nonneg (x y : ascii) :
  Text.is_digit x = true -> Text.is_digit y = true -> 0 <= Strptime.two x y.
Proof.
  intros Hx Hy. apply digit_code in Hx, Hy. unfold Strptime.two, Text.digit_val. lia.
Qed.

Lemma out_of_range_is_no_datetime (y mo d h mi se : Z) :
  0 <= h -> 0 <= mi -> 0 <= se ->
  seconds_in_range mo d h mi se = false -> calendar_date y mo d && clock h mi se = false.
Proof.
  unfold seconds_in_range, calendar_date, clock. intros Hh Hmi Hse H.
  assert (Hdim := days_in_month_le y mo).
  destruct (1 <=? y); [|reflexivity].
  destruct (1 <=? mo) eqn:E1; [|reflexivity].
  destruct (mo <=? 12) eqn:E2; [|reflexivity].
  destruct (1 <=? d) eqn:E3; [|reflexivity].
  destruct (d <=? Strptime.days_in_month y mo) eqn:E4; [|reflexivity].
  destruct (h <=? 23) eqn:E5; [|reflexivity].
  destruct (mi <=? 59) eqn:E6; [|reflexivity].
  destruct (se <=? 59) eqn:E7; [|reflexivity].
  exfalso. cbn [andb] in H.
  repeat (apply andb_false_iff in H; destruct H as [H|H]);
    try discriminate H; apply Z.leb_gt in H; apply Z.leb_le in E4, E5, E6, E7; lia.
Qed.

Lemma Datetime_parse_reference (c : predicate) (s : string) :
  validate (Datetime c) (VStr s) = Ok tt ->
  parse (Datetime c) (VStr s)
  = match Datetime_reference s with
    | Some x => Ok (VDatetime x)
    | None => Invalid (mkValidationError (VStr s) (VStr "is an invalid datetime")
                         "Datetime")
    end.
Proof.
  cbn [validate parse]. unfold RegexString_validate, Datetime_match.
  destruct (Re.matches _ s) eqn:Hm; [intros _ | discriminate].
  apply matches_final_newline in Hm as (l & Hl & Hs).
  apply Datetime_pattern_shape in Hl
    as (a & b & c0 & d & e & f & g & h & i & j & k & m & n & o & ds & fr & zn
        & -> & D & Hds & Hfr & Hzn).
  assert (Hchars : exists tl,
             Text.chars s
             = (a :: b :: c0 :: d :: "-" :: e :: f :: "-" :: g :: h :: "T" :: i :: j :: ":"
                  :: k :: m :: ":" :: n :: o :: fr ++ tl)%char%list
             /\ after_seconds ds fr tl).
  { destruct Hs as [Hs | Hs].
    - exists zn. split; [exact Hs|]. split; [exact Hds|]. split; [exact Hfr|].
      cbn [In]. destruct Hzn as [-> | ->]; auto.
    - exists (zn ++ ["010"%char])%list. split.
      + rewrite Hs. cbn [app]. now rewrite <- app_assoc.
      + split; [exact Hds|]. split; [exact Hfr|].
        cbn [In]. destruct Hzn as [-> | ->]; cbn [app]; auto. }
  destruct Hchars as (tl & Hchars & Hafter). clear Hs.
  assert (Hy := four_digits_range a b c0 d).
  assert (D4 : digits [a; b; c0; d]).
  { apply (Forall_app (fun c => Text.is_digit c = true) [a; b; c0; d]) in D. apply D. }
  specialize (Hy D4).
  unfold Datetime_parse, Datetime_reference, Datetime_patterns, _attempt_parse,
    Strptime.strptime.
  cbn [map app]. rewrite Hchars.
  rewrite !(run_seconds a b c0 d e f g h i j k m n o (fr ++ tl)%list _ D).
  2:{ intros x r acc Hx. cbn [Strptime.run]. now rewrite (Lit_digit "." x _ _ Hx eq_refl). }
  2:{ intros x r acc Hx. cbn [Strptime.run]. now rewrite (Lit_digit "." x _ _ Hx eq_refl). }
  2:{ intros x r acc Hx. reflexivity. }
  cbn [datetime_fields]. rewrite (proj2 (all_digits_Forall _) D).
  cbn [andb Ascii.eqb Bool.eqb].
  destruct (seconds_in_range _ _ _ _ _) eqn:Er.
  - assert (Hr := after_seconds_runs ds fr tl (Text.digits_val [a; b; c0; d])
                    (Strptime.two e f) (Strptime.two g h) (Strptime.two i j)
                    (Strptime.two k m) (Strptime.two n o) Hafter).
    cbv zeta in Hr.
    destruct (fraction (fr ++ tl)%list) as [us|].
    + destruct Hr as [(R1 & R2 & R3) | [(R1 & R2 & R3) | (R1 & R2 & R3)]];
        rewrite R1, R2, R3, (build_fields _ _ _ _ _ _ us Hy);
        destruct (calendar_date _ _ _ && clock _ _ _); reflexivity.
    + destruct Hr as (R1 & R2 & R3). rewrite R1, R2, R3. reflexivity.
  - cbn [find].
    assert (D10 : digits [i; j; k; m; n; o]).
    { apply (Forall_app (fun c => Text.is_digit c = true) [a; b; c0; d; e; f; g; h]) in D.
      apply D. }
    inversion D10 as [|? ? Hi X1]; subst. inversion X1 as [|? ? Hj X2]; subst.
    inversion X2 as [|? ? Hk X3]; subst. inversion X3 as [|? ? Hm X4]; subst.
    inversion X4 as [|? ? Hn X5]; subst. inversion X5 as [|? ? Ho _]; subst.
    rewrite (out_of_range_is_no_datetime (Text.digits_val [a; b; c0; d]) _ _ _ _ _
               (two_nonneg i j Hi Hj) (two_nonneg k m Hk Hm) (two_nonneg n o Hn Ho) Er).
    now destruct (fraction (fr ++ tl)%list).
Qed.

Lemma span_digits_spec (l : list ascii) :
  forall ds z, FloatText.span_digits l = (ds, z) -> l = (ds ++ z)%list /\ digits ds.
Proof.
  induction l as [|c l IH]; intros ds z; cbn [FloatText.span_digits].
  - intros H. injection H as <- <-. split; [reflexivity | constructor].
  - destruct (Text.is_digit c) eqn:Hc.
    + destruct (FloatText.span_digits l) as [ds' z'] eqn:E.
      intros H. injection H as <- <-.
      destruct (IH ds' z' eq_refl) as [-> Hds]. split; [reflexivity | now constructor].
    + intros H. injection H as <- <-. split; [reflexivity | constructor].
Qed.

Lemma star_digits_intro (ds : list ascii) :
  digits ds -> in_language (Re.Star Re.Digit) ds.
Proof.
  induction 1 as [|c ds Hc Hds IH]; [constructor|].
  change (c :: ds) with ([c] ++ ds)%list. constructor; [now constructor | exact IH].
Qed.

Lemma Datetime_reference_matches (s : string) :
  Datetime_reference s <> None -> Datetime_match s = true.
Proof.
  unfold Datetime_reference. intros H.
  destruct (datetime_fields (Text.chars s)) as [[[[[[[y mo] d] h] mi] se] rest]|] eqn:Ef;
    [|now destruct H].
  destruct (fraction rest) as [us|] eqn:Efr; [|now destruct H]. clear H.
  unfold datetime_fields in Ef.
  destruct (Text.chars s)
    as [|a [|b [|c [|d0 [|x1 [|e [|f [|x2 [|g [|h0 [|x3 [|i [|j [|x4 [|k [|m [|x5 [|n
        [|o rest']]]]]]]]]]]]]]]]]]] eqn:Ec;
    try discriminate Ef.
  destruct (Text.all_digits _) eqn:D; [|discriminate Ef].
  destruct (Ascii.eqb_spec x1 "-") as [->|]; [|discriminate Ef].
  destruct (Ascii.eqb_spec x2 "-") as [->|]; [|discriminate Ef].
  destruct (Ascii.eqb_spec x3 "T") as [->|]; [|discriminate Ef].
  destruct (Ascii.eqb_spec x4 ":") as [->|]; [|discriminate Ef].
  destruct (Ascii.eqb_spec x5 ":") as [->|]; [|discriminate Ef].
  cbn [andb] in Ef. injection Ef as _ _ _ _ _ _ ->.
  apply all_digits_Forall in D.
  assert (Hrest : in_language
                    (Re.Seq (Re.Opt (Re.Seq (Re.Chr ".") (Re.Star Re.Digit)))
                            (Re.Opt (Re.Chr "Z"))) rest).
  { unfold fraction in Efr. destruct rest as [|p more].
    - change (@nil ascii) with (@nil ascii ++ [])%list.
      constructor; apply in_Alt_r; constructor.
    - destruct (FloatText.span_digits more) as [ds z] eqn:Es.
      apply span_digits_spec in Es as [-> Hds].
      destruct (Ascii.eqb_spec p ".") as [->|]; [|discriminate Efr].
      destruct (_ <=? _)%nat; [|discriminate Efr].
      destruct (_ <=? _)%nat; [|discriminate Efr].
      cbn [andb] in Efr.
      change ("."%char :: ds ++ z)%list with (("."%char :: ds) ++ z)%list.
      constructor.
      + apply in_Alt_l. change ("."%char :: ds) with (["."%char] ++ ds)%list.
        constructor; [constructor | now apply star_digits_intro].
      + destruct z as [|q [|]]; try discriminate Efr.
        * apply in_Alt_r. constructor.
        * destruct (Ascii.eqb_spec q "Z") as [->|]; [|discriminate Efr].
          apply in_Alt_l. constructor. }
  unfold Datetime_match. apply matches_final_newline.
  exists (Text.chars s). split; [|now left]. rewrite Ec. apply full_in_language.
  inversion D as [|? ? Ha D1]; subst. inversion D1 as [|? ? Hb D2]; subst.
  inversion D2 as [|? ? Hc D3]; subst. inversion D3 as [|? ? Hd D4]; subst.
  inversion D4 as [|? ? He D5]; subst. inversion D5 as [|? ? Hf D6]; subst.
  inversion D6 as [|? ? Hg D7]; subst. inversion D7 as [|? ? Hh D8]; subst.
  inversion D8 as [|? ? Hi D9]; subst. inversion D9 as [|? ? Hj D10]; subst.
  inversion D10 as [|? ? Hk D11]; subst. inversion D11 as [|? ? Hm D12]; subst.
  inversion D12 as [|? ? Hn D13]; subst. inversion D13 as [|? ? Ho _]; subst.
  assert (H2 : forall p q, Text.is_digit p = true -> Text.is_digit q = true ->
                           in_language (Re.Rep 2 Re.Digit) [p; q]).
  { intros p q Hp Hq. apply (Rep_digit_intro [p; q]). repeat constructor; assumption. }
  change (a :: b :: c :: d0 :: "-" :: e :: f :: "-" :: g :: h0 :: "T" :: i :: j :: ":"
            :: k :: m :: ":" :: n :: o :: rest)%char
    with ([a; b; c; d0] ++ ["-"%char] ++ [e; f] ++ ["-"%char] ++ [g; h0] ++ ["T"%char]
          ++ [i; j] ++ [":"%char] ++ [k; m] ++ [":"%char] ++ [n; o] ++ rest)%list.
  constructor.
  { apply (Rep_digit_intro [a; b; c; d0]). repeat constructor; assumption. }
  constructor; [constructor|]. constructor; [now apply H2|].
  constructor; [constructor|]. constructor; [now apply H2|].
  constructor; [constructor|]. constructor; [now apply H2|].
  constructor; [constructor|]. constructor; [now apply H2|].
  constructor; [constructor|]. constructor; [now apply H2 | exact Hrest].
Qed.

(** X6: Datetime: a text that [validate] accepts is parsed to the datetime it
    spells exactly when the date exists in the calendar, the time on the
    clock, and what follows the seconds is nothing, or a point and one to six
    digits, with or without a final [Z]; the digits are the microseconds,
    padded on the right.  Any other accepted text is refused as an invalid
    datetime: a [Z] without fractional part, a point without digits, more
    than six digits, a final newline.  Every text that spells a datetime in
    this way is accepted by [validate], so that [Datetime] cleans a text to
    a datetime exactly when the text spells it. *)
Theorem Datetime_parse_is_calendar_and_clock :
  forall c s,
    (Datetime_reference s <> None -> validate (Datetime c) (VStr s) = Ok tt)
    /\ (validate (Datetime c) (VStr s) = Ok tt ->
        parse (Datetime c) (VStr s)
        = match Datetime_reference s with
          | Some x => Ok (VDatetime x)
          | None => Invalid (mkValidationError (VStr s) (VStr "is an invalid datetime")
                               "Datetime")
          end)
    /\ (forall x,
          clean (SType (Datetime (init_condition None))) (VStr s) = Ok (VDatetime x)
          <-> Datetime_reference s = Some x).
Proof.
  intros c s.
  assert (Hval : forall c', Datetime_reference s <> None ->
                            validate (Datetime c') (VStr s) = Ok tt).
  { intros c' H. cbn [validate]. unfold RegexString_validate.
    now rewrite (Datetime_reference_matches s H). }
  split; [apply Hval|]. split; [apply Datetime_parse_reference|].
  intros x. unfold clean. cbn [_validate _parse get_parsed_value_after].
  rewrite !prefixed_nil. split.
  - intros H. apply bind_Ok_inv in H as ([] & Hv & Hp).
    apply Type_get_parsed_value_Ok_inv in Hp.
    rewrite (Datetime_parse_reference _ s Hv) in Hp.
    destruct (Datetime_reference s); [|discriminate Hp]. now injection Hp as ->.
  - intros H.
    assert (Hv : validate (Datetime (init_condition None)) (VStr s) = Ok tt).
    { apply Hval. rewrite H. discriminate. }
    rewrite Hv. cbn [bind]. rewrite (Datetime_parse_reference _ s Hv), H. reflexivity.
Qed.

Lemma Datetime_parse_is_calendar_and_clock_witness :
  parse (Datetime (init_condition None)) (VStr "2000-01-02T10:10:10.123Z")
  = match Datetime_reference "2000-01-02T10:10:10.123Z" with
    | Some x => Ok (VDatetime x)
    | None => Invalid (mkValidationError (VStr "2000-01-02T10:10:10.123Z")
                         (VStr "is an invalid datetime") "Datetime")
    end
  /\ Datetime_reference "2000-01-02T10:10:10.123Z"
     = Some (Datetime_ (Date_ 2000 1 2) 10 10 10 123000)
  /\ Datetime_reference "2000-01-02T10:10:10Z" = None.
Proof.
  split; [|split; reflexivity].
  exact (proj1 (proj2 (Datetime_parse_is_calendar_and_clock (init_condition None)
                         "2000-01-02T10:10:10.123Z")) eq_refl).
Defined.

(** *** The schema of [usage.py] *)

Lemma usage_missing_key (entries : list (string * obj)) :
  missing_key
    (match Usage.schema with SDict fields => fields | _ => [] end) entries
  = find (fun k => negb (Py.has_key k entries)) Usage.required.
Proof.
  unfold missing_key, Usage.required. cbn [Usage.schema map fst find Py.lookup String.eqb
    Ascii.eqb Bool.eqb andb is_Optional negb].
  rewrite !andb_true_r, !andb_false_r. reflexivity.
Qed.

(** X14: the schema of [usage.py].  An input mapping that lacks one of the
    seven keys that are not optional is refused at the root, the first one
    missing in the order of the schema being named.  The condition of
    [constrained_date] refuses exactly the datetimes after the first
    instant of 2017, with its own message.  The six demonstrations of the
    script come out as follows: the clean value of the first, and for the
    other five what the script prints, [str(e)] and [e.trace]. *)
Theorem usage_schema :
  (forall entries k,
      find (fun k => negb (Py.has_key k entries)) Usage.required = Some k ->
      Usage.clean (VDict entries)
      = Invalid (mkValidationError (VDict entries)
                   (VStr ("doesn't have key " ++ dquote ++ k ++ dquote)) "Object"))
  /\ (forall s x,
        validate Usage.constrained_date (VStr s) = Ok tt ->
        Datetime_reference s = Some x ->
        get_parsed_value Usage.constrained_date (VStr s)
        = if Usage.datetime_gt x Usage.new_year_2017
          then Invalid (mkValidationError (VStr s)
                          (VStr "date must be later than 2017-01-01") "Datetime")
          else Ok (VDatetime x))
  /\ Usage.clean Usage.test_passing
     = Ok (VDict
             [("foo", VStr "hello"); ("bar", VInt 1234); ("hoho", VNone);
              ("nest",
               VDict [("somedate", VDate (Date_ 2000 1 1));
                      ("constrained_date",
                       VDatetime (Datetime_ (Date_ 2000 1 2) 10 10 10 123000));
                      ("nest", VList [VInt 1; VInt 2; VInt 3; VInt 4])]);
              ("mixed", VList [VInt 1; VStr "hello"; VInt 1; Usage.literal "123.1234";
                               VList [VNone]; VStr "OH MY GOD"]);
              ("pairlist", VList [VTuple [VStr "hello"; VInt 1];
                                  VTuple [VStr "goodbye"; VInt 120]]);
              ("strict_bool", VBool true); ("permissive_bool", VBool false);
              ("enum", VStr "BAZ")])
  /\ Usage.printed (Usage.clean Usage.test_failing_condition)
     = Some ("2018-01-02T10:10:10 date must be later than 2017-01-01",
             "Object(key:'nest') --> Object(key:'constrained_date') --> Datetime")
  /\ Usage.printed (Usage.clean Usage.test_failing_schema)
     = Some ("1234a is not a validly formatted number",
             "Object(key:'hoho') --> Optional(Number)")
  /\ Usage.printed (Usage.clean Usage.test_failing_composite)
     = Some ("[3, 4, None] doesn't meet any allowed criterion",
             "Object(key:'mixed') --> Optional(List(index:2) --> "
             ++ "Any(String, Number, Boolean, List(index:0) --> Null))")
  /\ Usage.printed (Usage.clean Usage.test_failing_tuple)
     = Some ("['butwait', 1000, 1000] has too many elements (it requires 2)",
             "Object(key:'pairlist') --> List(index:2) --> Tuple")
  /\ Usage.printed (Usage.clean Usage.test_failing_enum)
     = Some ("BARZ doesn't meet any allowed criterion",
             "Object(key:'enum') --> Any(Constant('FOO'), Constant('BAR'), Constant('BAZ'))").
Proof.
  split; [|split; [|repeat split; vm_compute; reflexivity]].
  - intros entries k Hk. unfold Usage.clean, clean.
    assert (Hm := usage_missing_key entries). rewrite Hk in Hm.
    unfold Usage.schema in *. cbn [_validate]. now rewrite Hm.
  - intros s x Hv Hx. unfold get_parsed_value, Usage.constrained_date in *.
    cbn [get_parsed_value_after]. rewrite (Datetime_parse_reference _ s Hv), Hx.
    unfold Type_get_parsed_value.
    cbn [bind getattr_condition init_condition Usage.constrained_date_condition].
    destruct (Usage.datetime_gt x Usage.new_year_2017); reflexivity.
Qed.

Lemma usage_schema_witness :
  find (fun k => negb (Py.has_key k [("foo", VStr "hello"); ("nest", VNone)])) Usage.required
  = Some "bar"
  /\ Usage.clean (VDict [("foo", VStr "hello"); ("nest", VNone)])
     = Invalid (mkValidationError (VDict [("foo", VStr "hello"); ("nest", VNone)])
                  (VStr ("doesn't have key " ++ dquote ++ "bar" ++ dquote)) "Object")
  /\ get_parsed_value Usage.constrained_date (VStr "2017-01-01T00:00:00")
     = if Usage.datetime_gt (Datetime_ (Date_ 2017 1 1) 0 0 0 0) Usage.new_year_2017
       then Invalid (mkValidationError (VStr "2017-01-01T00:00:00")
                       (VStr "date must be later than 2017-01-01") "Datetime")
       else Ok (VDatetime (Datetime_ (Date_ 2017 1 1) 0 0 0 0)).
Proof.
  split; [reflexivity|]. split.
  - exact (proj1 usage_schema [("foo", VStr "hello"); ("nest", VNone)] "bar" eq_refl).
  - exact (proj1 (proj2 usage_schema) "2017-01-01T00:00:00"
             (Datetime_ (Date_ 2017 1 1) 0 0 0 0) eq_refl eq_refl).
Defined.

(** *** The order of the parse pass over a mapping *)

(** X13: the parse pass walks a mapping in the order of the schema, whatever
    the order of the input, and looks a key up with [get]: the first key of
    the schema whose value fails to parse ends the pass with its error, or
    with its exception. *)
Theorem parse_reports_in_schema_order :
  forall pre k sub post entries current_trace,
    let field k sub :=
      _parse (match Py.lookup k entries with Some v => v | None => VNone end) sub
        (current_trace ++ Object_key k) in
    (forall k' sub', In (k', sub') pre -> exists a, field k' sub' = Ok a) ->
    (forall e, field k sub = Invalid e ->
               _parse (VDict entries) (SDict (pre ++ (k, sub) :: post)) current_trace
               = Invalid e)
    /\ (forall x, field k sub = Raise x ->
                  _parse (VDict entries) (SDict (pre ++ (k, sub) :: post)) current_trace
                  = Raise x).
Proof.
  intros pre k sub post entries ct field Hpre.
  assert (Hloop : _parse (VDict entries) (SDict (pre ++ (k, sub) :: post)) ct
                  = (d <- for_fields field (pre ++ (k, sub) :: post) ;; Ok (VDict d))).
  { reflexivity. }
  destruct (for_fields_total field pre Hpre) as [d Hd].
  split; intros r Hr; rewrite Hloop, for_fields_app, Hd; cbn [bind for_fields];
    now rewrite Hr.
Qed.

Lemma parse_reports_in_schema_order_witness :
  _parse (VDict [("b", VInt (-2)); ("a", VInt (-1))])
    (SDict [("a", SType (Number (VInt 0) VNone false (init_condition None)));
            ("b", SType (Number (VInt 0) VNone false (init_condition None)))]) ""
  = Invalid (mkValidationError (VInt (-1)) (VStr "is less than the minimum: 0")
               "Object(key:'a') --> Number").
Proof.
  assert (Hfield :
    _parse (match Py.lookup "a" [("b", VInt (-2)); ("a", VInt (-1))] with
            | Some v => v
            | None => VNone
            end)
      (SType (Number (VInt 0) VNone false (init_condition None))) ("" ++ Object_key "a")
    = Invalid (mkValidationError (VInt (-1)) (VStr "is less than the minimum: 0")
                 "Object(key:'a') --> Number")).
  { vm_compute. reflexivity. }
  refine (proj1 (parse_reports_in_schema_order []
                   "a" (SType (Number (VInt 0) VNone false (init_condition None)))
                   [("b", SType (Number (VInt 0) VNone false (init_condition None)))]
                   [("b", VInt (-2)); ("a", VInt (-1))] "" _) _ Hfield).
  intros k' sub' [].
Defined.

(** *** What [Number] returns *)

(** X3: Number: [validate] accepts a [bool], an [int], a [float] or a
    [Decimal], and, unless strict, a text of the numeric shape; nothing
    else.  What [get_parsed_value] returns is the [Decimal] it was given, or
    an [int], or a [float] that is not integral: an integral result of
    [float] never comes out as a [float], and a boolean comes out as [1] or
    [0]. *)
Theorem Number_returns_int_unless_fractional :
  forall min max strict c value,
    (validate (Number min max strict c) value = Ok tt
     <-> (exists x, Py.number value = Some x)
         \/ (strict = false /\ exists s, value = VStr s /\ Number_match s = true))
    /\ (forall out,
          get_parsed_value (Number min max strict c) value = Ok out ->
          (exists d, value = VDecimal d /\ out = value)
          \/ (exists x, float value = Ok x /\ Num.is_integer x = true
                        /\ out = VInt (Num.int_of_float x))
          \/ (exists x, float value = Ok x /\ Num.is_integer x = false /\ out = VFloat x))
    /\ (forall b, parse (Number min max strict c) (VBool b) = Ok (VInt (if b then 1 else 0))).
Proof.
  intros min max strict c value. split; [|split].
  - cbn [validate]. unfold Number_validate. split.
    + intros H. destruct value; try (left; eexists; reflexivity);
        destruct strict; try discriminate H.
      destruct (Number_match s) eqn:E; [|discriminate H].
      right. split; [reflexivity|]. now exists s.
    + intros [[x Hx] | [-> (s & -> & Hs)]].
      * destruct value; try discriminate Hx; reflexivity.
      * now rewrite Hs.
  - intros out H. unfold get_parsed_value in H.
    apply get_parsed_value_after_Ok_inv in H.
    cbn [parse] in H. unfold Number_parse in H.
    assert (Hfloat : forall x, float value = Ok x ->
              Ok (if negb (Num.is_integer x) then VFloat x
                  else VInt (Num.int_of_float x)) = Ok out ->
              (exists d, value = VDecimal d /\ out = value)
              \/ (exists y, float value = Ok y /\ Num.is_integer y = true
                            /\ out = VInt (Num.int_of_float y))
              \/ (exists y, float value = Ok y /\ Num.is_integer y = false
                            /\ out = VFloat y)).
    { intros x Hx E. right. destruct (Num.is_integer x) eqn:Ei; injection E as <-.
      - left. now exists x.
      - right. now exists x. }
    destruct value;
      try (apply bind_Ok_inv in H as (x & Hx & H); exact (Hfloat x Hx H)).
    left. injection H as <-. now exists d.
  - intros [|]; reflexivity.
Qed.

Lemma Number_returns_int_unless_fractional_witness :
  (exists d, VStr "2.0" = VDecimal d /\ VInt 2 = VStr "2.0")
  \/ (exists x, float (VStr "2.0") = Ok x /\ Num.is_integer x = true
                /\ VInt 2 = VInt (Num.int_of_float x))
  \/ (exists x, float (VStr "2.0") = Ok x /\ Num.is_integer x = false /\ VInt 2 = VFloat x).
Proof.
  exact (proj1 (proj2 (Number_returns_int_unless_fractional
                         VNone VNone false (init_condition None) (VStr "2.0")))
           (VInt 2) eq_refl).
Defined.
